(** * The decision core of the blackjack advisor, embedded and verified

    The development follows the C++ sources: the shared card types
    ([core/types.hpp]), the Hi-Lo [CardCounter], the [ShuffleDetector]
    with its [CardInventory], the [GameStateTracker], the
    [BasicStrategy] tables, the [BettingStrategy] and the part of
    [RealtimeAdvisor] that feeds detections to the counter.

    Conventions.
    - Unsigned machine integers are values of [Z] (or [N] for card
      identities) reduced modulo their width where the code computes
      with them; [int32_t] additions wrap in two's complement.
    - [float] and [double] values are the rationals they denote; an
      arithmetic operation rounds its exact result to the nearest
      representable value, ties to even ([Machine.round_float]).
      Infinities and NaN are outside the model.
    - A function-local [static] object is process state: it is threaded
      explicitly next to the object whose method declares it.
    - [std::chrono::steady_clock::now()] is an input of the function
      that reads it, in clock ticks (nanoseconds). *)

From Stdlib Require Import ZArith QArith Qabs List Bool Lia Permutation String.
From stdpp Require Import base decidable option list sets gmap.
Import ListNotations.
#[local] Open Scope Z_scope.

(** ** Machine arithmetic *)
Module Machine.

(** [uintN_t] arithmetic is arithmetic modulo [2^N]. *)
Definition uint32 (x : Z) : Z := x mod 2 ^ 32.
Definition uint8 (x : Z) : Z := x mod 2 ^ 8.

(** [int32_t] results, reduced into [-2^31, 2^31). *)
Definition int32 (x : Z) : Z := (x + 2 ^ 31) mod 2 ^ 32 - 2 ^ 31.

(** Nearest integer to [n / d] for [0 < d], ties to the even one. *)
Definition round_half_even (n d : Z) : Z :=
  let q := n / d in
  let r := n mod d in
  if 2 * r <? d then q
  else if d <? 2 * r then q + 1
  else if Z.even q then q else q + 1.

(** [floor (log2 (p / q))] for positive [p] and [q]. *)
Definition binade (p q : Z) : Z :=
  let e0 := Z.log2 p - Z.log2 q in
  let below :=
    if 0 <=? e0 then p <? q * 2 ^ e0 else p * 2 ^ (- e0) <? q in
  if below then e0 - 1 else e0.

(** Rounding of the rational [x] to the binary format with [prec]
    significant bits and least normal exponent [emin], to nearest, ties
    to even; gradual underflow below [2^emin].  The exponent is
    not bounded above: a result beyond the largest finite value is
    turned into an infinity by [overflow] below where the operands
    can reach it, in the Kelly sizing; elsewhere it is not
    represented. *)
Definition round_float (prec emin : Z) (x : Q) : Q :=
  let p := Z.abs (Qnum x) in
  let q := Zpos (Qden x) in
  if p =? 0 then 0%Q
  else
    let e := Z.max (binade p q) emin in
    let u := e - (prec - 1) in
    let m :=
      if 0 <=? u then round_half_even p (q * 2 ^ u)
      else round_half_even (p * 2 ^ (- u)) q in
    let mag := if 0 <=? u then inject_Z (m * 2 ^ u)
               else Qmake m (Z.to_pos (2 ^ (- u))) in
    if Qnum x <? 0 then Qopp mag else mag.

(** IEEE-754 binary32 ([float]) and binary64 ([double]). *)
Definition float32 : Q -> Q := round_float 24 (-126).
Definition float64 : Q -> Q := round_float 53 (-1022).

(** [static_cast<float>(n)] of an integer. *)
Definition float_of_int (n : Z) : Q := float32 (inject_Z n).

(** [a / b] on [float] operands. *)
Definition float_div (a b : Q) : Q := float32 (Qdiv a b).

(** [a * b] on [double] operands. *)
Definition double_mul (a b : Q) : Q := float64 (Qmult a b).

(** A floating-point value where a result may leave the finite range:
    a finite value, an infinity or a NaN.  The sign of a zero is not
    kept; no operation below depends on it. *)
Inductive fp : Set :=
  | Finite (q : Q)
  | PInf
  | NInf
  | NaN.

(** The largest finite [float] and [double]. *)
Definition FLT_MAX : Q := inject_Z ((2 ^ 24 - 1) * 2 ^ 104).
Definition DBL_MAX : Q := inject_Z ((2 ^ 53 - 1) * 2 ^ 971).

(** Overflow: a result whose rounding with unbounded exponent exceeds
    the largest finite value [max] becomes an infinity. *)
Definition overflow (max r : Q) : fp :=
  if negb (Qle_bool r max) then PInf
  else if negb (Qle_bool (- max) r) then NInf
  else Finite r.

(** Rounding of an exact result to [float] and to [double]. *)
Definition fp32 (x : Q) : fp := overflow FLT_MAX (float32 x).
Definition fp64 (x : Q) : fp := overflow DBL_MAX (float64 x).

(** The infinity of the sign of [x * inf] for a finite [x]; NaN for a
    zero. *)
Definition times_inf (x : Q) (positive : bool) : fp :=
  if Qeq_bool x 0 then NaN
  else if xorb (Qle_bool 0 x) positive then NInf else PInf.

(** [a * b], the exact product of finite operands rounded by [round]. *)
Definition fp_mul (round : Q -> fp) (a b : fp) : fp :=
  match a, b with
  | NaN, _ | _, NaN => NaN
  | Finite x, Finite y => round (x * y)%Q
  | Finite x, PInf | PInf, Finite x => times_inf x true
  | Finite x, NInf | NInf, Finite x => times_inf x false
  | PInf, PInf | NInf, NInf => PInf
  | PInf, NInf | NInf, PInf => NInf
  end.

(** [a / c] for a finite divisor [c > 0]. *)
Definition fp_div_pos (round : Q -> fp) (a : fp) (c : Q) : fp :=
  match a with
  | Finite x => round (x / c)%Q
  | PInf => PInf
  | NInf => NInf
  | NaN => NaN
  end.

(** [a < b]; false when an operand is a NaN. *)
Definition fp_lt (a b : fp) : bool :=
  match a, b with
  | NaN, _ | _, NaN => false
  | Finite x, Finite y => negb (Qle_bool y x)
  | NInf, NInf | PInf, _ | _, NInf => false
  | NInf, _ | _, PInf => true
  end.

End Machine.

(** ** core/types.hpp *)
Module Types.

(** [enum class CardRank : uint8_t { Ace = 1, Two, ..., King }] *)
Inductive CardRank : Set :=
  | Ace | Two | Three | Four | Five | Six | Seven
  | Eight | Nine | Ten | Jack | Queen | King.

(** [static_cast<int>(rank)] *)
Definition rank_int (r : CardRank) : Z :=
  match r with
  | Ace => 1 | Two => 2 | Three => 3 | Four => 4 | Five => 5
  | Six => 6 | Seven => 7 | Eight => 8 | Nine => 9 | Ten => 10
  | Jack => 11 | Queen => 12 | King => 13
  end.

(** [static_cast<CardRank>(v)]; the program only casts values of the
    form [(id % 13) + 1], which lie in [1, 13]. *)
Definition rank_of_int (v : Z) : CardRank :=
  match v with
  | 1 => Ace | 2 => Two | 3 => Three | 4 => Four | 5 => Five
  | 6 => Six | 7 => Seven | 8 => Eight | 9 => Nine | 10 => Ten
  | 11 => Jack | 12 => Queen | _ => King
  end.

Definition rank_eqb (a b : CardRank) : bool := rank_int a =? rank_int b.

(** [enum class CardSuit : uint8_t { Hearts, Diamonds, Clubs, Spades }].
    The enumeration has a fixed underlying type and the program casts
    [id / 13] into it for any 8-bit [id], so a suit is kept as its
    underlying value. *)
Definition CardSuit : Set := Z.
Definition Hearts : CardSuit := 0.
Definition Diamonds : CardSuit := 1.
Definition Clubs : CardSuit := 2.
Definition Spades : CardSuit := 3.

(** [struct Card]; the confidence and the timestamp are never read by
    the decision core. *)
Record Card : Set := mkCard { rank : CardRank; suit : CardSuit }.

(** [Card::getValue] *)
Definition getValue (c : Card) : Z :=
  if rank_eqb (rank c) Ace then 11
  else if 10 <=? rank_int (rank c) then 10
  else rank_int (rank c).

(** [struct Detection]; of a detection the core reads [card_id] only. *)
Record Detection : Set := mkDetection { card_id : N }.

(** The conversion both [RealtimeAdvisor::updateCardCount] and
    [GameStateTracker::updateDetectedCards] apply to an identity. *)
Definition card_of_id (id : N) : Card :=
  {| rank := rank_of_int (Z.of_N id mod 13 + 1);
     suit := Z.of_N id / 13 |}.

End Types.

(** ** intelligence/counting/card_counter *)
Module CardCounter.
Import Machine Types.

Record t : Set := mk {
  m_runningCount : Z;          (* int32_t *)
  m_deckCount : Z;             (* uint32_t *)
  m_cardsPlayed : Z;           (* uint32_t *)
  m_cardsSeen : list Z         (* std::array<uint8_t, 52> *)
}.

(** Default member initialisers. *)
Definition new : t :=
  {| m_runningCount := 0; m_deckCount := 6; m_cardsPlayed := 0;
     m_cardsSeen := replicate 52 0 |}.

Definition reset (c : t) : t :=
  {| m_runningCount := 0;
     m_deckCount := m_deckCount c;
     m_cardsPlayed := 0;
     m_cardsSeen := replicate (length (m_cardsSeen c)) 0 |}.

Definition initialize (deckCount : Z) (c : t) : t :=
  reset {| m_runningCount := m_runningCount c;
           m_deckCount := deckCount;
           m_cardsPlayed := m_cardsPlayed c;
           m_cardsSeen := m_cardsSeen c |}.

Definition getHiLoValue (r : CardRank) : Z :=
  let rankValue := rank_int r in
  if (2 <=? rankValue) && (rankValue <=? 6) then 1
  else if (10 <=? rankValue) || rank_eqb r Ace then -1
  else 0.

(** [addCard]; the advisory [m_trueCount] and [m_confidence], which are
    recomputed from the fields below and never read back, are left out. *)
Definition addCard (card : Card) (c : t) : t :=
  let cardValue := getHiLoValue (rank card) in
  let cardIndex := uint8 (rank_int (rank card) + uint8 (suit card) * 13) in
  {| m_runningCount := int32 (m_runningCount c + cardValue);
     m_deckCount := m_deckCount c;
     m_cardsPlayed := uint32 (m_cardsPlayed c + 1);
     m_cardsSeen :=
       if cardIndex <? 52
       then alter (fun n => uint8 (n + 1)) (Z.to_nat cardIndex) (m_cardsSeen c)
       else m_cardsSeen c |}.

Definition getRunningCount (c : t) : Z := m_runningCount c.

(** A stream of confirmed cards fed to [addCard] one after the other. *)
Definition addCards (cards : list Card) (c : t) : t :=
  fold_left (fun acc card => addCard card acc) cards c.

End CardCounter.

(** ** intelligence/counting/shuffle_detector *)

(** [enum class ShuffleIndicator], with the enumerators the
    implementation file names. *)
Module ShuffleIndicator.
Inductive t : Set :=
  | None
  | CardDepletion
  | PenetrationReached
  | LongPause
  | AllCardsGone
  | DuplicateCard
  | ImpossibleSequence
  | VisualCue.

End ShuffleIndicator.

Module CardInventory.
Import Machine.

Record t : Set := mk {
  cards_seen : list Z;          (* std::array<uint8_t, 52> *)
  total_cards_seen : Z;         (* uint32_t *)
  deck_count : Z                (* uint32_t *)
}.

Definition new : t :=
  {| cards_seen := replicate 52 0; total_cards_seen := 0; deck_count := 6 |}.

Definition reset (inv : t) : t :=
  {| cards_seen := replicate (length (cards_seen inv)) 0;
     total_cards_seen := 0;
     deck_count := deck_count inv |}.

(** [addCard] returns the updated inventory and its [bool] result. *)
Definition addCard (card_id : N) (inv : t) : t * bool :=
  if (52 <=? card_id)%N then (inv, false)
  else
    ({| cards_seen :=
          alter (fun n => uint8 (n + 1)) (N.to_nat card_id) (cards_seen inv);
        total_cards_seen := uint32 (total_cards_seen inv + 1);
        deck_count := deck_count inv |}, true).

Definition isImpossible (inv : t) : bool :=
  if existsb (fun count => deck_count inv <? count) (cards_seen inv)
  then true
  else
    let max_total := uint32 (deck_count inv * 52) in
    if max_total <? total_cards_seen inv then true else false.

Definition getPenetration (inv : t) : Q :=
  let total_cards_in_shoe := uint32 (deck_count inv * 52) in
  if total_cards_in_shoe =? 0 then 0%Q
  else float_div (float_of_int (total_cards_seen inv))
                 (float_of_int total_cards_in_shoe).

Definition hasReachedPenetrationLimit (limit : Q) (inv : t) : bool :=
  Qle_bool limit (getPenetration inv).

End CardInventory.

Module ShuffleDetector.
Import Machine Types.

(** Modelled from the spec: the constant [MAX_RECENT_CARDS], which the
    implementation file uses and the available header does not declare;
    the specification gives the recent-history capacity as 500. *)
Definition MAX_RECENT_CARDS : Z := 500.

Definition EMPTY_FRAMES_THRESHOLD : Z := 60.

(** Ticks of [std::chrono::steady_clock] per second. *)
Definition ticks_per_second : Z := 1000000000.

Record t : Set := mk {
  m_inventory : CardInventory.t;
  m_lastCardDetection : Z;             (* steady_clock::time_point *)
  m_lastResetTime : Z;
  m_shuffleDetected : bool;
  m_lastIndicator : ShuffleIndicator.t;
  m_previousFrameCardCount : Z;        (* uint32_t *)
  m_previousFrameCards : list N;
  m_recentCards : list N;              (* std::vector<uint8_t> *)
  m_deckCount : Z;                     (* uint32_t *)
  m_penetrationLimit : Q;              (* float *)
  m_inactivityThresholdSec : Z;        (* int *)
  m_minCardsBeforeReset : Z;           (* int *)
  m_consecutiveEmptyFrames : Z         (* uint32_t *)
}.

(** The function-local [static std::set<uint8_t> session_cards] of
    [update] lives as long as the process; a detector is therefore run
    together with it. *)
Definition process : Type := t * gset N.

(** Field updates. *)
Definition set_inventory (v : CardInventory.t) (s : t) : t :=
  mk v (m_lastCardDetection s) (m_lastResetTime s) (m_shuffleDetected s)
     (m_lastIndicator s) (m_previousFrameCardCount s)
     (m_previousFrameCards s) (m_recentCards s) (m_deckCount s)
     (m_penetrationLimit s) (m_inactivityThresholdSec s)
     (m_minCardsBeforeReset s) (m_consecutiveEmptyFrames s).

Definition set_lastCardDetection (v : Z) (s : t) : t :=
  mk (m_inventory s) v (m_lastResetTime s) (m_shuffleDetected s)
     (m_lastIndicator s) (m_previousFrameCardCount s)
     (m_previousFrameCards s) (m_recentCards s) (m_deckCount s)
     (m_penetrationLimit s) (m_inactivityThresholdSec s)
     (m_minCardsBeforeReset s) (m_consecutiveEmptyFrames s).

Definition set_detection (d : bool) (i : ShuffleIndicator.t) (s : t) : t :=
  mk (m_inventory s) (m_lastCardDetection s) (m_lastResetTime s) d i
     (m_previousFrameCardCount s) (m_previousFrameCards s)
     (m_recentCards s) (m_deckCount s) (m_penetrationLimit s)
     (m_inactivityThresholdSec s) (m_minCardsBeforeReset s)
     (m_consecutiveEmptyFrames s).

Definition set_previousFrame (n : Z) (cards : list N) (s : t) : t :=
  mk (m_inventory s) (m_lastCardDetection s) (m_lastResetTime s)
     (m_shuffleDetected s) (m_lastIndicator s) n cards (m_recentCards s)
     (m_deckCount s) (m_penetrationLimit s) (m_inactivityThresholdSec s)
     (m_minCardsBeforeReset s) (m_consecutiveEmptyFrames s).

Definition set_recentCards (v : list N) (s : t) : t :=
  mk (m_inventory s) (m_lastCardDetection s) (m_lastResetTime s)
     (m_shuffleDetected s) (m_lastIndicator s) (m_previousFrameCardCount s)
     (m_previousFrameCards s) v (m_deckCount s) (m_penetrationLimit s)
     (m_inactivityThresholdSec s) (m_minCardsBeforeReset s)
     (m_consecutiveEmptyFrames s).

Definition set_consecutiveEmptyFrames (v : Z) (s : t) : t :=
  mk (m_inventory s) (m_lastCardDetection s) (m_lastResetTime s)
     (m_shuffleDetected s) (m_lastIndicator s) (m_previousFrameCardCount s)
     (m_previousFrameCards s) (m_recentCards s) (m_deckCount s)
     (m_penetrationLimit s) (m_inactivityThresholdSec s)
     (m_minCardsBeforeReset s) v.

(** Setters of the public interface. *)
Definition setPenetrationLimit (limit : Q) (s : t) : t :=
  mk (m_inventory s) (m_lastCardDetection s) (m_lastResetTime s)
     (m_shuffleDetected s) (m_lastIndicator s) (m_previousFrameCardCount s)
     (m_previousFrameCards s) (m_recentCards s) (m_deckCount s) limit
     (m_inactivityThresholdSec s) (m_minCardsBeforeReset s)
     (m_consecutiveEmptyFrames s).

Definition setInactivityThreshold (seconds : Z) (s : t) : t :=
  mk (m_inventory s) (m_lastCardDetection s) (m_lastResetTime s)
     (m_shuffleDetected s) (m_lastIndicator s) (m_previousFrameCardCount s)
     (m_previousFrameCards s) (m_recentCards s) (m_deckCount s)
     (m_penetrationLimit s) seconds (m_minCardsBeforeReset s)
     (m_consecutiveEmptyFrames s).

Definition setMinCardsForReset (min : Z) (s : t) : t :=
  mk (m_inventory s) (m_lastCardDetection s) (m_lastResetTime s)
     (m_shuffleDetected s) (m_lastIndicator s) (m_previousFrameCardCount s)
     (m_previousFrameCards s) (m_recentCards s) (m_deckCount s)
     (m_penetrationLimit s) (m_inactivityThresholdSec s) min
     (m_consecutiveEmptyFrames s).

(** The constructor, run at clock reading [now]. *)
Definition new (now : Z) : t :=
  {| m_inventory := CardInventory.new;
     m_lastCardDetection := now;
     m_lastResetTime := now;
     m_shuffleDetected := false;
     m_lastIndicator := ShuffleIndicator.None;
     m_previousFrameCardCount := 0;
     m_previousFrameCards := [];
     m_recentCards := [];
     m_deckCount := 6;
     m_penetrationLimit := 3 # 4;
     m_inactivityThresholdSec := 30;
     m_minCardsBeforeReset := 26;
     m_consecutiveEmptyFrames := 0 |}.

Definition initialize (deck_count : Z) (penetration_limit : Q) (s : t) : t :=
  let inv := m_inventory s in
  mk (CardInventory.reset
        (CardInventory.mk (CardInventory.cards_seen inv)
                          (CardInventory.total_cards_seen inv) deck_count))
     (m_lastCardDetection s) (m_lastResetTime s) (m_shuffleDetected s)
     (m_lastIndicator s) (m_previousFrameCardCount s)
     (m_previousFrameCards s) (m_recentCards s) deck_count
     penetration_limit (m_inactivityThresholdSec s)
     (m_minCardsBeforeReset s) (m_consecutiveEmptyFrames s).

(** [reset], run at clock reading [now].  The static [session_cards] is
    not in its reach. *)
Definition reset (now : Z) (s : t) : t :=
  {| m_inventory := CardInventory.reset (m_inventory s);
     m_lastCardDetection := m_lastCardDetection s;
     m_lastResetTime := now;
     m_shuffleDetected := false;
     m_lastIndicator := ShuffleIndicator.None;
     m_previousFrameCardCount := 0;
     m_previousFrameCards := [];
     m_recentCards := [];
     m_deckCount := m_deckCount s;
     m_penetrationLimit := m_penetrationLimit s;
     m_inactivityThresholdSec := m_inactivityThresholdSec s;
     m_minCardsBeforeReset := m_minCardsBeforeReset s;
     m_consecutiveEmptyFrames := 0 |}.

Definition forceReset (now : Z) (s : t) : t := reset now s.

Definition triggerShuffleDetection (indicator : ShuffleIndicator.t) (s : t) : t :=
  if m_shuffleDetected s then s
  else set_detection true indicator s.

Definition isShuffleDetected (s : t) : bool := m_shuffleDetected s.
Definition getLastIndicator (s : t) : ShuffleIndicator.t := m_lastIndicator s.

Definition getTimeSinceLastCard (now : Z) (s : t) : Z :=
  Z.quot (now - m_lastCardDetection s) ticks_per_second.

Definition checkCardDepletion (s : t) : t :=
  if CardInventory.isImpossible (m_inventory s)
  then triggerShuffleDetection ShuffleIndicator.CardDepletion s
  else s.

(** In the comparisons of the unsigned [total_cards_seen] with the
    [int] [m_minCardsBeforeReset] the latter is converted to unsigned. *)
Definition checkPenetration (s : t) : t :=
  if CardInventory.total_cards_seen (m_inventory s)
       <? uint32 (m_minCardsBeforeReset s)
  then s
  else if CardInventory.hasReachedPenetrationLimit
            (m_penetrationLimit s) (m_inventory s)
  then triggerShuffleDetection ShuffleIndicator.PenetrationReached s
  else s.

Definition checkInactivity (now : Z) (s : t) : t :=
  if CardInventory.total_cards_seen (m_inventory s)
       <? uint32 (m_minCardsBeforeReset s)
  then s
  else if m_inactivityThresholdSec s <=? getTimeSinceLastCard now s
  then triggerShuffleDetection ShuffleIndicator.LongPause s
  else s.

Definition checkCardDisappearance (s : t) : t :=
  if EMPTY_FRAMES_THRESHOLD <=? m_consecutiveEmptyFrames s then
    let s' :=
      if uint32 (m_minCardsBeforeReset s)
           <=? CardInventory.total_cards_seen (m_inventory s)
      then triggerShuffleDetection ShuffleIndicator.AllCardsGone s
      else s in
    set_consecutiveEmptyFrames 0 s'
  else s.

(** The search runs over the indices [0 .. size - 2] of the history as
    it is when the function is called. *)
Definition checkDuplicateCard (card_id : N) (s : t) : t :=
  if (length (m_recentCards s) <? 10)%nat then s
  else if existsb (N.eqb card_id) (removelast (m_recentCards s))
  then triggerShuffleDetection ShuffleIndicator.DuplicateCard s
  else s.

Definition checkImpossibleSequence (s : t) : t := s.

(** One iteration of the loop over the frame's detections. *)
Definition scan_detection (p : process) (det : Detection) : process :=
  let '(s, session_cards) := p in
  let s := checkDuplicateCard (card_id det) s in
  let '(s, session_cards) :=
    if bool_decide (card_id det ∈ session_cards) then (s, session_cards)
    else
      (set_inventory
         (fst (CardInventory.addCard (card_id det) (m_inventory s))) s,
       {[ card_id det ]} ∪ session_cards) in
  let recent := m_recentCards s ++ [card_id det] in
  let recent :=
    if MAX_RECENT_CARDS <? Z.of_nat (length recent) then tail recent
    else recent in
  (set_recentCards recent s, session_cards).

(** The part of [update] that precedes the loop. *)
Definition note_frame (now : Z) (detections : list Detection) (s : t) : t :=
  match detections with
  | [] =>
      set_consecutiveEmptyFrames (uint32 (m_consecutiveEmptyFrames s + 1)) s
  | _ :: _ =>
      set_consecutiveEmptyFrames 0 (set_lastCardDetection now s)
  end.

(** The detector state and the static set after the loop of [update]. *)
Definition scan_frame (now : Z) (detections : list Detection)
    (p : process) : process :=
  fold_left scan_detection detections
    (note_frame now detections (fst p), snd p).

(** [update], with the clock readings taken on entry ([now]) and by
    [checkInactivity] ([now']). *)
Definition update (now now' : Z) (detections : list Detection)
    (p : process) : process :=
  let '(s, session_cards) := scan_frame now detections p in
  let s := checkCardDepletion s in
  let s := checkPenetration s in
  let s := checkInactivity now' s in
  let s := checkCardDisappearance s in
  let s := checkImpossibleSequence s in
  (set_previousFrame (uint32 (Z.of_nat (length detections)))
                     (map card_id detections) s,
   session_cards).

(** A frame as [update] receives it. *)
Record frame : Set := mkFrame {
  detections : list Detection;
  clock_entry : Z;
  clock_check : Z
}.

Definition step (p : process) (f : frame) : process :=
  update (clock_entry f) (clock_check f) (detections f) p.

Definition run (frames : list frame) (p : process) : process :=
  fold_left step frames p.

End ShuffleDetector.

(** ** core/game_state_tracker *)
Module GameStateTracker.
Import Machine Types.

(** [struct PlayerHand] *)
Record PlayerHand : Set := mkHand {
  cards : list Card;
  total : Z;                   (* uint32_t *)
  is_soft : bool;
  is_pair : bool;
  can_double : bool;
  can_split : bool;
  is_blackjack : bool;
  is_busted : bool;
  is_completed : bool;
  hand_index : Z               (* int *)
}.

(** [PlayerHand{}] *)
Definition emptyHand : PlayerHand :=
  {| cards := []; total := 0; is_soft := false; is_pair := false;
     can_double := true; can_split := false; is_blackjack := false;
     is_busted := false; is_completed := false; hand_index := 0 |}.

Inductive GamePhase : Set :=
  | WaitingForCards
  | PlayerTurn
  | DealerTurn
  | HandComplete
  | NewShoe.

Definition phase_eqb (a b : GamePhase) : bool :=
  match a, b with
  | WaitingForCards, WaitingForCards | PlayerTurn, PlayerTurn
  | DealerTurn, DealerTurn | HandComplete, HandComplete
  | NewShoe, NewShoe => true
  | _, _ => false
  end.

Definition STABILITY_FRAMES : Z := 3.

Record t : Set := mk {
  m_phase : GamePhase;
  m_playerHands : list PlayerHand;
  m_currentHandIndex : Z;                  (* int *)
  m_dealerUpcard : option Card;
  m_detectedCardIds : list N;
  m_lastUpdate : Z;                        (* steady_clock::time_point *)
  m_lastDecision : Z;
  m_cardStability : list (N * Z);          (* vector<pair<uint8_t, int>> *)
  m_decisionMade : bool
}.

Definition set_phase (ph : GamePhase) (s : t) : t :=
  mk ph (m_playerHands s) (m_currentHandIndex s) (m_dealerUpcard s)
     (m_detectedCardIds s) (m_lastUpdate s) (m_lastDecision s)
     (m_cardStability s) (m_decisionMade s).

Definition startNewHand (s : t) : t :=
  {| m_phase := WaitingForCards;
     m_playerHands := [emptyHand];
     m_currentHandIndex := 0;
     m_dealerUpcard := None;
     m_detectedCardIds := [];
     m_lastUpdate := m_lastUpdate s;
     m_lastDecision := m_lastDecision s;
     m_cardStability := [];
     m_decisionMade := false |}.

(** The constructor, run at clock reading [now]. *)
Definition new (now : Z) : t :=
  startNewHand
    {| m_phase := WaitingForCards; m_playerHands := [];
       m_currentHandIndex := 0; m_dealerUpcard := None;
       m_detectedCardIds := []; m_lastUpdate := now; m_lastDecision := now;
       m_cardStability := []; m_decisionMade := false |}.

(** The first loop of [calculateHandTotal]: the [int] sum of the card
    values and the number of aces.  The ace counter only ever counts
    up from zero and down to zero and is kept as a natural number. *)
Definition sum_cards (cs : list Card) : Z * nat :=
  fold_left
    (fun acc card =>
       let value := getValue card in
       (int32 (fst acc + value),
        if rank_eqb (rank card) Ace then S (snd acc) else snd acc))
    cs (0, O).

(** [while (total > 21 && aces > 0) { total -= 10; aces--; }] *)
Fixpoint soften (total : Z) (aces : nat) : Z * nat :=
  match aces with
  | O => (total, O)
  | S aces' =>
      if 21 <? total then soften (int32 (total - 10)) aces'
      else (total, aces)
  end.

Definition calculateHandTotal (hand : PlayerHand) : PlayerHand :=
  match cards hand with
  | [] => hand
  | _ :: _ =>
      let '(total0, aces0) := sum_cards (cards hand) in
      let '(total1, aces1) := soften total0 aces0 in
      {| cards := cards hand;
         total := uint32 total1;
         is_soft := match aces1 with O => false | S _ => true end;
         is_pair := is_pair hand;
         can_double := (length (cards hand) =? 2)%nat;
         can_split := can_split hand;
         is_blackjack := (length (cards hand) =? 2)%nat && (total1 =? 21);
         is_busted := 21 <? total1;
         is_completed := is_completed hand;
         hand_index := hand_index hand |}
  end.

Definition set_pair (b : bool) (hand : PlayerHand) : PlayerHand :=
  mkHand (cards hand) (total hand) (is_soft hand) b (can_double hand) b
         (is_blackjack hand) (is_busted hand) (is_completed hand)
         (hand_index hand).

(** [detectPairs] works on [m_playerHands[m_currentHandIndex]]. *)
Definition detectPairs (s : t) : t :=
  let upd hand :=
    match cards hand with
    | [c0; c1] => set_pair (rank_eqb (rank c0) (rank c1)) hand
    | _ => set_pair false hand
    end in
  mk (m_phase s) (alter upd (Z.to_nat (m_currentHandIndex s)) (m_playerHands s))
     (m_currentHandIndex s) (m_dealerUpcard s) (m_detectedCardIds s)
     (m_lastUpdate s) (m_lastDecision s) (m_cardStability s)
     (m_decisionMade s).

Definition analyzeHands (s : t) : t :=
  detectPairs
    (mk (m_phase s) (map calculateHandTotal (m_playerHands s))
        (m_currentHandIndex s) (m_dealerUpcard s) (m_detectedCardIds s)
        (m_lastUpdate s) (m_lastDecision s) (m_cardStability s)
        (m_decisionMade s)).

(** The stability counters after a frame showing [current]. *)
Definition bump_stability (current : list N) (st : list (N * Z)) : list (N * Z) :=
  map (fun e : N * Z =>
         if existsb (N.eqb (fst e)) current
         then (fst e, int32 (snd e + 1)) else (fst e, 0)) st.

Definition track_new (current : list N) (st : list (N * Z)) : list (N * Z) :=
  fold_left
    (fun acc card_id =>
       if existsb (fun e : N * Z => N.eqb (fst e) card_id) acc then acc
       else acc ++ [(card_id, 1)])
    current st.

Definition stable_cards (st : list (N * Z)) : list N :=
  map fst (List.filter (fun e : N * Z => STABILITY_FRAMES <=? snd e) st).

(** [updateDetectedCards], run at clock reading [now]. *)
Definition updateDetectedCards (now : Z) (detections : list Detection)
    (s : t) : t :=
  let currentFrameCards := map card_id detections in
  let stability :=
    track_new currentFrameCards
      (bump_stability currentFrameCards (m_cardStability s)) in
  let stableCards := stable_cards stability in
  let s1 :=
    mk (m_phase s) (m_playerHands s) (m_currentHandIndex s)
       (m_dealerUpcard s) (m_detectedCardIds s) now (m_lastDecision s)
       stability (m_decisionMade s) in
  match m_phase s, stableCards with
  | WaitingForCards, c0 :: c1 :: c2 :: _ =>
      let deal hand :=
        mkHand [card_of_id c0; card_of_id c1] (total hand) (is_soft hand)
               (is_pair hand) (can_double hand) (can_split hand)
               (is_blackjack hand) (is_busted hand) (is_completed hand)
               (hand_index hand) in
      let s2 :=
        analyzeHands
          (mk (m_phase s1) (alter deal 0%nat (m_playerHands s1))
              (m_currentHandIndex s1) (Some (card_of_id c2))
              (m_detectedCardIds s1) (m_lastUpdate s1) (m_lastDecision s1)
              (m_cardStability s1) (m_decisionMade s1)) in
      mk PlayerTurn (m_playerHands s2) (m_currentHandIndex s2)
         (m_dealerUpcard s2) (m_detectedCardIds s2) (m_lastUpdate s2)
         (m_lastDecision s2) (m_cardStability s2) false
  | _, _ => s1
  end.

Definition getCurrentPhase (s : t) : GamePhase := m_phase s.

Definition getCurrentHand (s : t) : option PlayerHand :=
  if (0 <=? m_currentHandIndex s)
     && (m_currentHandIndex s <? Z.of_nat (length (m_playerHands s)))
  then m_playerHands s !! Z.to_nat (m_currentHandIndex s)
  else None.

Definition getDealerUpcard (s : t) : option Card := m_dealerUpcard s.

Definition hasMoreHands (s : t) : bool :=
  m_currentHandIndex s <? Z.of_nat (length (m_playerHands s)) - 1.

Definition areInitialCardsDetected (s : t) : bool :=
  match m_playerHands s with
  | [] => false
  | hand :: _ =>
      (2 <=? length (cards hand))%nat
      && match m_dealerUpcard s with Some _ => true | None => false end
  end.

(** Durations are compared in ticks; 1000 ms are [10^9] of them. *)
Definition shouldProcessDecision (now : Z) (s : t) : bool :=
  if negb (phase_eqb (m_phase s) PlayerTurn) then false
  else if negb (areInitialCardsDetected s) then false
  else if m_decisionMade s then false
  else if now - m_lastDecision s <? 1000 * 1000000 then false
  else true.

Definition set_completed (hand : PlayerHand) : PlayerHand :=
  mkHand (cards hand) (total hand) (is_soft hand) (is_pair hand)
         (can_double hand) (can_split hand) (is_blackjack hand)
         (is_busted hand) true (hand_index hand).

Definition completeCurrentHand (now : Z) (s : t) : t :=
  mk (m_phase s)
     (if m_currentHandIndex s <? Z.of_nat (length (m_playerHands s))
      then alter set_completed (Z.to_nat (m_currentHandIndex s))
                 (m_playerHands s)
      else m_playerHands s)
     (m_currentHandIndex s) (m_dealerUpcard s) (m_detectedCardIds s)
     (m_lastUpdate s) now (m_cardStability s) true.

Definition advanceToNextHand (s : t) : t :=
  if hasMoreHands s then
    mk (m_phase s) (m_playerHands s) (int32 (m_currentHandIndex s + 1))
       (m_dealerUpcard s) (m_detectedCardIds s) (m_lastUpdate s)
       (m_lastDecision s) (m_cardStability s) false
  else set_phase HandComplete s.

Definition markHandComplete (s : t) : t := set_phase HandComplete s.

Definition resetForNewShoe (s : t) : t :=
  let s := startNewHand s in
  set_phase NewShoe s.

Definition manualCountReset (s : t) : t := resetForNewShoe s.

End GameStateTracker.

(** ** intelligence/strategy/basic_strategy *)
Module BasicStrategy.
Import Types.

Inductive Action : Set := Hit | Stand | Double | Split | Surrender.

Definition action_eqb (a b : Action) : bool :=
  match a, b with
  | Hit, Hit | Stand, Stand | Double, Double | Split, Split
  | Surrender, Surrender => true
  | _, _ => false
  end.

(** A table [Action tbl[rows][13]], stored row by row. *)
Definition table : Set := list (list Action).

Definition table_get (tbl : table) (i j : Z) : Action :=
  match tbl !! Z.to_nat i with
  | Some row => match row !! Z.to_nat j with Some a => a | None => Hit end
  | None => Hit
  end.

Definition table_set (i j : nat) (a : Action) (tbl : table) : table :=
  alter (fun row => <[ j := a ]> row) i tbl.

(** [for (x = lo; x <= hi; x++) body] over a table. *)
Definition for_range (lo hi : nat) (body : nat -> table -> table)
    (tbl : table) : table :=
  fold_left (fun acc x => body x acc) (seq lo (S hi - lo)) tbl.

Definition all_hit (rows : nat) : table := replicate rows (replicate 13 Hit).

Definition build_hardTotals : table :=
  let tbl := all_hit 22 in
  (* Hard 17-21: always Stand *)
  let tbl :=
    for_range 17 21 (fun total =>
      for_range 2 11 (fun dealer => table_set total dealer Stand)) tbl in
  (* Hard 13-16: Stand vs 2-6, Hit vs 7-A *)
  let tbl :=
    for_range 13 16 (fun total tbl =>
      let tbl := for_range 2 6 (fun dealer => table_set total dealer Stand) tbl in
      for_range 7 11 (fun dealer => table_set total dealer Hit) tbl) tbl in
  (* Hard 12: Stand vs 4-6 *)
  let tbl := table_set 12 4 Stand tbl in
  let tbl := table_set 12 5 Stand tbl in
  let tbl := table_set 12 6 Stand tbl in
  (* Hard 11: Double vs all *)
  let tbl := for_range 2 11 (fun dealer => table_set 11 dealer Double) tbl in
  (* Hard 10: Double vs 2-9 *)
  let tbl := for_range 2 9 (fun dealer => table_set 10 dealer Double) tbl in
  (* Hard 9: Double vs 3-6 *)
  for_range 3 6 (fun dealer => table_set 9 dealer Double) tbl.

Definition build_softTotals : table :=
  let tbl := all_hit 22 in
  (* Soft 19-20: always Stand *)
  let tbl :=
    for_range 2 11 (fun dealer tbl =>
      table_set 20 dealer Stand (table_set 19 dealer Stand tbl)) tbl in
  (* Soft 18: Double vs 2-6, Stand vs 7-8, Hit vs 9-A *)
  let tbl := for_range 2 6 (fun dealer => table_set 18 dealer Double) tbl in
  let tbl := table_set 18 7 Stand tbl in
  let tbl := table_set 18 8 Stand tbl in
  let tbl := table_set 18 9 Hit tbl in
  let tbl := table_set 18 10 Hit tbl in
  let tbl := table_set 18 11 Hit tbl in
  (* Soft 17: Double vs 3-6 *)
  let tbl := for_range 3 6 (fun dealer => table_set 17 dealer Double) tbl in
  (* Soft 15-16: Double vs 4-6 *)
  let tbl :=
    for_range 4 6 (fun dealer tbl =>
      table_set 16 dealer Double (table_set 15 dealer Double tbl)) tbl in
  (* Soft 13-14: Double vs 5-6 *)
  let tbl := table_set 13 5 Double tbl in
  let tbl := table_set 13 6 Double tbl in
  let tbl := table_set 14 5 Double tbl in
  table_set 14 6 Double tbl.

Definition build_pairSplitting : table :=
  let tbl := all_hit 13 in
  (* Always split A,A and 8,8 *)
  let tbl :=
    for_range 2 11 (fun dealer tbl =>
      table_set 8 dealer Split (table_set 11 dealer Split tbl)) tbl in
  (* 9,9: Split vs 2-9 except 7, Stand vs 7, 10, A *)
  let tbl :=
    for_range 2 9 (fun dealer tbl =>
      if (dealer =? 7)%nat then tbl else table_set 9 dealer Split tbl) tbl in
  let tbl := table_set 9 7 Stand tbl in
  let tbl := table_set 9 10 Stand tbl in
  let tbl := table_set 9 11 Stand tbl in
  (* 7,7: Split vs 2-7 *)
  let tbl := for_range 2 7 (fun dealer => table_set 7 dealer Split) tbl in
  (* 6,6: Split vs 2-6 *)
  let tbl := for_range 2 6 (fun dealer => table_set 6 dealer Split) tbl in
  (* 3,3 and 2,2: Split vs 2-7 *)
  for_range 2 7 (fun dealer tbl =>
    table_set 2 dealer Split (table_set 3 dealer Split tbl)) tbl.

Record t : Set := mk {
  m_hardTotals : table;        (* Action[22][13] *)
  m_softTotals : table;        (* Action[22][13] *)
  m_pairSplitting : table;     (* Action[13][13] *)
  m_deviationsEnabled : bool;
  m_rules : string
}.

(** [buildStrategyTables].  Its initialisation loop

      for (int i = 0; i < 22; i++) for (int j = 0; j < 13; j++) {
        m_hardTotals[i][j] = m_softTotals[i][j] = m_pairSplitting[i][j]
          = Action::Hit; }

    runs over rows 0 to 21 of all three tables, also of
    [m_pairSplitting], which is declared [Action[13][13]].  The stores
    to its rows 13 to 21 go to the storage that follows the table, and
    the members declared after it are [bool m_deviationsEnabled{true}]
    and [std::string m_rules].  [Action] is an [enum class] without an
    underlying type, four bytes wide, and [Action::Hit] is 0: the
    first of these stores, [m_pairSplitting[13][0]], puts zeros on
    [m_deviationsEnabled] and clears the flag; the stores that follow
    put zeros on the representation of [m_rules], which then has
    length 0 and reads as the empty string.  The model stores what the
    object holds when the function returns.  The remaining stores go
    past the end of the object and are not represented. *)
Definition buildStrategyTables (s : t) : t :=
  mk build_hardTotals build_softTotals build_pairSplitting
     false EmptyString.

(** The constructor: the default member initialiser sets
    [m_deviationsEnabled], then the body calls [buildStrategyTables]. *)
Definition new : t :=
  buildStrategyTables (mk [] [] [] true EmptyString).

(** [initialize]: [m_rules = rules], then [buildStrategyTables];
    [loadIllustrious18] and [loadFab4] only log. *)
Definition initialize (rules : string) (s : t) : t :=
  buildStrategyTables
    (mk (m_hardTotals s) (m_softTotals s) (m_pairSplitting s)
        (m_deviationsEnabled s) rules).

(** [int dealerValue = static_cast<int>(dealerUpcard);
     if (dealerValue == 1) dealerValue = 11;] *)
Definition dealerValue (dealerUpcard : CardRank) : Z :=
  if rank_int dealerUpcard =? 1 then 11 else rank_int dealerUpcard.

Definition getAction (s : t) (playerTotal : Z) (dealerUpcard : CardRank)
    (isSoft canDouble canSplit : bool) : Action :=
  let dv := dealerValue dealerUpcard in
  if (playerTotal <? 4) || (21 <? playerTotal) then Stand
  else if (dv <? 2) || (11 <? dv) then Stand
  else
    let split_now :=
      if canSplit
      then action_eqb (table_get (m_pairSplitting s) (playerTotal / 2) dv) Split
      else false in
    if split_now then Split
    else
      let action :=
        if isSoft then table_get (m_softTotals s) playerTotal dv
        else table_get (m_hardTotals s) playerTotal dv in
      if action_eqb action Double && negb canDouble then Hit
      else action.

(** [m_rules.find(tag) != std::string::npos] *)
Definition rules_has (tag : string) (s : t) : bool :=
  match String.index 0 tag (m_rules s) with
  | Some _ => true
  | None => false
  end.

(** [if (trueCount >= k) return yes; return Hit;] *)
Definition at_least (trueCount k : Q) (yes : Action) : Action :=
  if Qle_bool k trueCount then yes else Hit.

Definition getDeviationAction (s : t) (playerTotal : Z)
    (dealerUpcard : CardRank) (trueCount : Q) : Action :=
  if negb (m_deviationsEnabled s)
  then getAction s playerTotal dealerUpcard false true false
  else
    let dv := dealerValue dealerUpcard in
    let vs (total dealer : Z) := (playerTotal =? total) && (dv =? dealer) in
    (* The Illustrious 18 *)
    if vs 16 10 then at_least trueCount 0 Stand
    else if vs 15 10 then at_least trueCount 0 Surrender
    else if vs 16 9 then at_least trueCount 5 Stand
    else if vs 13 2 then at_least trueCount (-1) Stand
    else if vs 13 3 then at_least trueCount (-2) Stand
    else if vs 11 11 then at_least trueCount 1 Double
    else if vs 10 10 then at_least trueCount 4 Double
    else if vs 10 11 then at_least trueCount 4 Double
    else if vs 9 2 then at_least trueCount 1 Double
    else if vs 9 7 then at_least trueCount 3 Double
    else if vs 12 3 then at_least trueCount 2 Stand
    else if vs 12 2 then at_least trueCount 3 Stand
    else if vs 15 11 then
      if rules_has "h17" s then at_least trueCount 1 Stand else Hit
    else if vs 16 11 then at_least trueCount 2 Stand
    else if vs 12 4 then at_least trueCount 0 Stand
    (* The Fab 4 *)
    else if vs 14 10 then at_least trueCount 3 Surrender
    else if vs 15 9 then at_least trueCount 2 Surrender
    else if vs 15 11 then
      if rules_has "s17" s then at_least trueCount 1 Surrender
      else if rules_has "h17" s then at_least trueCount (-1) Surrender
      else Hit
    else getAction s playerTotal dealerUpcard false true false.

End BasicStrategy.

(** ** intelligence/strategy/betting_strategy *)
Module BettingStrategy.
Import Machine.

Record t : Set := mk {
  m_minBet : Q;                (* double *)
  m_maxBet : Q;                (* double *)
  m_kellyFraction : Q;         (* float *)
  m_bankroll : Q;              (* double *)
  m_betSpread : list Z         (* std::array<uint32_t, 5> *)
}.

(** Default member initialisers. *)
Definition new : t :=
  {| m_minBet := 10; m_maxBet := 500; m_kellyFraction := 1 # 4;
     m_bankroll := 10000; m_betSpread := [1; 2; 4; 8; 12] |}.

Definition configure (minBet maxBet kellyFraction : Q) (s : t) : t :=
  mk minBet maxBet kellyFraction (m_bankroll s) (m_betSpread s).

Definition setBankroll (bankroll : Q) (s : t) : t :=
  mk (m_minBet s) (m_maxBet s) (m_kellyFraction s) bankroll (m_betSpread s).

(** [m_betSpread[i]] *)
Definition spread (s : t) (i : nat) : Z :=
  match m_betSpread s !! i with Some u => u | None => 0 end.

(** [a < b] on floating-point operands. *)
Definition Qlt_bool (a b : Q) : bool := negb (Qle_bool b a).

(** [std::min(a, b)] is [(b < a) ? b : a]. *)
Definition std_min (a b : Q) : Q := if Qlt_bool b a then b else a.

Definition BLACKJACK_VARIANCE : Q := float32 (13225 # 10000).

(** [std::clamp(v, lo, hi)] is [(v < lo) ? lo : (hi < v) ? hi : v],
    here for a [v] that may not be finite: both comparisons are false
    for a NaN, which is returned. *)
Definition fp_clamp (v : fp) (lo hi : Q) : fp :=
  if fp_lt v (Finite lo) then Finite lo
  else if fp_lt (Finite hi) v then Finite hi
  else v.

(** [calculateKellyBet]: two [float] operations, then the product with
    the bankroll in [double]. *)
Definition calculateKellyBet (s : t) (advantage : fp) (bankroll : Q) : fp :=
  let fullKellyPercent := fp_div_pos fp32 advantage BLACKJACK_VARIANCE in
  let fractionalKellyPercent :=
    fp_mul fp32 fullKellyPercent (Finite (m_kellyFraction s)) in
  fp_mul fp64 (Finite bankroll) fractionalKellyPercent.

(** [calculateBet] for a finite true count and a finite bankroll. *)
Definition calculateBet (s : t) (trueCount bankroll : Q) : fp :=
  if Qle_bool trueCount 0 then Finite (m_minBet s)
  else
    let playerEdge :=
      fp_mul fp32 (Finite (float32 (5 # 1000))) (Finite trueCount) in
    let optimalBet := calculateKellyBet s playerEdge bankroll in
    fp_clamp optimalBet (m_minBet s) (m_maxBet s).

(** The spread entry [getCamouflageBet] selects. *)
Definition camouflage_units (s : t) (trueCount : Q) : Z :=
  if Qle_bool trueCount 0 then spread s 0
  else if Qle_bool 1 trueCount && Qlt_bool trueCount 2 then spread s 1
  else if Qle_bool 2 trueCount && Qlt_bool trueCount 3 then spread s 2
  else if Qle_bool 3 trueCount && Qlt_bool trueCount 4 then spread s 3
  else spread s 4.

Definition getCamouflageBet (s : t) (trueCount : Q) : Q :=
  let units := camouflage_units s trueCount in
  let betAmount := double_mul (m_minBet s) (inject_Z units) in
  std_min betAmount (m_maxBet s).

End BettingStrategy.

(** ** core/realtime_advisor: the counting side *)
Module RealtimeAdvisor.
Import Types.

(** The members [updateCardCount] and [resetCount] work on. *)
Record t : Set := mk {
  m_cardCounter : CardCounter.t;
  m_gameState : GameStateTracker.t
}.

(** The function-local [static std::set<uint8_t> countedCards] of
    [updateCardCount] lives as long as the process. *)
Definition process : Type := t * gset N.

(** What [initialize] does to the two members, at clock reading [now]. *)
Definition initialize (deck_count : Z) (now : Z) : t :=
  {| m_cardCounter := CardCounter.initialize deck_count CardCounter.new;
     m_gameState := GameStateTracker.new now |}.

(** One iteration of the loop of [updateCardCount]. *)
Definition count_detection (p : process) (det : Detection) : process :=
  let '(a, countedCards) := p in
  if bool_decide (card_id det ∈ countedCards) then (a, countedCards)
  else
    (mk (CardCounter.addCard (card_of_id (card_id det)) (m_cardCounter a))
        (m_gameState a),
     {[ card_id det ]} ∪ countedCards).

Definition updateCardCount (detections : list Detection) (p : process)
    : process :=
  fold_left count_detection detections p.

(** [resetCount]; the audio alert has no effect on the state. *)
Definition resetCount (p : process) : process :=
  let '(a, countedCards) := p in
  (mk (CardCounter.reset (m_cardCounter a))
      (GameStateTracker.resetForNewShoe (m_gameState a)),
   countedCards).

Definition getRunningCount (p : process) : Z :=
  CardCounter.getRunningCount (m_cardCounter (fst p)).

End RealtimeAdvisor.

(** ** The vocabulary of the properties

    Definitions that state the properties below; none of them is part
    of the program. *)
Module Props.
Import Machine Types.

(** The Hi-Lo table in words: ranks 2-6 count +1, ranks 7-9 count 0,
    tens, faces and aces count -1. *)
Definition hilo_by_rank (r : CardRank) : Z :=
  match r with
  | Two | Three | Four | Five | Six => 1
  | Seven | Eight | Nine => 0
  | Ten | Jack | Queen | King | Ace => -1
  end.

Definition sum_hilo (cards : list Card) : Z :=
  foldr Z.add 0 (map (fun c => hilo_by_rank (rank c)) cards).

(** The value of a hand with every ace counted as 11, and its aces. *)
Definition raw_total (cards : list Card) : Z :=
  foldr Z.add 0 (map getValue cards).

Definition ace_count (cards : list Card) : nat :=
  length (List.filter (fun c => rank_eqb (rank c) Ace) cards).

(** The hand [hand] holding the cards [cs], its other fields as they
    were. *)
Definition with_cards (cs : list Card) (hand : GameStateTracker.PlayerHand)
    : GameStateTracker.PlayerHand :=
  GameStateTracker.mkHand cs
    (GameStateTracker.total hand) (GameStateTracker.is_soft hand)
    (GameStateTracker.is_pair hand) (GameStateTracker.can_double hand)
    (GameStateTracker.can_split hand) (GameStateTracker.is_blackjack hand)
    (GameStateTracker.is_busted hand) (GameStateTracker.is_completed hand)
    (GameStateTracker.hand_index hand).

(** The state of a hand agrees with its cards: the total is the raw
    total less 10 for each of [k] aces, demoted one at a time while the
    total exceeds 21 and an ace still counts as 11; the hand is soft iff
    an ace still counts as 11, busted iff the total exceeds 21, and a
    blackjack iff it has two cards and total 21. *)
Definition hand_consistent (h : GameStateTracker.PlayerHand) : Prop :=
  let raw := raw_total (GameStateTracker.cards h) in
  let aces := ace_count (GameStateTracker.cards h) in
  exists k : nat,
    (k <= aces)%nat
    /\ GameStateTracker.total h = raw - 10 * Z.of_nat k
    /\ (forall j : nat, (j < k)%nat -> 21 < raw - 10 * Z.of_nat j)
    /\ ((k < aces)%nat -> GameStateTracker.total h <= 21)
    /\ (GameStateTracker.is_soft h = true <-> (k < aces)%nat)
    /\ (GameStateTracker.is_busted h = true
        <-> 21 < GameStateTracker.total h)
    /\ (GameStateTracker.is_blackjack h = true
        <-> length (GameStateTracker.cards h) = 2%nat
           /\ GameStateTracker.total h = 21).

(** A hand as the tracker keeps it: consistent, with two cards at most. *)
Definition hand_settled (h : GameStateTracker.PlayerHand) : Prop :=
  hand_consistent h /\ (length (GameStateTracker.cards h) <= 2)%nat.

(** A call of the tracker's interface, with the clock reading it takes. *)
Inductive tracker_call : Set :=
  | UpdateDetectedCards (now : Z) (detections : list Detection)
  | StartNewHand
  | CompleteCurrentHand (now : Z)
  | AdvanceToNextHand
  | MarkHandComplete
  | ResetForNewShoe
  | ManualCountReset.

Definition do_tracker_call (s : GameStateTracker.t) (c : tracker_call)
    : GameStateTracker.t :=
  match c with
  | UpdateDetectedCards now detections =>
      GameStateTracker.updateDetectedCards now detections s
  | StartNewHand => GameStateTracker.startNewHand s
  | CompleteCurrentHand now => GameStateTracker.completeCurrentHand now s
  | AdvanceToNextHand => GameStateTracker.advanceToNextHand s
  | MarkHandComplete => GameStateTracker.markHandComplete s
  | ResetForNewShoe => GameStateTracker.resetForNewShoe s
  | ManualCountReset => GameStateTracker.manualCountReset s
  end.

(** C4 as the specification words it: after [resetForNewShoe] no hand
    holds a card, the dealer upcard and the stability counters are
    cleared, and the phase is [WaitingForCards]. *)
Definition C4_as_stated : Prop :=
  forall s : GameStateTracker.t,
    let s' := GameStateTracker.resetForNewShoe s in
    Forall (fun hand => GameStateTracker.cards hand = [])
           (GameStateTracker.m_playerHands s')
    /\ GameStateTracker.m_dealerUpcard s' = None
    /\ GameStateTracker.m_cardStability s' = []
    /\ GameStateTracker.getCurrentPhase s'
       = GameStateTracker.WaitingForCards.

(** The first indicator of a priority list whose condition holds. *)
Fixpoint first_holding (l : list (ShuffleIndicator.t * bool))
    : option ShuffleIndicator.t :=
  match l with
  | [] => None
  | (i, true) :: _ => Some i
  | (_, false) :: rest => first_holding rest
  end.

Definition holding (l : list (ShuffleIndicator.t * bool)) : nat :=
  length (List.filter snd l).

Section Conditions.
Import ShuffleDetector.

(** [total_cards_seen >= m_minCardsBeforeReset]. *)
Definition enough_cards (s : ShuffleDetector.t) : bool :=
  negb (CardInventory.total_cards_seen (m_inventory s)
          <? uint32 (m_minCardsBeforeReset s)).

Definition depletion_holds (s : ShuffleDetector.t) : bool :=
  CardInventory.isImpossible (m_inventory s).

Definition penetration_holds (s : ShuffleDetector.t) : bool :=
  enough_cards s
  && CardInventory.hasReachedPenetrationLimit
       (m_penetrationLimit s) (m_inventory s).

Definition long_pause_holds (now : Z) (s : ShuffleDetector.t) : bool :=
  enough_cards s
  && (m_inactivityThresholdSec s <=? getTimeSinceLastCard now s).

Definition all_cards_gone_holds (s : ShuffleDetector.t) : bool :=
  (EMPTY_FRAMES_THRESHOLD <=? m_consecutiveEmptyFrames s)
  && enough_cards s.

(** The history after one more identity has been pushed. *)
Definition push_recent (recent : list N) (id : N) : list N :=
  let recent := recent ++ [id] in
  if MAX_RECENT_CARDS <? Z.of_nat (length recent) then tail recent
  else recent.

(** What [checkDuplicateCard] tests for the identity [id] against the
    history [recent]: the history holds ten entries or more, and [id]
    is among its entries at the indices [0 .. size - 2]. *)
Definition duplicate_fires (recent : list N) (id : N) : bool :=
  (10 <=? length recent)%nat && existsb (N.eqb id) (removelast recent).

(** The check fires for some detection of the frame, against the
    history as it is when the loop reaches that detection. *)
Fixpoint frame_fires (recent : list N) (dets : list Detection) : bool :=
  match dets with
  | [] => false
  | det :: rest =>
      duplicate_fires recent (card_id det)
      || frame_fires (push_recent recent (card_id det)) rest
  end.

(** The DuplicateCard condition in the words of the specification: the
    identity already exists in the recent-history buffer, and the
    buffer holds ten entries or more.  [recent] is the buffer before
    the identity is pushed, so that the just-pushed entry itself is
    not searched and every earlier entry is. *)
Definition duplicate_holds (recent : list N) (id : N) : bool :=
  (10 <=? length recent)%nat && existsb (N.eqb id) recent.

(** Some detection of the frame meets [duplicate_holds] against the
    buffer as it is when that detection is confirmed. *)
Fixpoint frame_duplicate (recent : list N) (dets : list Detection) : bool :=
  match dets with
  | [] => false
  | det :: rest =>
      duplicate_holds recent (card_id det)
      || frame_duplicate (push_recent recent (card_id det)) rest
  end.

(** The DuplicateCard condition holds for [id], and [id] is not the
    entry the buffer received last. *)
Definition duplicate_of_earlier (recent : list N) (id : N) : bool :=
  duplicate_holds recent id
  && match last recent with
     | Some x => negb (N.eqb x id)
     | None => true
     end.

Fixpoint frame_duplicate_of_earlier (recent : list N)
    (dets : list Detection) : bool :=
  match dets with
  | [] => false
  | det :: rest =>
      duplicate_of_earlier recent (card_id det)
      || frame_duplicate_of_earlier (push_recent recent (card_id det)) rest
  end.

(** The conditions of CardDepletion, PenetrationReached, LongPause and
    AllCardsGone on the state [scanned] that the loop over the frame
    leaves, each paired with its indicator, in the listed order. *)
Definition state_conditions (now' : Z) (scanned : ShuffleDetector.t)
    : list (ShuffleIndicator.t * bool) :=
  [ (ShuffleIndicator.CardDepletion, depletion_holds scanned);
    (ShuffleIndicator.PenetrationReached, penetration_holds scanned);
    (ShuffleIndicator.LongPause, long_pause_holds now' scanned);
    (ShuffleIndicator.AllCardsGone, all_cards_gone_holds scanned) ].

(** The five conditions of one call of [update] in the order the
    specification lists them, the DuplicateCard condition as the
    specification words it. *)
Definition conditions (now now' : Z) (dets : list Detection)
    (p : ShuffleDetector.process) : list (ShuffleIndicator.t * bool) :=
  let scanned := fst (scan_frame now dets p) in
  [ (ShuffleIndicator.CardDepletion, depletion_holds scanned);
    (ShuffleIndicator.PenetrationReached, penetration_holds scanned);
    (ShuffleIndicator.LongPause, long_pause_holds now' scanned);
    (ShuffleIndicator.AllCardsGone, all_cards_gone_holds scanned);
    (ShuffleIndicator.DuplicateCard,
     frame_duplicate (m_recentCards (fst p)) dets) ].

(** What the five checks of one call of [update] test, in the order in
    which [update] reaches them: [checkDuplicateCard] inside the loop,
    then the four checks on the state the loop leaves. *)
Definition checks (now now' : Z) (dets : list Detection)
    (p : ShuffleDetector.process) : list (ShuffleIndicator.t * bool) :=
  let scanned := fst (scan_frame now dets p) in
  [ (ShuffleIndicator.DuplicateCard,
     frame_fires (m_recentCards (fst p)) dets);
    (ShuffleIndicator.CardDepletion, depletion_holds scanned);
    (ShuffleIndicator.PenetrationReached, penetration_holds scanned);
    (ShuffleIndicator.LongPause, long_pause_holds now' scanned);
    (ShuffleIndicator.AllCardsGone, all_cards_gone_holds scanned) ].
End Conditions.

(** The sum of the per-identity counters. *)
Definition sumZ (l : list Z) : Z := foldr Z.add 0 l.

(** The inventory counts an identity at most once, and only identities
    recorded in the static set of [update]. *)
Definition counted_once (inv : CardInventory.t) (session_cards : gset N)
    : Prop :=
  length (CardInventory.cards_seen inv) = 52%nat
  /\ Forall (fun c => c = 0 \/ c = 1) (CardInventory.cards_seen inv)
  /\ CardInventory.total_cards_seen inv = sumZ (CardInventory.cards_seen inv)
  /\ (forall i : nat,
         CardInventory.cards_seen inv !! i = Some 1 ->
         N.of_nat i ∈ session_cards).

(** A call of the detector's interface. *)
Inductive call : Set :=
  | Update (f : ShuffleDetector.frame)
  | Reset (now : Z).

Definition do_call (p : ShuffleDetector.process) (c : call)
    : ShuffleDetector.process :=
  match c with
  | Update f => ShuffleDetector.step p f
  | Reset now => (ShuffleDetector.reset now (fst p), snd p)
  end.

Definition do_calls (calls : list call) (p : ShuffleDetector.process)
    : ShuffleDetector.process :=
  fold_left do_call calls p.

(** One single-card frame per identity, all at clock reading 0. *)
Definition single_card_frames (ids : list N) : list ShuffleDetector.frame :=
  map (fun id => ShuffleDetector.mkFrame [mkDetection id] 0 0) ids.

Definition ids_upto (n : nat) : list N := map N.of_nat (seq 0 n).

(** The identities of the first [n] cards of a shoe dealt deck after
    deck: 0, 1, ..., 51, 0, 1, ... *)
Definition shoe_identities (n : nat) : list N :=
  map (fun i => (i mod 52)%N) (ids_upto n).

(** C1 as the specification words it: when at least two of the five
    conditions hold in a call of [update] on a detector that has not
    latched an indicator yet, the indicator held afterwards is the
    first, in the listed order CardDepletion, PenetrationReached,
    LongPause, AllCardsGone, DuplicateCard, whose condition holds. *)
Definition C1_as_stated : Prop :=
  forall (now now' : Z) (dets : list Detection) (p : ShuffleDetector.process),
    ShuffleDetector.isShuffleDetected (fst p) = false ->
    (2 <= holding (conditions now now' dets p))%nat ->
    Some (ShuffleDetector.getLastIndicator
            (fst (ShuffleDetector.update now now' dets p)))
    = first_holding (conditions now now' dets p).

End Props.

(** ** intelligence/counting/card_counter: the derived quantities *)
Module CardCounterFull.
Import Machine Types.

(** The counter with the two [float] members [addCard] recomputes.  A
    value that is not finite (a division by zero) is [None]. *)
Record t : Type := mk {
  counts : CardCounter.t;
  m_trueCount : Q;                 (* float *)
  m_confidence : option Q          (* float *)
}.

Definition getCardsRemaining (c : CardCounter.t) : Z :=
  let totalCards := uint32 (CardCounter.m_deckCount c * 52) in
  if CardCounter.m_cardsPlayed c <? totalCards
  then uint32 (totalCards - CardCounter.m_cardsPlayed c)
  else 0.

(** [static_cast<float>(m_cardsPlayed) / totalCards]: with
    [totalCards == 0] the quotient is an infinity or a NaN. *)
Definition getPenetration (c : CardCounter.t) : option Q :=
  let totalCards := uint32 (CardCounter.m_deckCount c * 52) in
  if totalCards =? 0 then None
  else Some (float_div (float_of_int (CardCounter.m_cardsPlayed c))
                       (float_of_int totalCards)).

(** [float decksRemaining = cardsRemaining / 52.0f] *)
Definition decksRemaining (c : CardCounter.t) : Q :=
  float_div (float_of_int (getCardsRemaining c)) 52.

(** The value [updateTrueCount] stores. *)
Definition updateTrueCount (c : CardCounter.t) : Q :=
  if getCardsRemaining c =? 0 then 0%Q
  else float_div (float_of_int (CardCounter.m_runningCount c))
                 (decksRemaining c).

(** The value [updateConfidence] stores:
    [1.0f - (penetration * 0.5f)]. *)
Definition updateConfidence (c : CardCounter.t) : option Q :=
  match getPenetration c with
  | Some penetration =>
      Some (float32 (1 - float32 (penetration * (1 # 2))))
  | None => None
  end.

Definition new : t :=
  {| counts := CardCounter.new; m_trueCount := 0; m_confidence := Some 1%Q |}.

Definition reset (c : t) : t :=
  {| counts := CardCounter.reset (counts c);
     m_trueCount := 0;
     m_confidence := Some 1%Q |}.

Definition initialize (deckCount : Z) (c : t) : t :=
  {| counts := CardCounter.initialize deckCount (counts c);
     m_trueCount := 0;
     m_confidence := Some 1%Q |}.

Definition addCard (card : Card) (c : t) : t :=
  let counts' := CardCounter.addCard card (counts c) in
  {| counts := counts';
     m_trueCount := updateTrueCount counts';
     m_confidence := updateConfidence counts' |}.

Definition getTrueCount (c : t) : Q := m_trueCount c.
Definition getConfidence (c : t) : option Q := m_confidence c.
Definition getRunningCount (c : t) : Z :=
  CardCounter.getRunningCount (counts c).

End CardCounterFull.

(** ** ui/alerts/audio_alert_manager *)

(** [enum class AlertType] *)
Module AlertType.
Inductive t : Set :=
  | None | Hit | Double | Split | Surrender
  | Insurance | CountReset | NewShoe | HighCount.
End AlertType.

Module AudioAlertManager.

(** What a call makes audible: a terminal bell followed by a sleep of
    [duration_ms], or a silent sleep. *)
Inductive sound : Set :=
  | Tone (frequency_hz duration_ms : Z)
  | Pause (pause_ms : Z).

(** The members the alert functions read; the volume and the device
    handle play no part in them. *)
Record t : Set := mk {
  m_enabled : bool;
  m_initialized : bool
}.

Definition new : t := {| m_enabled := true; m_initialized := false |}.

Definition initialize (s : t) : t * bool :=
  ({| m_enabled := m_enabled s; m_initialized := true |}, true).

Definition shutdown (s : t) : t :=
  {| m_enabled := false; m_initialized := false |}.

Definition setEnabled (enabled : bool) (s : t) : t :=
  {| m_enabled := enabled; m_initialized := m_initialized s |}.

Definition silent (s : t) : bool :=
  negb (m_enabled s) || negb (m_initialized s).

Definition playTone (s : t) (frequency_hz duration_ms : Z) : list sound :=
  if silent s then [] else [Tone frequency_hz duration_ms].

(** [for (int i = 0; i < count; i++)] with the pause after every beep
    but the last. *)
Definition playBeeps (s : t) (count duration_ms pause_ms : Z) : list sound :=
  if silent s then []
  else
    flat_map
      (fun i : nat =>
         playTone s 800 duration_ms
         ++ (if Z.of_nat i <? count - 1 then [Pause pause_ms] else []))
      (seq 0 (Z.to_nat count)).

Definition playAlert (s : t) (type : AlertType.t) : list sound :=
  if silent s then []
  else
    match type with
    | AlertType.None => []
    | AlertType.Hit => playBeeps s 1 200 150
    | AlertType.Double => playBeeps s 2 200 150
    | AlertType.Split => playBeeps s 3 200 150
    | AlertType.Surrender => playBeeps s 4 200 150
    | AlertType.Insurance => playBeeps s 5 100 80
    | AlertType.CountReset => playBeeps s 1 800 0
    | AlertType.NewShoe => playBeeps s 2 600 400
    | AlertType.HighCount =>
        playTone s 800 200 ++ [Pause 50] ++ playTone s 1000 200
    end.

End AudioAlertManager.

(** ** core/realtime_advisor: decisions and hand control *)
Module Advisor.
Import Types.

(** The output of a decision, as [makeDecision] logs it. *)
Record recommendation : Type := mkRecommendation {
  action : BasicStrategy.Action;
  runningCount : Z;
  trueCount : Q;
  recommendedBet : option Machine.fp
}.

Record t : Type := mk {
  m_cardCounter : CardCounterFull.t;
  m_basicStrategy : BasicStrategy.t;
  m_bettingStrategy : BettingStrategy.t;
  m_gameState : GameStateTracker.t;
  m_audioAlerts : AudioAlertManager.t;
  deviations_enabled : bool;       (* m_strategyConfig.deviations_enabled *)
  m_lastRecommendedAction : BasicStrategy.Action
}.

Definition actionToAlertType (a : BasicStrategy.Action) : AlertType.t :=
  match a with
  | BasicStrategy.Hit => AlertType.Hit
  | BasicStrategy.Stand => AlertType.None
  | BasicStrategy.Double => AlertType.Double
  | BasicStrategy.Split => AlertType.Split
  | BasicStrategy.Surrender => AlertType.Surrender
  end.

Definition with_decision (a : t) (act : BasicStrategy.Action)
    (gs : GameStateTracker.t) : t :=
  mk (m_cardCounter a) (m_basicStrategy a) (m_bettingStrategy a) gs
     (m_audioAlerts a) (deviations_enabled a) act.

(** [makeDecision], run at clock reading [now]: the new state, what is
    played, and the recommendation logged (none when the hand or the
    dealer card is missing; the insurance branch logs no bet). *)
Definition makeDecision (now : Z) (a : t)
    : t * list AudioAlertManager.sound * option recommendation :=
  match GameStateTracker.getCurrentHand (m_gameState a),
        GameStateTracker.getDealerUpcard (m_gameState a) with
  | Some hand, Some dealerCard =>
      let trueCount := CardCounterFull.getTrueCount (m_cardCounter a) in
      let runningCount := CardCounterFull.getRunningCount (m_cardCounter a) in
      if rank_eqb (rank dealerCard) Ace && Qle_bool 3 trueCount then
        (with_decision a BasicStrategy.Hit
           (GameStateTracker.completeCurrentHand now (m_gameState a)),
         AudioAlertManager.playAlert (m_audioAlerts a) AlertType.Insurance,
         Some (mkRecommendation BasicStrategy.Hit runningCount trueCount None))
      else
        let act :=
          if deviations_enabled a
          then BasicStrategy.getDeviationAction (m_basicStrategy a)
                 (GameStateTracker.total hand) (rank dealerCard) trueCount
          else BasicStrategy.getAction (m_basicStrategy a)
                 (GameStateTracker.total hand) (rank dealerCard)
                 (GameStateTracker.is_soft hand)
                 (GameStateTracker.can_double hand)
                 (GameStateTracker.can_split hand) in
        let recommendedBet :=
          BettingStrategy.calculateBet (m_bettingStrategy a) trueCount
            (BettingStrategy.m_bankroll (m_bettingStrategy a)) in
        (with_decision a act
           (GameStateTracker.completeCurrentHand now (m_gameState a)),
         AudioAlertManager.playAlert (m_audioAlerts a) (actionToAlertType act),
         Some (mkRecommendation act runningCount trueCount
                                (Some recommendedBet)))
  | _, _ => (a, [], None)
  end.

Definition forceDecision (now : Z) (a : t)
    : t * list AudioAlertManager.sound * option recommendation :=
  makeDecision now a.

Definition nextHand (a : t) : t :=
  mk (m_cardCounter a) (m_basicStrategy a) (m_bettingStrategy a)
     (if GameStateTracker.hasMoreHands (m_gameState a)
      then GameStateTracker.advanceToNextHand (m_gameState a)
      else GameStateTracker.startNewHand (m_gameState a))
     (m_audioAlerts a) (deviations_enabled a) (m_lastRecommendedAction a).

(** [resetCount]: the state and the alert played. *)
Definition resetCount (a : t) : t * list AudioAlertManager.sound :=
  (mk (CardCounterFull.reset (m_cardCounter a)) (m_basicStrategy a)
      (m_bettingStrategy a)
      (GameStateTracker.resetForNewShoe (m_gameState a))
      (m_audioAlerts a) (deviations_enabled a) (m_lastRecommendedAction a),
   AudioAlertManager.playAlert (m_audioAlerts a) AlertType.CountReset).

End Advisor.

(** ** More vocabulary *)
Module MoreProps.
Import Machine Types.

(** The last [n] entries of a list. *)
Definition keep_last {A : Type} (n : nat) (l : list A) : list A :=
  drop (length l - n) l.

(** A run of frames without detections, one per pair of clock readings. *)
Definition empty_frames (clocks : list (Z * Z)) : list ShuffleDetector.frame :=
  map (fun t => ShuffleDetector.mkFrame [] (fst t) (snd t)) clocks.

(** The tracker after a run of detection frames, each with its clock
    reading. *)
Definition track_frames (frames : list (Z * list Detection))
    (s : GameStateTracker.t) : GameStateTracker.t :=
  fold_left
    (fun acc f => GameStateTracker.updateDetectedCards (fst f) (snd f) acc)
    frames s.

(** The number of bells in a sequence of sounds. *)
Definition tones (l : list AudioAlertManager.sound) : nat :=
  length (List.filter
            (fun x => match x with
                      | AudioAlertManager.Tone _ _ => true
                      | AudioAlertManager.Pause _ => false
                      end) l).

(** The beeps that announce an action. *)
Definition beeps_of (a : BasicStrategy.Action) : nat :=
  match a with
  | BasicStrategy.Stand => 0
  | BasicStrategy.Hit => 1
  | BasicStrategy.Double => 2
  | BasicStrategy.Split => 3
  | BasicStrategy.Surrender => 4
  end.

(** The 52 cards of a deck, by identity. *)
Definition deck : list Card := map card_of_id (Props.ids_upto 52).

(** The fields of a detector that only configuration and the clock
    touch. *)
Definition same_setup (s s' : ShuffleDetector.t) : Prop :=
  ShuffleDetector.m_lastCardDetection s' = ShuffleDetector.m_lastCardDetection s
  /\ ShuffleDetector.m_lastResetTime s' = ShuffleDetector.m_lastResetTime s
  /\ ShuffleDetector.m_deckCount s' = ShuffleDetector.m_deckCount s
  /\ ShuffleDetector.m_penetrationLimit s'
     = ShuffleDetector.m_penetrationLimit s
  /\ ShuffleDetector.m_inactivityThresholdSec s'
     = ShuffleDetector.m_inactivityThresholdSec s
  /\ ShuffleDetector.m_minCardsBeforeReset s'
     = ShuffleDetector.m_minCardsBeforeReset s.

(** The actions the hard and soft tables hold. *)
Definition plays (a : BasicStrategy.Action) : bool :=
  match a with
  | BasicStrategy.Hit | BasicStrategy.Stand | BasicStrategy.Double => true
  | BasicStrategy.Split | BasicStrategy.Surrender => false
  end.

End MoreProps.

(** * Properties *)

(** ** Machine arithmetic *)
Section MachineFacts.
Import Machine.

Lemma int32_small (x : Z) : - 2 ^ 31 <= x < 2 ^ 31 -> int32 x = x.
Proof.
  intros Hx. unfold int32.
  rewrite Z.mod_small by lia. lia.
Qed.

Lemma int32_add_idemp (a b : Z) : int32 (int32 a + b) = int32 (a + b).
Proof.
  unfold int32. f_equal.
  replace ((a + 2 ^ 31) mod 2 ^ 32 - 2 ^ 31 + b + 2 ^ 31)
    with ((a + 2 ^ 31) mod 2 ^ 32 + b) by lia.
  rewrite Zplus_mod_idemp_l. f_equal. lia.
Qed.

Lemma int32_idemp (x : Z) : int32 (int32 x) = int32 x.
Proof.
  pose proof (int32_add_idemp x 0) as H.
  now rewrite !Z.add_0_r in H.
Qed.

Lemma uint32_small (x : Z) : 0 <= x < 2 ^ 32 -> uint32 x = x.
Proof. intros Hx. unfold uint32. apply Z.mod_small. lia. Qed.

(** The rounding on well-known values: 0.1 as [float] and as [double],
    the tie [2^24 + 1] going to the even neighbour, and the quotients
    the penetration check meets at its threshold. *)
Example float32_tenth : float32 (1 # 10) = 13421773 # 134217728.
Proof. reflexivity. Qed.

Example float64_tenth :
  (float64 (1 # 10) == 3602879701896397 # 36028797018963968)%Q.
Proof. reflexivity. Qed.

Example float32_ties_to_even :
  float_of_int (2 ^ 24 + 1) = inject_Z (2 ^ 24)
  /\ float_of_int (2 ^ 24 + 3) = inject_Z (2 ^ 24 + 4).
Proof. split; reflexivity. Qed.

Example float_div_threshold :
  (float_div (float_of_int 234) (float_of_int 312) == 3 # 4)%Q
  /\ (float_div (float_of_int 233) (float_of_int 312) < 3 # 4)%Q.
Proof. split; reflexivity. Qed.
End MachineFacts.

(** ** The Count Engine *)
Section CountEngine.
Import Machine Types CardCounter Props.

(** [getHiLoValue] is the Hi-Lo table. *)
Lemma getHiLoValue_by_rank (r : CardRank) : getHiLoValue r = hilo_by_rank r.
Proof. destruct r; reflexivity. Qed.

Lemma hilo_by_rank_bound (r : CardRank) : -1 <= hilo_by_rank r <= 1.
Proof. destruct r; simpl; lia. Qed.

Lemma sum_hilo_cons (c : Card) (cards : list Card) :
  sum_hilo (c :: cards) = hilo_by_rank (rank c) + sum_hilo cards.
Proof. reflexivity. Qed.

Lemma sum_hilo_bound (cards : list Card) :
  - Z.of_nat (length cards) <= sum_hilo cards <= Z.of_nat (length cards).
Proof.
  induction cards as [|c cards IH].
  - simpl. unfold sum_hilo. simpl. lia.
  - rewrite sum_hilo_cons. pose proof (hilo_by_rank_bound (rank c)).
    simpl length. lia.
Qed.

Lemma sum_hilo_perm (cards cards' : list Card) :
  Permutation cards cards' -> sum_hilo cards = sum_hilo cards'.
Proof.
  induction 1 as [|c l l' _ IH|c d l|l l' l'' _ IH1 _ IH2].
  - reflexivity.
  - rewrite !sum_hilo_cons. lia.
  - rewrite !sum_hilo_cons. lia.
  - congruence.
Qed.

Lemma addCard_runningCount (card : Card) (c : CardCounter.t) :
  m_runningCount (addCard card c)
  = int32 (m_runningCount c + hilo_by_rank (rank card)).
Proof. unfold addCard. simpl. now rewrite getHiLoValue_by_rank. Qed.

(** The running count after a stream of cards, in 32-bit arithmetic. *)
Lemma addCards_runningCount (cards : list Card) :
  forall c : CardCounter.t,
    int32 (m_runningCount c) = m_runningCount c ->
    m_runningCount (addCards cards c)
    = int32 (m_runningCount c + sum_hilo cards).
Proof.
  induction cards as [|card cards IH]; intros c Hc.
  - unfold addCards, sum_hilo. simpl. now rewrite Z.add_0_r.
  - unfold addCards. simpl fold_left.
    fold (addCards cards (addCard card c)).
    rewrite IH.
    + rewrite addCard_runningCount, sum_hilo_cons, int32_add_idemp.
      f_equal. lia.
    + rewrite addCard_runningCount. apply int32_idemp.
Qed.

Lemma runningCount_after_reset (c : CardCounter.t) (cards : list Card) :
  m_runningCount (addCards cards (reset c)) = int32 (sum_hilo cards).
Proof. now rewrite addCards_runningCount. Qed.

(** C7 (P1, count additivity).  After a reset, feeding a sequence of
    confirmed cards to [addCard] leaves [runningCount] at the sum of
    the cards' Hi-Lo values (+1 for ranks 2-6, 0 for 7-9, -1 for ten,
    face and ace), and every permutation of the sequence ends at the
    same value.  The [int32_t] counter holds the exact sum for any
    sequence of fewer than [2^31] cards. *)
Theorem C7_count_additivity (c : CardCounter.t) (cards cards' : list Card) :
  Permutation cards cards' ->
  Z.of_nat (length cards) < 2 ^ 31 ->
  getRunningCount (addCards cards (reset c)) = sum_hilo cards
  /\ getRunningCount (addCards cards' (reset c))
     = getRunningCount (addCards cards (reset c)).
Proof.
  intros Hperm Hlen. unfold getRunningCount.
  rewrite !runningCount_after_reset.
  rewrite <- (sum_hilo_perm _ _ Hperm).
  split; [|reflexivity].
  apply int32_small. pose proof (sum_hilo_bound cards). lia.
Qed.

Lemma C7_count_additivity_witness :
  let cards := [mkCard Five Hearts; mkCard King Spades; mkCard Two Clubs] in
  let cards' := [mkCard Two Clubs; mkCard Five Hearts; mkCard King Spades] in
  getRunningCount (addCards cards (reset new)) = 1
  /\ getRunningCount (addCards cards' (reset new)) = 1.
Proof.
  intros cards cards'.
  assert (Hperm : Permutation cards cards').
  { unfold cards, cards'.
    apply Permutation_sym, (Permutation_cons_app [_; _] []).
    apply Permutation_refl. }
  assert (Hlen : Z.of_nat (length cards) < 2 ^ 31) by (simpl; lia).
  destruct (C7_count_additivity new cards cards' Hperm Hlen) as [H1 H2].
  split; [exact H1 | rewrite H2; exact H1].
Defined.
End CountEngine.

(** ** The Hand State Machine: hand totals *)
Section HandTotals.
Import Machine Types GameStateTracker Props.

Lemma getValue_bound (c : Card) : 2 <= getValue c <= 11.
Proof. destruct c as [r s]; destruct r; unfold getValue; simpl; lia. Qed.

Lemma getValue_ace (c : Card) :
  rank_eqb (rank c) Ace = true -> getValue c = 11.
Proof. unfold getValue. now intros ->. Qed.

Lemma raw_total_cons (c : Card) (cs : list Card) :
  raw_total (c :: cs) = getValue c + raw_total cs.
Proof. reflexivity. Qed.

Lemma ace_count_cons (c : Card) (cs : list Card) :
  ace_count (c :: cs)
  = if rank_eqb (rank c) Ace then S (ace_count cs) else ace_count cs.
Proof. unfold ace_count. simpl. now destruct (rank_eqb (rank c) Ace). Qed.

Lemma raw_total_bounds (cs : list Card) :
  11 * Z.of_nat (ace_count cs) <= raw_total cs
  /\ raw_total cs <= 11 * Z.of_nat (length cs).
Proof.
  induction cs as [|c cs [IHl IHu]].
  - unfold raw_total, ace_count. simpl. lia.
  - rewrite raw_total_cons, ace_count_cons.
    pose proof (getValue_bound c) as Hv.
    pose proof (getValue_ace c) as Ha.
    destruct (rank_eqb (rank c) Ace); simpl length.
    + rewrite Ha by reflexivity. lia.
    + lia.
Qed.

(** The summing loop computes the raw total and the ace count as long
    as the [int] accumulator does not overflow. *)
Lemma sum_cards_from (cs : list Card) :
  forall (t0 : Z) (a0 : nat),
    0 <= t0 ->
    t0 + 11 * Z.of_nat (length cs) < 2 ^ 31 ->
    fold_left
      (fun acc card =>
         (int32 (fst acc + getValue card),
          if rank_eqb (rank card) Ace then S (snd acc) else snd acc))
      cs (t0, a0)
    = (t0 + raw_total cs, (a0 + ace_count cs)%nat).
Proof.
  induction cs as [|c cs IH]; intros t0 a0 Ht0 Hlen.
  - unfold raw_total, ace_count. simpl. f_equal; lia.
  - simpl fold_left. simpl length in Hlen.
    pose proof (getValue_bound c) as Hv.
    rewrite int32_small by lia.
    rewrite IH by lia.
    rewrite raw_total_cons, ace_count_cons.
    destruct (rank_eqb (rank c) Ace); f_equal; lia.
Qed.

Lemma sum_cards_exact (cs : list Card) :
  11 * Z.of_nat (length cs) < 2 ^ 31 ->
  sum_cards cs = (raw_total cs, ace_count cs).
Proof.
  intros Hlen. unfold sum_cards.
  rewrite sum_cards_from by lia. reflexivity.
Qed.

(** The softening loop demotes [k] aces: as few as bring the total to
    21 or less, all of them when that is out of reach. *)
Lemma soften_spec (aces : nat) :
  forall total0 : Z,
    - 2 ^ 31 <= total0 - 10 * Z.of_nat aces ->
    total0 < 2 ^ 31 ->
    exists k : nat,
      (k <= aces)%nat
      /\ soften total0 aces = (total0 - 10 * Z.of_nat k, (aces - k)%nat)
      /\ (forall j : nat, (j < k)%nat -> 21 < total0 - 10 * Z.of_nat j)
      /\ ((k < aces)%nat -> total0 - 10 * Z.of_nat k <= 21).
Proof.
  induction aces as [|aces IH]; intros total0 Hlo Hhi.
  - exists 0%nat. simpl. repeat split; try lia. f_equal. lia.
  - simpl soften. destruct (21 <? total0) eqn:Hgt.
    + apply Z.ltb_lt in Hgt.
      rewrite int32_small by lia.
      destruct (IH (total0 - 10)) as (k & Hk & Heq & Hall & Hstop);
        [lia | lia |].
      exists (S k). repeat split.
      * lia.
      * rewrite Heq. f_equal. lia.
      * intros [|j] Hj; [lia|].
        specialize (Hall j ltac:(lia)). lia.
      * intros Hlt. specialize (Hstop ltac:(lia)). lia.
    + apply Z.ltb_ge in Hgt.
      exists 0%nat. repeat split; try lia.
      f_equal; lia.
Qed.

(** [calculateHandTotal] makes the state of a hand of at least one card
    agree with its cards. *)
Lemma calculateHandTotal_consistent (hand : PlayerHand) :
  cards hand <> [] ->
  11 * Z.of_nat (length (cards hand)) < 2 ^ 31 ->
  hand_consistent (calculateHandTotal hand)
  /\ cards (calculateHandTotal hand) = cards hand.
Proof.
  intros Hne Hlen.
  set (raw := raw_total (cards hand)).
  set (aces := ace_count (cards hand)).
  pose proof (raw_total_bounds (cards hand)) as [Hraw_lo Hraw_hi].
  destruct (soften_spec aces raw) as (k & Hk & Heq & Hall & Hstop);
    [subst raw aces; lia | subst raw; lia |].
  assert (Hnn : 0 <= raw - 10 * Z.of_nat k < 2 ^ 32)
    by (subst raw aces; lia).
  assert (Hh : calculateHandTotal hand
               = mkHand (cards hand) (raw - 10 * Z.of_nat k)
                   (match (aces - k)%nat with O => false | S _ => true end)
                   (is_pair hand) (length (cards hand) =? 2)%nat
                   (can_split hand)
                   ((length (cards hand) =? 2)%nat
                    && (raw - 10 * Z.of_nat k =? 21))
                   (21 <? raw - 10 * Z.of_nat k)
                   (is_completed hand) (hand_index hand)).
  { unfold calculateHandTotal.
    destruct (cards hand) as [|c cs] eqn:Hcs; [congruence|].
    rewrite sum_cards_exact by exact Hlen.
    fold raw. fold aces. rewrite Heq.
    rewrite uint32_small by exact Hnn. reflexivity. }
  rewrite Hh. split; [|reflexivity].
  unfold hand_consistent. cbn [cards total is_soft is_busted is_blackjack].
  fold raw. fold aces.
  exists k.
  split; [exact Hk|]. split; [reflexivity|]. split; [exact Hall|].
  split; [exact Hstop|]. split; [|split].
  - destruct (aces - k)%nat eqn:Hd; split; intros;
      try lia; try discriminate; reflexivity.
  - apply Z.ltb_lt.
  - rewrite andb_true_iff, Nat.eqb_eq, Z.eqb_eq. reflexivity.
Qed.

(** C8 (hand total, Scenario E).  For a hand of at least one card,
    [calculateHandTotal] counts every ace as 11 and then takes 10 off
    for [k] aces, one at a time while the total exceeds 21 and an ace
    still counts as 11; the hand is soft iff an ace still counts as 11
    afterwards, busted iff the total exceeds 21 and a blackjack iff it
    has exactly two cards and total 21.  The hand ace-six has total 17
    and is soft; with a nine added it has total 16 and is neither soft
    nor busted.  (The [int] accumulator is exact for hands of fewer
    than [2^31 / 11] cards.) *)
Theorem C8_hand_total :
  (forall hand : PlayerHand,
      cards hand <> [] ->
      11 * Z.of_nat (length (cards hand)) < 2 ^ 31 ->
      let h := calculateHandTotal hand in
      let raw := raw_total (cards hand) in
      let aces := ace_count (cards hand) in
      exists k : nat,
        (k <= aces)%nat
        /\ total h = raw - 10 * Z.of_nat k
        /\ (forall j : nat, (j < k)%nat -> 21 < raw - 10 * Z.of_nat j)
        /\ ((k < aces)%nat -> total h <= 21)
        /\ (is_soft h = true <-> (k < aces)%nat)
        /\ (is_busted h = true <-> 21 < total h)
        /\ (is_blackjack h = true
            <-> length (cards hand) = 2%nat /\ total h = 21))
  /\ (let h := calculateHandTotal
                 (with_cards [mkCard Ace Hearts; mkCard Six Clubs] emptyHand) in
      total h = 17 /\ is_soft h = true
      /\ let h' := calculateHandTotal
                     (with_cards (cards h ++ [mkCard Nine Spades]) h) in
         total h' = 16 /\ is_soft h' = false /\ is_busted h' = false).
Proof.
  split; [|repeat split].
  intros hand Hne Hlen h raw aces.
  destruct (calculateHandTotal_consistent hand Hne Hlen) as [Hc Hcards].
  unfold hand_consistent in Hc. rewrite Hcards in Hc. exact Hc.
Qed.

Lemma C8_hand_total_witness :
  let hand := with_cards [mkCard Ace Hearts; mkCard Ace Spades;
                          mkCard Nine Clubs] emptyHand in
  exists k : nat,
    total (calculateHandTotal hand) = 31 - 10 * Z.of_nat k
    /\ (is_soft (calculateHandTotal hand) = true <-> (k < 2)%nat).
Proof.
  intros hand.
  destruct C8_hand_total as [Hall _].
  destruct (Hall hand) as (k & _ & Htot & _ & _ & Hsoft & _).
  - discriminate.
  - simpl. lia.
  - exists k. split; [exact Htot | exact Hsoft].
Defined.

Lemma emptyHand_consistent : hand_consistent emptyHand.
Proof.
  exists 0%nat. cbn.
  repeat split; try lia; try discriminate; intros [H _]; discriminate H.
Qed.

Lemma hand_consistent_ext (h h' : PlayerHand) :
  cards h' = cards h -> total h' = total h -> is_soft h' = is_soft h ->
  is_busted h' = is_busted h -> is_blackjack h' = is_blackjack h ->
  hand_consistent h -> hand_consistent h'.
Proof.
  unfold hand_consistent. intros -> -> -> -> -> H. exact H.
Qed.

Lemma calculateHandTotal_settled (h : PlayerHand) :
  (length (cards h) <= 2)%nat ->
  (cards h = [] -> hand_consistent h) ->
  hand_settled (calculateHandTotal h).
Proof.
  intros Hlen Hempty.
  destruct (cards h) as [|c cs] eqn:Hcs.
  - unfold calculateHandTotal. rewrite Hcs. split; [auto|].
    rewrite Hcs. simpl. lia.
  - destruct (calculateHandTotal_consistent h) as [Hc Hcards].
    + rewrite Hcs. discriminate.
    + rewrite Hcs in *. simpl length in *. lia.
    + split; [exact Hc|]. rewrite Hcards, Hcs. exact Hlen.
Qed.

(** Every hand the tracker holds is in a state that agrees with its
    cards, whatever calls were made since the tracker was constructed:
    a hand is either fresh or was totalled after its two cards were
    dealt. *)
Lemma tracker_hands_consistent (calls : list tracker_call) (now : Z) :
  Forall hand_settled
         (m_playerHands
            (fold_left do_tracker_call calls (GameStateTracker.new now))).
Proof.
  assert (Hnew : Forall hand_settled (m_playerHands (GameStateTracker.new now))).
  { repeat constructor. apply emptyHand_consistent. }
  revert Hnew. generalize (GameStateTracker.new now) as s.
  induction calls as [|c calls IH]; intros s Hs; simpl fold_left.
  - exact Hs.
  - apply IH. clear IH.
    assert (Hfresh : Forall hand_settled [emptyHand]).
    { repeat constructor. apply emptyHand_consistent. }
    destruct c as [t dets| |t| | | |]; simpl do_tracker_call;
      try exact Hfresh; try exact Hs.
    + (* updateDetectedCards *)
      unfold updateDetectedCards.
      destruct (m_phase s); try exact Hs.
      destruct (stable_cards _) as [|c0 [|c1 [|c2 rest]]]; try exact Hs.
      cbn [m_playerHands analyzeHands detectPairs m_phase
           m_currentHandIndex m_dealerUpcard m_detectedCardIds
           m_lastUpdate m_lastDecision m_cardStability m_decisionMade].
      apply Forall_alter.
      * apply Forall_map.
        apply Forall_impl
          with (P := fun h => (length (cards h) <= 2)%nat
                              /\ (cards h = [] -> hand_consistent h)).
        -- apply Forall_alter.
           ++ eapply Forall_impl; [exact Hs|].
              intros h [Hc Hlen]. split; [exact Hlen | intros _; exact Hc].
           ++ intros h _ _. cbn. split; [lia | discriminate].
        -- intros h [Hlen Hc]. now apply calculateHandTotal_settled.
      * intros h _ [Hc Hlen].
        destruct (cards h) as [|a [|b [|? ?]]] eqn:Hcs;
          (split;
           [eapply hand_consistent_ext; [| | | | |exact Hc]; reflexivity
           |cbn; rewrite Hcs in *; exact Hlen]).
    + (* completeCurrentHand *)
      unfold completeCurrentHand. cbn [m_playerHands].
      destruct (m_currentHandIndex s <? _); [|exact Hs].
      apply Forall_alter; [exact Hs|].
      intros h _ [Hc Hlen].
      split; [eapply hand_consistent_ext; [| | | | |exact Hc]; reflexivity
             | exact Hlen].
    + (* advanceToNextHand *)
      unfold advanceToNextHand. destruct (hasMoreHands s); exact Hs.
Qed.

End HandTotals.

(** ** The Strategy Engine *)
Section Strategy.
Import Types BasicStrategy.

Lemma action_eqb_eq (a b : Action) : action_eqb a b = true <-> a = b.
Proof. destruct a, b; simpl; split; intros H; congruence. Qed.

(** With [canDouble] false [getAction] never answers [Double]. *)
Lemma getAction_no_double (s : BasicStrategy.t) (playerTotal : Z)
    (dealerUpcard : CardRank) (isSoft canSplit : bool) :
  getAction s playerTotal dealerUpcard isSoft false canSplit <> Double.
Proof.
  unfold getAction.
  repeat match goal with
         | |- context [if ?b then _ else _] =>
             let E := fresh "E" in destruct b eqn:E; try discriminate
         end;
    rewrite ?andb_true_r, ?andb_false_iff in *;
    intros Hd;
    match goal with
    | E : action_eqb ?a Double = false |- _ =>
        rewrite Hd in E; discriminate
    end.
Qed.

(** C9 on the code.  [buildStrategyTables] clears
    [m_deviationsEnabled] on every object the program builds, by the
    constructor or by [initialize], so that [getDeviationAction] never
    reaches its index plays: for 16 against a dealer ten it answers
    what [getAction] answers, Hit, at every true count, also at 0.5
    where the claim has Stand.  The index play itself is in the code:
    on the same tables with the flag as it is declared
    ([m_deviationsEnabled{true}]) the answer is Stand at 0.5 and Hit at
    -0.5.  Of the rest of the claim: [getAction] answers Hit for a
    hard 16 against the rank Ten (Split when the 16 is a pair that may
    be split) and against a Jack, and Stand against a Queen or a King,
    whose enumerators 12 and 13 fail the range check; on valid inputs
    that the pair table does not send to Split it returns the entry of
    the hard or soft table, with Hit in the place of Double when
    [canDouble] is false. *)
Theorem C9_strategy :
  m_deviationsEnabled BasicStrategy.new = false
  /\ (forall (rules : string) (s0 : BasicStrategy.t),
         m_deviationsEnabled (initialize rules s0) = false)
  /\ (forall trueCount : Q,
         getDeviationAction BasicStrategy.new 16 Ten trueCount = Hit)
  /\ (forall (rules : string) (s0 : BasicStrategy.t) (trueCount : Q),
         getDeviationAction (initialize rules s0) 16 Ten trueCount = Hit)
  /\ (forall rules : string,
         let declared :=
           BasicStrategy.mk build_hardTotals build_softTotals
                            build_pairSplitting true rules in
         getDeviationAction declared 16 Ten (1 # 2) = Stand
         /\ getDeviationAction declared 16 Ten (- 1 # 2) = Hit)
  /\ (forall (rules : string) (s0 : BasicStrategy.t) (canDouble : bool),
         getAction (initialize rules s0) 16 Ten false canDouble false = Hit
         /\ getAction (initialize rules s0) 16 Ten false canDouble true
            = Split)
  /\ (forall (rules : string) (s0 : BasicStrategy.t)
             (canDouble canSplit : bool),
         getAction (initialize rules s0) 16 Jack false canDouble false = Hit
         /\ getAction (initialize rules s0) 16 Queen false canDouble canSplit
            = Stand
         /\ getAction (initialize rules s0) 16 King false canDouble canSplit
            = Stand)
  /\ (forall (s : BasicStrategy.t) (playerTotal : Z)
             (dealerUpcard : CardRank) (isSoft canDouble canSplit : bool),
         4 <= playerTotal <= 21 ->
         2 <= dealerValue dealerUpcard <= 11 ->
         (canSplit = true ->
          table_get (m_pairSplitting s) (playerTotal / 2)
                    (dealerValue dealerUpcard) <> Split) ->
         let entry :=
           table_get (if isSoft then m_softTotals s else m_hardTotals s)
                     playerTotal (dealerValue dealerUpcard) in
         getAction s playerTotal dealerUpcard isSoft canDouble canSplit
         = if action_eqb entry Double && negb canDouble then Hit else entry).
Proof.
  split; [reflexivity|]. split; [reflexivity|].
  split; [intros trueCount; reflexivity|].
  split; [intros rules s0 trueCount; reflexivity|].
  split; [intros rules; split; reflexivity|].
  split; [intros rules s0 [|]; split; reflexivity|].
  split; [intros rules s0 [|] canSplit; repeat split; reflexivity|].
  intros s playerTotal dealerUpcard isSoft canDouble canSplit Ht Hd Hpair.
  cbn zeta. unfold getAction.
  replace ((playerTotal <? 4) || (21 <? playerTotal)) with false
    by (symmetry; apply orb_false_iff; split;
        [apply Z.ltb_ge | apply Z.ltb_ge]; lia).
  replace ((dealerValue dealerUpcard <? 2) || (11 <? dealerValue dealerUpcard))
    with false
    by (symmetry; apply orb_false_iff; split;
        [apply Z.ltb_ge | apply Z.ltb_ge]; lia).
  assert (Hns : (if canSplit
                 then action_eqb
                        (table_get (m_pairSplitting s) (playerTotal / 2)
                                   (dealerValue dealerUpcard)) Split
                 else false) = false).
  { destruct canSplit; [|reflexivity].
    destruct (action_eqb _ Split) eqn:E; [|reflexivity].
    apply action_eqb_eq in E. now elim Hpair. }
  rewrite Hns.
  destruct isSoft; reflexivity.
Qed.

Lemma C9_strategy_witness :
  getAction BasicStrategy.new 11 Six false false false = Hit
  /\ getAction BasicStrategy.new 11 Six false true false = Double.
Proof.
  destruct C9_strategy as (_ & _ & _ & _ & _ & _ & _ & Hrule).
  split.
  - rewrite (Hrule BasicStrategy.new 11 Six false false false);
      [reflexivity | lia | vm_compute; split; discriminate | discriminate].
  - rewrite (Hrule BasicStrategy.new 11 Six false true false);
      [reflexivity | lia | vm_compute; split; discriminate | discriminate].
Defined.
End Strategy.

(** ** The Hand State Machine: a new shoe *)
Section NewShoe.
Import Types GameStateTracker Props.

(** C4 as worded fails on the tracker a fresh process constructs: the
    phase after [resetForNewShoe] is [NewShoe]. *)
Lemma C4_counterexample : ~ C4_as_stated.
Proof.
  intros H. destruct (H (GameStateTracker.new 0)) as (_ & _ & _ & Hphase).
  discriminate Hphase.
Qed.

(** C4, amended.  After every call of [resetForNewShoe] the hands are
    replaced by one fresh hand without cards, the dealer upcard and
    the stability counters are cleared, and the phase ends at
    [NewShoe], having been [WaitingForCards] immediately before (the
    state [startNewHand] leaves). *)
Theorem C4_reset_for_new_shoe (s : GameStateTracker.t) :
  let s' := resetForNewShoe s in
  m_playerHands s' = [emptyHand]
  /\ Forall (fun hand => cards hand = []) (m_playerHands s')
  /\ m_dealerUpcard s' = None
  /\ m_cardStability s' = []
  /\ m_detectedCardIds s' = []
  /\ getCurrentPhase s' = NewShoe
  /\ getCurrentPhase (startNewHand s) = WaitingForCards
  /\ s' = set_phase NewShoe (startNewHand s).
Proof.
  simpl. repeat split. constructor; [reflexivity | constructor].
Qed.
End NewShoe.

(** ** The Betting Engine: camouflage bets *)
Section Camouflage.
Import Machine BettingStrategy.

(** A true count strictly between 0 and 1 meets none of the listed
    ranges and falls through to the last spread entry. *)
Lemma camouflage_units_gap (s : BettingStrategy.t) (trueCount : Q) :
  (0 < trueCount)%Q -> (trueCount < 1)%Q ->
  camouflage_units s trueCount = spread s 4.
Proof.
  intros H0 H1. unfold camouflage_units, Qlt_bool.
  assert (E0 : Qle_bool trueCount 0 = false).
  { destruct (Qle_bool trueCount 0) eqn:E; [|reflexivity].
    apply Qle_bool_iff in E. exfalso. apply (Qlt_not_le _ _ H0 E). }
  assert (E1 : forall k : Q, (1 <= k)%Q -> Qle_bool k trueCount = false).
  { intros k Hk. destruct (Qle_bool k trueCount) eqn:E; [|reflexivity].
    apply Qle_bool_iff in E. exfalso.
    apply (Qlt_not_le _ _ H1). now apply Qle_trans with k. }
  rewrite E0, (E1 1%Q), (E1 2%Q), (E1 3%Q); [reflexivity | | |];
    unfold Qle; simpl; lia.
Qed.

(** Kelly sizing: no bet above the minimum without an edge, and the
    quarter-Kelly bet of Scenario C (true count 3, bankroll 10000) is
    28.35 and a fraction. *)
Lemma calculateBet_no_edge (s : BettingStrategy.t) (trueCount bankroll : Q) :
  (trueCount <= 0)%Q ->
  calculateBet s trueCount bankroll = Finite (m_minBet s).
Proof.
  intros H. unfold calculateBet.
  now rewrite (proj2 (Qle_bool_iff _ _) H).
Qed.

Example calculateBet_scenario_C :
  match calculateBet BettingStrategy.new 3 10000 with
  | Finite bet => (2835 # 100 < bet)%Q /\ (bet < 2836 # 100)%Q
  | _ => False
  end.
Proof. vm_compute. split; reflexivity. Qed.

(** C5 at the failing input.  With the default configuration (minimum
    bet 10, maximum 500, spread 1-2-4-8-12) a true count of 0.5 is
    sized with the last spread entry, 12 units: the bet is 120, more
    than the 20 returned for the larger true count 1.5. *)
Theorem C5_camouflage_not_monotone :
  let s := BettingStrategy.new in
  camouflage_units s (1 # 2) = 12
  /\ (getCamouflageBet s (1 # 2) == 120)%Q
  /\ (getCamouflageBet s (3 # 2) == 20)%Q
  /\ ~ (getCamouflageBet s (1 # 2) <= getCamouflageBet s (3 # 2))%Q.
Proof.
  vm_compute. repeat split; try reflexivity.
  intros H. apply H. reflexivity.
Qed.
End Camouflage.

(** ** The Orchestrator: counting and resetting *)
Section Orchestrator.
Import Types RealtimeAdvisor.

Lemma count_detection_counted (p : process) (det : Detection) :
  snd p ⊆ snd (count_detection p det)
  /\ card_id det ∈ snd (count_detection p det).
Proof.
  destruct p as [a counted]. unfold count_detection.
  destruct (bool_decide (card_id det ∈ counted)) eqn:E; simpl.
  - apply bool_decide_eq_true in E. split; [reflexivity | exact E].
  - split; set_solver.
Qed.

Lemma updateCardCount_mono (dets : list Detection) :
  forall p : process, snd p ⊆ snd (updateCardCount dets p).
Proof.
  induction dets as [|det dets IH]; intros p; simpl.
  - reflexivity.
  - etransitivity; [|apply IH]. apply count_detection_counted.
Qed.

Lemma updateCardCount_counted (dets : list Detection) (id : N) :
  forall p : process,
    In (mkDetection id) dets -> id ∈ snd (updateCardCount dets p).
Proof.
  induction dets as [|det dets IH]; intros p Hin; simpl in *.
  - contradiction.
  - destruct Hin as [-> | Hin].
    + apply (updateCardCount_mono dets (count_detection p (mkDetection id))).
      apply (count_detection_counted p (mkDetection id)).
    + now apply IH.
Qed.

(** C3 on the code.  [resetCount] leaves the static [countedCards]
    untouched: an identity detected before the reset is skipped when
    it is detected again afterwards, and the running count stays at
    the 0 the reset left.  For the ace of hearts (identity 0), whose
    Hi-Lo value is -1, the count after the reset is 0, not -1. *)
Theorem C3_identity_not_recounted_after_reset :
  (forall (p : process) (dets : list Detection) (id : N),
      In (mkDetection id) dets ->
      getRunningCount
        (updateCardCount [mkDetection id]
           (resetCount (updateCardCount dets p))) = 0)
  /\ (let p0 : process := (initialize 6 0, ∅) in
      let p1 := updateCardCount [mkDetection 0] p0 in
      let p2 := updateCardCount [mkDetection 0] (resetCount p1) in
      getRunningCount p1 = -1
      /\ CardCounter.getHiLoValue (rank (card_of_id 0)) = -1
      /\ getRunningCount p2 = 0).
Proof.
  split.
  - intros p dets id Hin.
    pose proof (updateCardCount_counted dets id p Hin) as Hc.
    destruct (updateCardCount dets p) as [a counted]. simpl in Hc.
    unfold resetCount, updateCardCount. simpl fold_left.
    unfold count_detection. simpl card_id.
    rewrite bool_decide_eq_true_2 by exact Hc. reflexivity.
  - vm_compute. repeat split.
Qed.

Lemma C3_identity_not_recounted_after_reset_witness :
  getRunningCount
    (updateCardCount [mkDetection 7]
       (resetCount (updateCardCount [mkDetection 3; mkDetection 7]
                      (initialize 6 0, ∅)))) = 0.
Proof.
  destruct C3_identity_not_recounted_after_reset as [H _].
  apply H. right. left. reflexivity.
Defined.
End Orchestrator.

(** ** The Shuffle Detector: the inventory *)
Section Inventory.
Import Machine Types CardInventory ShuffleDetector Props.

Lemma sumZ_alter (f : Z -> Z) (l : list Z) :
  forall (i : nat) (x : Z),
    l !! i = Some x -> sumZ (alter f i l) = sumZ l - x + f x.
Proof.
  induction l as [|y l IH]; intros [|i] x Hx; simpl in Hx; try discriminate.
  - injection Hx as ->. unfold sumZ. simpl. lia.
  - change (sumZ (alter f (S i) (y :: l))) with (y + sumZ (alter f i l)).
    change (sumZ (y :: l)) with (y + sumZ l).
    rewrite (IH i x Hx). lia.
Qed.

Lemma sumZ_bits (l : list Z) :
  Forall (fun c => c = 0 \/ c = 1) l -> 0 <= sumZ l <= Z.of_nat (length l).
Proof.
  induction 1 as [|c l Hc _ IH]; unfold sumZ in *; simpl; lia.
Qed.

Lemma sumZ_replicate_0 (n : nat) : sumZ (replicate n 0) = 0.
Proof. induction n as [|n IH]; unfold sumZ in *; simpl; lia. Qed.

Lemma counted_once_total (inv : CardInventory.t) (sess : gset N) :
  counted_once inv sess -> 0 <= total_cards_seen inv <= 52.
Proof.
  intros (Hlen & Hbits & Htot & _).
  pose proof (sumZ_bits _ Hbits). lia.
Qed.

Lemma counted_once_mono (inv : CardInventory.t) (sess sess' : gset N) :
  sess ⊆ sess' -> counted_once inv sess -> counted_once inv sess'.
Proof.
  intros Hsub (Hlen & Hbits & Htot & Hin).
  repeat split; try assumption.
  intros i Hi. apply Hsub, Hin, Hi.
Qed.

Lemma counted_once_reset (inv : CardInventory.t) (sess : gset N) :
  length (cards_seen inv) = 52%nat ->
  counted_once (CardInventory.reset inv) sess.
Proof.
  intros Hlen. unfold counted_once, CardInventory.reset.
  cbn [cards_seen total_cards_seen].
  split; [now rewrite length_replicate|].
  split; [|split].
  - apply Forall_replicate. now left.
  - now rewrite sumZ_replicate_0.
  - intros i Hi. apply lookup_replicate in Hi as [Hi _]. discriminate.
Qed.

(** Adding an identity that the static set does not hold yet. *)
Lemma counted_once_addCard (inv : CardInventory.t) (sess : gset N) (id : N) :
  id ∉ sess ->
  counted_once inv sess ->
  counted_once (fst (addCard id inv)) ({[ id ]} ∪ sess).
Proof.
  intros Hnew Hinv. unfold addCard.
  destruct (52 <=? id)%N eqn:Hid; simpl.
  - apply counted_once_mono with sess; [set_solver | exact Hinv].
  - apply N.leb_gt in Hid.
    pose proof (counted_once_total _ _ Hinv) as Htotal.
    destruct Hinv as (Hlen & Hbits & Htot & Hin).
    assert (Hlt : (N.to_nat id < length (cards_seen inv))%nat) by lia.
    destruct (lookup_lt_is_Some_2 _ _ Hlt) as [c Hc].
    assert (Hc0 : c = 0).
    { destruct (proj1 (Forall_lookup _ _) Hbits _ _ Hc) as [-> | ->];
        [reflexivity|].
      exfalso. apply Hnew. specialize (Hin _ Hc).
      now rewrite N2Nat.id in Hin. }
    subst c. unfold counted_once.
    cbn [cards_seen total_cards_seen fst].
    split; [now rewrite length_alter|].
    split; [|split].
    + apply Forall_alter; [exact Hbits|].
      intros c Hc'. rewrite Hc in Hc'. injection Hc' as <-.
      right. reflexivity.
    + rewrite (sumZ_alter _ _ _ _ Hc), <- Htot.
      change (uint8 (0 + 1)) with 1.
      rewrite uint32_small by lia. lia.
    + intros i Hi.
      destruct (decide (i = N.to_nat id)) as [-> | Hne].
      * rewrite N2Nat.id. apply elem_of_union_l, elem_of_singleton. reflexivity.
      * rewrite list_lookup_alter_ne in Hi by congruence.
        apply elem_of_union_r, Hin, Hi.
Qed.

(** The checks leave everything but the two detection flags (and, for
    [checkCardDisappearance], the empty-frame counter) as it is. *)
Lemma trigger_inventory (i : ShuffleIndicator.t) (s : ShuffleDetector.t) :
  m_inventory (triggerShuffleDetection i s) = m_inventory s.
Proof. unfold triggerShuffleDetection. now destruct (m_shuffleDetected s). Qed.

Lemma checks_inventory (now' : Z) (s : ShuffleDetector.t) :
  m_inventory
    (checkImpossibleSequence
       (checkCardDisappearance
          (checkInactivity now' (checkPenetration (checkCardDepletion s)))))
  = m_inventory s.
Proof.
  unfold checkImpossibleSequence, checkCardDisappearance, checkInactivity,
    checkPenetration, checkCardDepletion.
  repeat match goal with
         | |- context [if ?b then _ else _] => destruct b
         end;
    cbn [m_inventory set_consecutiveEmptyFrames];
    rewrite ?trigger_inventory; reflexivity.
Qed.

Lemma checkDuplicateCard_inventory (id : N) (s : ShuffleDetector.t) :
  m_inventory (checkDuplicateCard id s) = m_inventory s.
Proof.
  unfold checkDuplicateCard.
  repeat match goal with
         | |- context [if ?b then _ else _] => destruct b
         end;
    rewrite ?trigger_inventory; reflexivity.
Qed.

Lemma scan_detection_counted_once (p : process) (det : Detection) :
  counted_once (m_inventory (fst p)) (snd p) ->
  counted_once (m_inventory (fst (scan_detection p det)))
               (snd (scan_detection p det))
  /\ deck_count (m_inventory (fst (scan_detection p det)))
     = deck_count (m_inventory (fst p)).
Proof.
  destruct p as [s sess]. intros Hinv. unfold scan_detection.
  cbn [fst snd] in *.
  destruct (bool_decide (card_id det ∈ sess)) eqn:E;
    cbn [fst snd m_inventory set_recentCards set_inventory].
  - rewrite checkDuplicateCard_inventory. now split.
  - apply bool_decide_eq_false in E.
    rewrite checkDuplicateCard_inventory. split.
    + now apply counted_once_addCard.
    + unfold addCard. now destruct (52 <=? card_id det)%N.
Qed.

Lemma scan_frame_counted_once (now : Z) (dets : list Detection) (p : process) :
  counted_once (m_inventory (fst p)) (snd p) ->
  counted_once (m_inventory (fst (scan_frame now dets p)))
               (snd (scan_frame now dets p))
  /\ deck_count (m_inventory (fst (scan_frame now dets p)))
     = deck_count (m_inventory (fst p)).
Proof.
  unfold scan_frame. intros Hinv.
  assert (Hstart :
            counted_once
              (m_inventory (fst (note_frame now dets (fst p), snd p)))
              (snd (note_frame now dets (fst p), snd p))
            /\ deck_count
                 (m_inventory (fst (note_frame now dets (fst p), snd p)))
               = deck_count (m_inventory (fst p))).
  { destruct dets; split; exact Hinv || reflexivity. }
  revert Hstart.
  generalize (note_frame now dets (fst p), snd p) as q.
  induction dets as [|det dets IH]; intros q [Hq Hd]; simpl fold_left.
  - now split.
  - destruct (scan_detection_counted_once q det Hq) as [Hq' Hd'].
    apply IH. split; [exact Hq' | congruence].
Qed.

Lemma update_counted_once (now now' : Z) (dets : list Detection) (p : process) :
  counted_once (m_inventory (fst p)) (snd p) ->
  counted_once (m_inventory (fst (update now now' dets p)))
               (snd (update now now' dets p))
  /\ deck_count (m_inventory (fst (update now now' dets p)))
     = deck_count (m_inventory (fst p)).
Proof.
  intros Hinv. unfold update.
  destruct (scan_frame_counted_once now dets p Hinv) as [Hs Hd].
  destruct (scan_frame now dets p) as [s sess].
  cbn [fst snd m_inventory set_previousFrame] in *.
  rewrite checks_inventory. now split.
Qed.

End Inventory.

(** ** The Shuffle Detector: which indicator is latched *)
Section Indicators.
Import Machine Types CardInventory ShuffleDetector Props.

(** What one detection does to the history and the detection flags. *)
Lemma scan_detection_flags (p : process) (det : Detection) :
  let s := fst p in
  let s' := fst (scan_detection p det) in
  let dup := duplicate_fires (m_recentCards s) (card_id det) in
  m_recentCards s' = push_recent (m_recentCards s) (card_id det)
  /\ m_shuffleDetected s' = m_shuffleDetected s || dup
  /\ m_lastIndicator s'
     = if m_shuffleDetected s then m_lastIndicator s
       else if dup then ShuffleIndicator.DuplicateCard
       else m_lastIndicator s.
Proof.
  destruct p as [s sess]. cbn [fst].
  unfold scan_detection, checkDuplicateCard, duplicate_fires, push_recent,
    triggerShuffleDetection.
  rewrite Nat.ltb_antisym.
  destruct s as [inv lcd lrt sd li pfc pf recent dc pl ith mc cef].
  cbn [m_recentCards m_shuffleDetected m_lastIndicator].
  destruct (10 <=? length recent)%nat;
    destruct (existsb (N.eqb (card_id det)) (removelast recent));
    destruct sd;
    destruct (bool_decide (card_id det ∈ sess));
    cbn [negb andb orb fst snd m_recentCards m_shuffleDetected
         m_lastIndicator set_recentCards set_inventory set_detection];
    repeat split.
Qed.

(** The flags the loop of [update] leaves. *)
Lemma scan_frame_flags (now : Z) (dets : list Detection) (p : process) :
  let s := fst p in
  let s' := fst (scan_frame now dets p) in
  let dup := frame_fires (m_recentCards s) dets in
  m_shuffleDetected s' = m_shuffleDetected s || dup
  /\ m_lastIndicator s'
     = if m_shuffleDetected s then m_lastIndicator s
       else if dup then ShuffleIndicator.DuplicateCard
       else m_lastIndicator s.
Proof.
  cbn zeta. unfold scan_frame.
  assert (Hstart :
            m_recentCards (fst (note_frame now dets (fst p), snd p))
            = m_recentCards (fst p)
            /\ m_shuffleDetected (fst (note_frame now dets (fst p), snd p))
               = m_shuffleDetected (fst p)
            /\ m_lastIndicator (fst (note_frame now dets (fst p), snd p))
               = m_lastIndicator (fst p)).
  { destruct dets; repeat split. }
  destruct Hstart as (<- & <- & <-).
  generalize (note_frame now dets (fst p), snd p) as q.
  induction dets as [|det dets IH]; intros q; simpl fold_left.
  - cbn [frame_fires]. rewrite orb_false_r.
    split; [reflexivity | now destruct (m_shuffleDetected (fst q))].
  - destruct (scan_detection_flags q det) as (Hr & Hd & Hi).
    destruct (IH (scan_detection q det)) as [IHd IHi].
    rewrite IHd, IHi, Hr, Hd, Hi. cbn [frame_fires].
    destruct (m_shuffleDetected (fst q));
      destruct (duplicate_fires (m_recentCards (fst q)) (card_id det));
      cbn [orb]; split; try reflexivity;
      destruct (frame_fires _ dets); reflexivity.
Qed.

#[local] Ltac flags_step :=
  cbn [negb andb orb existsb first_holding snd m_inventory
       m_shuffleDetected m_lastIndicator m_minCardsBeforeReset
       m_penetrationLimit m_inactivityThresholdSec m_lastCardDetection
       m_consecutiveEmptyFrames set_detection set_consecutiveEmptyFrames].

(** The four checks that follow the loop latch the first of their
    conditions that holds, unless an indicator is latched already. *)
Lemma checks_flags (now' : Z) (s : ShuffleDetector.t) :
  let s' :=
    checkImpossibleSequence
      (checkCardDisappearance
         (checkInactivity now' (checkPenetration (checkCardDepletion s)))) in
  let conds :=
    [ (ShuffleIndicator.CardDepletion, depletion_holds s);
      (ShuffleIndicator.PenetrationReached, penetration_holds s);
      (ShuffleIndicator.LongPause, long_pause_holds now' s);
      (ShuffleIndicator.AllCardsGone, all_cards_gone_holds s) ] in
  m_shuffleDetected s' = m_shuffleDetected s || existsb snd conds
  /\ m_lastIndicator s'
     = if m_shuffleDetected s then m_lastIndicator s
       else match first_holding conds with
            | Some i => i
            | None => m_lastIndicator s
            end.
Proof.
  cbn zeta.
  unfold checkImpossibleSequence, checkCardDisappearance, checkInactivity,
    checkPenetration, checkCardDepletion, triggerShuffleDetection,
    depletion_holds, penetration_holds, long_pause_holds,
    all_cards_gone_holds, enough_cards, getTimeSinceLastCard.
  destruct s as [inv lcd lrt sd li pfc pf recent dc pl ith mc cef].
  pose proof (Z.leb_antisym (total_cards_seen inv) (uint32 mc)) as L.
  flags_step; destruct (isImpossible inv); destruct sd; flags_step;
    destruct (total_cards_seen inv <? uint32 mc) eqn:E;
    cbn [negb] in L; flags_step;
    destruct (hasReachedPenetrationLimit pl inv); flags_step;
    rewrite ?E; flags_step;
    destruct (ith <=? (now' - lcd) ÷ ticks_per_second); flags_step;
    destruct (EMPTY_FRAMES_THRESHOLD <=? cef); flags_step;
    rewrite ?L; flags_step; split; reflexivity.
Qed.

(** The indicator and the detection flag after a call of [update]:
    the checks are reached in the order duplicate card, card depletion,
    penetration, long pause, all cards gone, and the first whose
    condition holds is latched unless one was latched before. *)
Lemma update_flags (now now' : Z) (dets : list Detection) (p : process) :
  let s' := fst (update now now' dets p) in
  let conds := checks now now' dets p in
  m_shuffleDetected s' = m_shuffleDetected (fst p) || existsb snd conds
  /\ m_lastIndicator s'
     = if m_shuffleDetected (fst p) then m_lastIndicator (fst p)
       else match first_holding conds with
            | Some i => i
            | None => m_lastIndicator (fst p)
            end.
Proof.
  cbn zeta. unfold checks, update.
  destruct (scan_frame_flags now dets p) as [Hd Hi].
  destruct (scan_frame now dets p) as [s2 sess2].
  cbn [fst snd] in *.
  destruct (checks_flags now' s2) as [Cd Ci].
  cbn [m_shuffleDetected m_lastIndicator set_previousFrame].
  rewrite Cd, Ci, Hd, Hi.
  cbn [existsb first_holding snd].
  destruct (m_shuffleDetected (fst p)); cbn [orb]; [split; reflexivity|].
  destruct (frame_fires (m_recentCards (fst p)) dets);
    cbn [orb]; [split; reflexivity|].
  split; [reflexivity|].
  destruct (depletion_holds s2), (penetration_holds s2),
    (long_pause_holds now' s2), (all_cards_gone_holds s2); reflexivity.
Qed.
End Indicators.

(** ** The Shuffle Detector: what the indicators can and cannot do *)
Section Reachability.
Import Machine Types CardInventory ShuffleDetector Props.

Lemma do_calls_invariant (P : process -> Prop) :
  (forall (p : process) (c : call), P p -> P (do_call p c)) ->
  forall (calls : list call) (p : process), P p -> P (do_calls calls p).
Proof.
  intros Hstep calls.
  induction calls as [|c calls IH]; intros p Hp; simpl.
  - exact Hp.
  - apply IH, Hstep, Hp.
Qed.

(** The penetration limit is configuration: no call of the loop or of
    the checks changes it. *)
Lemma scan_detection_limit (p : process) (det : Detection) :
  m_penetrationLimit (fst (scan_detection p det))
  = m_penetrationLimit (fst p).
Proof.
  destruct p as [s sess].
  unfold scan_detection, checkDuplicateCard, triggerShuffleDetection.
  destruct s as [inv lcd lrt sd li pfc pf recent dc pl ith mc cef].
  cbn [fst m_recentCards m_shuffleDetected].
  destruct (length recent <? 10)%nat;
    destruct (existsb (N.eqb (card_id det)) (removelast recent));
    destruct sd;
    destruct (bool_decide (card_id det ∈ sess)); reflexivity.
Qed.

Lemma scan_frame_limit (now : Z) (dets : list Detection) (p : process) :
  m_penetrationLimit (fst (scan_frame now dets p))
  = m_penetrationLimit (fst p).
Proof.
  unfold scan_frame.
  assert (Hstart :
            m_penetrationLimit (fst (note_frame now dets (fst p), snd p))
            = m_penetrationLimit (fst p)) by (destruct dets; reflexivity).
  rewrite <- Hstart. clear Hstart.
  generalize (note_frame now dets (fst p), snd p) as q.
  induction dets as [|det dets IH]; intros q; simpl fold_left.
  - reflexivity.
  - rewrite IH. apply scan_detection_limit.
Qed.

Lemma checks_limit (now' : Z) (s : ShuffleDetector.t) :
  m_penetrationLimit
    (checkImpossibleSequence
       (checkCardDisappearance
          (checkInactivity now' (checkPenetration (checkCardDepletion s)))))
  = m_penetrationLimit s.
Proof.
  unfold checkImpossibleSequence, checkCardDisappearance, checkInactivity,
    checkPenetration, checkCardDepletion, triggerShuffleDetection.
  repeat match goal with
         | |- context [if ?b then _ else _] => destruct b
         end;
    reflexivity.
Qed.

Lemma update_limit (now now' : Z) (dets : list Detection) (p : process) :
  m_penetrationLimit (fst (update now now' dets p))
  = m_penetrationLimit (fst p).
Proof.
  unfold update.
  pose proof (scan_frame_limit now dets p) as Hs.
  destruct (scan_frame now dets p) as [s sess].
  cbn [fst m_penetrationLimit set_previousFrame] in *.
  now rewrite checks_limit.
Qed.

(** An inventory that counts every identity at most once is never
    impossible, as long as the 32-bit product [deck_count * 52] is at
    least 52. *)
Lemma counted_once_possible (inv : CardInventory.t) (sess : gset N) :
  counted_once inv sess ->
  1 <= deck_count inv ->
  52 <= uint32 (deck_count inv * 52) ->
  isImpossible inv = false.
Proof.
  intros Hinv Hdeck Hmax.
  pose proof (counted_once_total _ _ Hinv) as Htotal.
  destruct Hinv as (_ & Hbits & _ & _).
  unfold isImpossible.
  assert (Hex : existsb (fun count => deck_count inv <? count)
                        (cards_seen inv) = false).
  { induction Hbits as [|c l Hc _ IH]; [reflexivity|].
    cbn [existsb]. rewrite IH, orb_false_r.
    apply Z.ltb_ge. lia. }
  rewrite Hex.
  destruct (uint32 (deck_count inv * 52) <? total_cards_seen inv) eqn:E;
    [|reflexivity].
  apply Z.ltb_lt in E. lia.
Qed.

(** With six decks and a limit of 0.75 no total up to 52 reaches the
    limit: 52 / 312 is a sixth. *)
Lemma six_decks_out_of_reach (inv : CardInventory.t) :
  deck_count inv = 6 ->
  0 <= total_cards_seen inv <= 52 ->
  hasReachedPenetrationLimit (3 # 4) inv = false.
Proof.
  destruct inv as [cs total deck]. cbn [deck_count total_cards_seen].
  intros -> Htotal.
  assert (Hall :
            forallb
              (fun n : nat =>
                 negb (hasReachedPenetrationLimit (3 # 4)
                         (CardInventory.mk [] (Z.of_nat n) 6)))
              (seq 0 53) = true) by (vm_compute; reflexivity).
  rewrite forallb_forall in Hall.
  specialize (Hall (Z.to_nat total)).
  rewrite Z2Nat.id in Hall by lia.
  apply negb_true_iff, Hall, in_seq. lia.
Qed.

Lemma update_not_depletion (now now' : Z) (dets : list Detection)
    (p : process) :
  counted_once (m_inventory (fst p)) (snd p) ->
  1 <= deck_count (m_inventory (fst p)) ->
  52 <= uint32 (deck_count (m_inventory (fst p)) * 52) ->
  m_lastIndicator (fst p) <> ShuffleIndicator.CardDepletion ->
  m_lastIndicator (fst (update now now' dets p))
  <> ShuffleIndicator.CardDepletion.
Proof.
  intros Hinv Hdeck Hmax Hind.
  destruct (update_flags now now' dets p) as [_ ->].
  destruct (m_shuffleDetected (fst p)); [exact Hind|].
  unfold checks.
  destruct (scan_frame_counted_once now dets p Hinv) as [Hs Hd].
  assert (Hdep : depletion_holds (fst (scan_frame now dets p)) = false).
  { unfold depletion_holds.
    apply counted_once_possible with (snd (scan_frame now dets p));
      [exact Hs | now rewrite Hd | now rewrite Hd]. }
  rewrite Hdep. cbn [first_holding].
  repeat match goal with
         | |- context [if ?b then _ else _] => destruct b
         end;
    try discriminate; exact Hind.
Qed.

Lemma update_not_penetration (now now' : Z) (dets : list Detection)
    (p : process) :
  counted_once (m_inventory (fst p)) (snd p) ->
  deck_count (m_inventory (fst p)) = 6 ->
  m_penetrationLimit (fst p) = 3 # 4 ->
  m_lastIndicator (fst p) <> ShuffleIndicator.PenetrationReached ->
  m_lastIndicator (fst (update now now' dets p))
  <> ShuffleIndicator.PenetrationReached.
Proof.
  intros Hinv Hdeck Hlim Hind.
  destruct (update_flags now now' dets p) as [_ ->].
  destruct (m_shuffleDetected (fst p)); [exact Hind|].
  unfold checks.
  destruct (scan_frame_counted_once now dets p Hinv) as [Hs Hd].
  assert (Hpen : penetration_holds (fst (scan_frame now dets p)) = false).
  { unfold penetration_holds.
    rewrite scan_frame_limit, Hlim, six_decks_out_of_reach.
    - apply andb_false_r.
    - now rewrite Hd.
    - apply (counted_once_total _ _ Hs). }
  rewrite Hpen. cbn [first_holding].
  repeat match goal with
         | |- context [if ?b then _ else _] => destruct b
         end;
    try discriminate; exact Hind.
Qed.
End Reachability.

(** ** The Shuffle Detector: priority, penetration, duplicates, depletion *)
Section DetectorProperties.
Import Machine Types CardInventory ShuffleDetector Props.

(** C1 as worded fails.  Take the detector of a one-deck game after 38
    distinct cards, one per frame, and the frame that shows identity 38
    and identity 0 again: the penetration condition (39 of 52) and the
    duplicate condition both hold, and DuplicateCard is latched. *)
Lemma C1_counterexample : ~ C1_as_stated.
Proof.
  intros H.
  set (p := run (single_card_frames (ids_upto 38))
                (initialize 1 (3 # 4) (ShuffleDetector.new 0), ∅)).
  set (dets := [mkDetection 38; mkDetection 0]).
  specialize (H 0 0 dets p).
  assert (Hfree : isShuffleDetected (fst p) = false)
    by (vm_compute; reflexivity).
  assert (Htwo : (2 <= holding (conditions 0 0 dets p))%nat)
    by (vm_compute; lia).
  specialize (H Hfree Htwo).
  vm_compute in H. discriminate H.
Qed.

Lemma removelast_In (l : list N) (x : N) : In x (removelast l) -> In x l.
Proof.
  induction l as [|y l IH]; [intros []|].
  destruct l as [|z l]; [intros []|].
  change (removelast (y :: z :: l)) with (y :: removelast (z :: l)).
  intros [-> | H]; [now left | right; now apply IH].
Qed.

Lemma In_removelast (l : list N) (x : N) :
  In x l -> last l <> Some x -> In x (removelast l).
Proof.
  induction l as [|y l IH]; [intros []|].
  destruct l as [|z l].
  - intros [-> | []] H. now elim H.
  - change (removelast (y :: z :: l)) with (y :: removelast (z :: l)).
    change (last (y :: z :: l)) with (last (z :: l)).
    intros [-> | H] Hl; [now left | right; now apply IH].
Qed.

(** What [checkDuplicateCard] tests lies between the two conditions of
    the vocabulary: it implies the DuplicateCard condition, and the
    DuplicateCard condition for an identity that is not the entry
    pushed last implies it. *)
Lemma duplicate_fires_holds (recent : list N) (id : N) :
  duplicate_fires recent id = true -> duplicate_holds recent id = true.
Proof.
  unfold duplicate_fires, duplicate_holds.
  intros H. apply andb_true_iff in H as [Hlen Hex].
  rewrite Hlen. cbn [andb].
  apply existsb_exists in Hex as (x & Hin & Heq).
  apply existsb_exists. exists x. split; [now apply removelast_In | exact Heq].
Qed.

Lemma duplicate_of_earlier_fires (recent : list N) (id : N) :
  duplicate_of_earlier recent id = true -> duplicate_fires recent id = true.
Proof.
  unfold duplicate_of_earlier, duplicate_holds, duplicate_fires.
  intros H. apply andb_true_iff in H as [H Hlast].
  apply andb_true_iff in H as [Hlen Hex].
  rewrite Hlen. cbn [andb].
  apply existsb_exists in Hex as (x & Hin & Heq).
  apply N.eqb_eq in Heq. subst x.
  apply existsb_exists. exists id. split; [|apply N.eqb_refl].
  apply In_removelast; [exact Hin|].
  intros Hl. rewrite Hl, N.eqb_refl in Hlast. discriminate Hlast.
Qed.

Lemma frame_fires_duplicate (dets : list Detection) :
  forall recent : list N,
    frame_fires recent dets = true -> frame_duplicate recent dets = true.
Proof.
  induction dets as [|det dets IH]; intros recent; simpl; [discriminate|].
  intros H. apply orb_true_iff in H as [H | H]; apply orb_true_iff.
  - left. now apply duplicate_fires_holds.
  - right. now apply IH.
Qed.

Lemma frame_duplicate_of_earlier_fires (dets : list Detection) :
  forall recent : list N,
    frame_duplicate_of_earlier recent dets = true ->
    frame_fires recent dets = true.
Proof.
  induction dets as [|det dets IH]; intros recent; simpl; [discriminate|].
  intros H. apply orb_true_iff in H as [H | H]; apply orb_true_iff.
  - left. now apply duplicate_of_earlier_fires.
  - right. now apply IH.
Qed.

(** A latched detector stays as it is under any run of [update]. *)
Lemma run_latched (frames : list frame) :
  forall p : process,
    m_shuffleDetected (fst p) = true ->
    m_shuffleDetected (fst (run frames p)) = true
    /\ m_lastIndicator (fst (run frames p)) = m_lastIndicator (fst p).
Proof.
  induction frames as [|f frames IH]; intros p Hp; simpl.
  - now split.
  - destruct (update_flags (clock_entry f) (clock_check f) (detections f) p)
      as [Hd Hi].
    rewrite Hp in Hd, Hi. cbn [orb] in Hd.
    destruct (IH (step p f) Hd) as [IHd IHi].
    split; [exact IHd|]. unfold step in *. now rewrite IHi.
Qed.

(** C1, amended.  On a detector that has not latched an indicator,
    [update] evaluates DuplicateCard first, per detection inside the
    loop, and CardDepletion, PenetrationReached, LongPause and
    AllCardsGone after the loop, in this order.  The conditions are
    those of the specification; DuplicateCard: the identity is already
    in the recent-history buffer of ten entries or more.  Then
    - a shuffle is detected only with DuplicateCard latched, one of
      whose conditions held, or with the first of the other four whose
      condition held;
    - DuplicateCard is latched, whatever the other four conditions
      are, when its condition held for an identity that is not the
      entry the buffer received last;
    - when one of the other four conditions held a shuffle is
      detected, and when the DuplicateCard condition held for no
      detection the first of the four that held is latched;
    - when no shuffle is detected the indicator is as it was;
    - once latched, flag and indicator are changed by no run of
      further calls. *)
Theorem C1_indicator_priority (now now' : Z) (dets : list Detection)
    (p : process) :
  isShuffleDetected (fst p) = false ->
  let s' := fst (update now now' dets p) in
  let four := state_conditions now' (fst (scan_frame now dets p)) in
  let dup := frame_duplicate (m_recentCards (fst p)) dets in
  (isShuffleDetected s' = true ->
   (getLastIndicator s' = ShuffleIndicator.DuplicateCard /\ dup = true)
   \/ first_holding four = Some (getLastIndicator s'))
  /\ (frame_duplicate_of_earlier (m_recentCards (fst p)) dets = true ->
      isShuffleDetected s' = true
      /\ getLastIndicator s' = ShuffleIndicator.DuplicateCard)
  /\ (existsb snd four = true -> isShuffleDetected s' = true)
  /\ (dup = false ->
      isShuffleDetected s' = existsb snd four
      /\ getLastIndicator s'
         = match first_holding four with
           | Some i => i
           | None => getLastIndicator (fst p)
           end)
  /\ (isShuffleDetected s' = false ->
      getLastIndicator s' = getLastIndicator (fst p))
  /\ (isShuffleDetected s' = true ->
      forall frames : list frame,
        isShuffleDetected (fst (run frames (update now now' dets p))) = true
        /\ getLastIndicator (fst (run frames (update now now' dets p)))
           = getLastIndicator s').
Proof.
  intros Hfree. cbn zeta.
  destruct (update_flags now now' dets p) as [Hd Hi].
  unfold isShuffleDetected, getLastIndicator in *.
  rewrite Hfree in Hd, Hi. cbn [orb] in Hd.
  change (checks now now' dets p)
    with ((ShuffleIndicator.DuplicateCard,
           frame_fires (m_recentCards (fst p)) dets)
            :: state_conditions now' (fst (scan_frame now dets p)))
    in Hd, Hi.
  pose proof (frame_fires_duplicate dets (m_recentCards (fst p))) as Hfs.
  pose proof (frame_duplicate_of_earlier_fires dets (m_recentCards (fst p)))
    as Hef.
  set (four := state_conditions now' (fst (scan_frame now dets p))) in *.
  set (fires := frame_fires (m_recentCards (fst p)) dets) in *.
  set (dup := frame_duplicate (m_recentCards (fst p)) dets) in *.
  set (earlier := frame_duplicate_of_earlier (m_recentCards (fst p)) dets)
    in *.
  clearbody four fires dup earlier.
  cbn [existsb first_holding snd] in Hd, Hi.
  assert (Hnone : existsb snd four = false -> first_holding four = None).
  { clear. induction four as [|[i [|]] l IH]; simpl; auto. discriminate. }
  assert (Hsome : existsb snd four = true ->
                  exists i, first_holding four = Some i).
  { clear. induction four as [|[i [|]] l IH]; simpl; eauto. discriminate. }
  split; [|split; [|split; [|split; [|split]]]].
  - (* what is latched *)
    intros Hdet. destruct fires.
    + left. split; [exact Hi | now apply Hfs].
    + right. cbn [orb] in Hd. rewrite Hdet in Hd. symmetry in Hd.
      destruct (Hsome Hd) as (i & Hfirst).
      rewrite Hfirst in Hi |- *. now rewrite Hi.
  - (* DuplicateCard ahead of the four *)
    intros He. rewrite (Hef He) in Hd, Hi. split; [exact Hd | exact Hi].
  - (* one of the four holds *)
    intros H4. rewrite Hd, H4. apply orb_true_r.
  - (* no duplicate *)
    intros Hdup. destruct fires; [|split; [exact Hd | exact Hi]].
    rewrite Hfs in Hdup by reflexivity. discriminate Hdup.
  - (* nothing latched *)
    intros Hdet. rewrite Hdet in Hd. symmetry in Hd.
    apply orb_false_iff in Hd as [-> H4].
    rewrite Hi, (Hnone H4). reflexivity.
  - intros Hdet frames.
    apply (run_latched frames (update now now' dets p) Hdet).
Qed.

Lemma C1_indicator_priority_witness :
  let p := run (single_card_frames (ids_upto 38))
               (initialize 1 (3 # 4) (ShuffleDetector.new 0), ∅) in
  let dets := [mkDetection 38; mkDetection 0] in
  penetration_holds (fst (scan_frame 0 dets p)) = true
  /\ frame_duplicate (m_recentCards (fst p)) dets = true
  /\ getLastIndicator (fst (update 0 0 dets p))
     = ShuffleIndicator.DuplicateCard.
Proof.
  intros p dets.
  assert (Hfree : isShuffleDetected (fst p) = false)
    by (vm_compute; reflexivity).
  destruct (C1_indicator_priority 0 0 dets p Hfree)
    as (_ & Hearlier & _).
  split; [vm_compute; reflexivity|].
  split; [vm_compute; reflexivity|].
  apply Hearlier. vm_compute. reflexivity.
Defined.

(** Between DuplicateCard and the other four there is no fixed order in
    the terms of the specification.  One deck, the identities 0 to 37
    seen, and the frame that shows identity 37 again and identity 38:
    the DuplicateCard condition holds for 37, the entry the buffer
    received last, and the penetration condition holds (39 of 52); the
    check in the loop passes over the last entry and
    PenetrationReached is latched. *)
Example duplicate_of_last_entry_yields :
  let p := run (single_card_frames (ids_upto 38))
               (initialize 1 (3 # 4) (ShuffleDetector.new 0), ∅) in
  let dets := [mkDetection 37; mkDetection 38] in
  frame_duplicate (m_recentCards (fst p)) dets = true
  /\ frame_duplicate_of_earlier (m_recentCards (fst p)) dets = false
  /\ penetration_holds (fst (scan_frame 0 dets p)) = true
  /\ getLastIndicator (fst (update 0 0 dets p))
     = ShuffleIndicator.PenetrationReached.
Proof. vm_compute. repeat split; reflexivity. Qed.

(** C2 on the code.  [checkPenetration] itself has the threshold the
    scenario names: with six decks, limit 0.75 and a minimum of 26
    cards it latches PenetrationReached at a total of 234 and leaves
    the detector alone at every total up to 233.  But [update] never
    lets the total pass 52: whatever calls of [update] and [reset]
    follow [initialize(6, 0.75)], PenetrationReached is never latched.
    Fed the first 234 cards of a shoe, one per frame, the detector ends
    with a total of 52 and DuplicateCard latched. *)
Theorem C2_penetration_six_decks :
  (forall s : ShuffleDetector.t,
      deck_count (m_inventory s) = 6 ->
      m_penetrationLimit s = 3 # 4 ->
      m_minCardsBeforeReset s = 26 ->
      m_shuffleDetected s = false ->
      (total_cards_seen (m_inventory s) = 234 ->
       getLastIndicator (checkPenetration s)
       = ShuffleIndicator.PenetrationReached)
      /\ (0 <= total_cards_seen (m_inventory s) <= 233 ->
          checkPenetration s = s))
  /\ (forall (now0 : Z) (session_cards : gset N) (calls : list call),
         let p := do_calls calls
                    (initialize 6 (3 # 4) (ShuffleDetector.new now0),
                     session_cards) in
         total_cards_seen (m_inventory (fst p)) <= 52
         /\ getLastIndicator (fst p) <> ShuffleIndicator.PenetrationReached)
  /\ (let p := run (single_card_frames (shoe_identities 234))
                   (initialize 6 (3 # 4) (ShuffleDetector.new 0), ∅) in
      total_cards_seen (m_inventory (fst p)) = 52
      /\ getLastIndicator (fst p) = ShuffleIndicator.DuplicateCard).
Proof.
  split; [|split; [|vm_compute; split; reflexivity]].
  - intros s Hdeck Hlim Hmin Hfree.
    unfold checkPenetration, triggerShuffleDetection, getLastIndicator.
    rewrite Hlim, Hmin, Hfree.
    destruct (m_inventory s) as [cs total deck].
    cbn [deck_count total_cards_seen] in *. subst deck.
    split.
    + intros ->. vm_compute. reflexivity.
    + intros Htotal.
      assert (Hall :
                forallb
                  (fun n : nat =>
                     (Z.of_nat n <? uint32 26)
                     || negb (hasReachedPenetrationLimit (3 # 4)
                                (CardInventory.mk [] (Z.of_nat n) 6)))
                  (seq 0 234) = true) by (vm_compute; reflexivity).
      rewrite forallb_forall in Hall.
      specialize (Hall (Z.to_nat total)).
      rewrite Z2Nat.id in Hall by lia.
      destruct (total <? uint32 26); [reflexivity|].
      change (hasReachedPenetrationLimit (3 # 4) (CardInventory.mk cs total 6))
        with (hasReachedPenetrationLimit (3 # 4) (CardInventory.mk [] total 6)).
      cbn [orb] in Hall.
      rewrite (proj1 (negb_true_iff _) (Hall ltac:(apply in_seq; lia))).
      reflexivity.
  - intros now0 session_cards calls.
    set (J := fun p : process =>
                counted_once (m_inventory (fst p)) (snd p)
                /\ deck_count (m_inventory (fst p)) = 6
                /\ m_penetrationLimit (fst p) = 3 # 4
                /\ m_lastIndicator (fst p)
                   <> ShuffleIndicator.PenetrationReached).
    assert (HJ : J (do_calls calls
                      (initialize 6 (3 # 4) (ShuffleDetector.new now0),
                       session_cards))).
    { apply do_calls_invariant.
      - intros p [f | now] (Hinv & Hdeck & Hlim & Hind); unfold J; simpl.
        + destruct (update_counted_once (clock_entry f) (clock_check f)
                      (detections f) p Hinv) as [Hinv' Hdeck'].
          unfold step. split; [exact Hinv'|]. split; [congruence|].
          split; [now rewrite update_limit|].
          now apply update_not_penetration.
        + split; [apply counted_once_reset, Hinv|].
          repeat split; try assumption. discriminate.
      - unfold J. cbn [fst snd initialize m_inventory m_penetrationLimit
                         m_lastIndicator ShuffleDetector.new].
        split; [now apply counted_once_reset|].
        repeat split. discriminate. }
    destruct HJ as (Hinv & _ & _ & Hind).
    split; [apply (counted_once_total _ _ Hinv) | exact Hind].
Qed.

Lemma C2_penetration_six_decks_witness :
  let s := set_inventory (CardInventory.mk (replicate 52 0) 234 6)
                         (ShuffleDetector.new 0) in
  getLastIndicator (checkPenetration s) = ShuffleIndicator.PenetrationReached.
Proof.
  intros s.
  destruct C2_penetration_six_decks as [Hcheck _].
  assert (Hdeck : deck_count (m_inventory s) = 6) by reflexivity.
  assert (Hlim : m_penetrationLimit s = 3 # 4) by reflexivity.
  assert (Hmin : m_minCardsBeforeReset s = 26) by reflexivity.
  assert (Hfree : m_shuffleDetected s = false) by reflexivity.
  destruct (Hcheck s Hdeck Hlim Hmin Hfree) as [Hat _].
  apply Hat. reflexivity.
Defined.

(** [checkDuplicateCard] does nothing while the history is shorter than
    ten entries, and it never looks at the last entry of the history. *)
Lemma checkDuplicateCard_short (id : N) (s : ShuffleDetector.t) :
  (length (m_recentCards s) < 10)%nat -> checkDuplicateCard id s = s.
Proof.
  intros Hlen. unfold checkDuplicateCard.
  now rewrite (proj2 (Nat.ltb_lt _ _) Hlen).
Qed.

Lemma checkDuplicateCard_fires (id : N) (s : ShuffleDetector.t) :
  m_shuffleDetected s = false ->
  (getLastIndicator (checkDuplicateCard id s) = ShuffleIndicator.DuplicateCard
   /\ isShuffleDetected (checkDuplicateCard id s) = true)
  <-> (10 <= length (m_recentCards s))%nat
      /\ In id (removelast (m_recentCards s)).
Proof.
  intros Hfree.
  unfold checkDuplicateCard, triggerShuffleDetection, getLastIndicator,
    isShuffleDetected.
  rewrite Hfree.
  destruct (length (m_recentCards s) <? 10)%nat eqn:Hlen.
  - apply Nat.ltb_lt in Hlen. rewrite Hfree.
    split; [intros [_ H]; discriminate | intros [H _]; lia].
  - apply Nat.ltb_ge in Hlen.
    destruct (existsb (N.eqb id) (removelast (m_recentCards s))) eqn:Hex.
    + apply existsb_exists in Hex as (x & Hin & Heq).
      apply N.eqb_eq in Heq. subst x.
      split; [intros _; now split | intros _; now split].
    + rewrite Hfree.
      split; [intros [_ H]; discriminate|].
      intros [_ Hin]. exfalso.
      assert (Ht : existsb (N.eqb id) (removelast (m_recentCards s)) = true).
      { apply existsb_exists. exists id. split; [exact Hin|].
        apply N.eqb_refl. }
      congruence.
Qed.

(** C6 at the failing input.  After ten distinct confirmed cards
    (identities 0 to 9, one per frame) the history holds ten entries
    and identity 9 is its last one.  Detecting identity 9 again latches
    nothing: the search stops before the last entry.  Detecting
    identity 8 instead latches DuplicateCard. *)
Theorem C6_duplicate_of_last_entry_missed :
  let p := run (single_card_frames (ids_upto 10))
               (ShuffleDetector.new 0, ∅) in
  m_recentCards (fst p) = ids_upto 10
  /\ In 9%N (m_recentCards (fst p))
  /\ isShuffleDetected (fst p) = false
  /\ isShuffleDetected (fst (update 0 0 [mkDetection 9] p)) = false
  /\ getLastIndicator (fst (update 0 0 [mkDetection 9] p))
     = ShuffleIndicator.None
  /\ getLastIndicator (fst (update 0 0 [mkDetection 8] p))
     = ShuffleIndicator.DuplicateCard.
Proof.
  vm_compute. repeat split; try reflexivity.
  do 9 right. left. reflexivity.
Qed.

(** The invariant behind C10, for every deck count whose product with
    52 in 32 bits is at least 52. *)
Lemma inventory_counts_once (deck_count0 : Z) (penetration_limit : Q)
    (s0 : ShuffleDetector.t) (session_cards : gset N) (calls : list call) :
  length (cards_seen (m_inventory s0)) = 52%nat ->
  1 <= deck_count0 ->
  52 <= uint32 (deck_count0 * 52) ->
  let p := do_calls calls
             (initialize deck_count0 penetration_limit s0, session_cards) in
  let inv := m_inventory (fst p) in
  Forall (fun c => c <= 1) (cards_seen inv)
  /\ total_cards_seen inv <= 52
  /\ isImpossible inv = false
  /\ (getLastIndicator s0 <> ShuffleIndicator.CardDepletion ->
      getLastIndicator (fst p) <> ShuffleIndicator.CardDepletion).
Proof.
  intros Hlen Hdeck Hmax p inv.
  set (J := fun q : process =>
              counted_once (m_inventory (fst q)) (snd q)
              /\ deck_count (m_inventory (fst q)) = deck_count0
              /\ (getLastIndicator s0 <> ShuffleIndicator.CardDepletion ->
                  m_lastIndicator (fst q) <> ShuffleIndicator.CardDepletion)).
  assert (HJ : J p).
  { apply do_calls_invariant.
    - intros q [f | now] (Hinv & Hd & Hind); unfold J; simpl.
      + destruct (update_counted_once (clock_entry f) (clock_check f)
                    (detections f) q Hinv) as [Hinv' Hd'].
        unfold step. split; [exact Hinv'|]. split; [congruence|].
        intros H0. apply update_not_depletion;
          [exact Hinv | rewrite Hd; exact Hdeck | rewrite Hd; exact Hmax
          | exact (Hind H0)].
      + split; [apply counted_once_reset, Hinv|].
        split; [exact Hd|]. intros _. discriminate.
    - unfold J. cbn [fst snd initialize m_inventory m_lastIndicator].
      split; [now apply counted_once_reset|].
      split; [reflexivity|]. intros H0. exact H0. }
  destruct HJ as (Hinv & Hd & Hind).
  split; [|split; [|split]].
  - destruct Hinv as (_ & Hbits & _ & _).
    eapply Forall_impl; [exact Hbits|].
    intros c [-> | ->]; lia.
  - apply (counted_once_total _ _ Hinv).
  - apply counted_once_possible with (snd p);
      [exact Hinv | fold inv in Hd |- *; rewrite Hd; exact Hdeck
      | fold inv in Hd |- *; rewrite Hd; exact Hmax].
  - exact Hind.
Qed.

(** C10 on the code.  While the product [deck_count * 52] fits 32 bits
    (every deck count from 1 to 82,595,524) the claim holds: after
    [initialize], whatever calls of [update] and [reset] follow, every
    per-identity count of the inventory stays at most 1, the total
    stays at most 52, [isImpossible] is false, and CardDepletion is
    never latched.  [isImpossible] computes the size of the shoe in 32
    bits: with 82,595,525 decks the product wraps around to 4, and
    after [initialize] one frame with the five identities 0 to 4 makes
    [isImpossible] true with five cards seen, and CardDepletion is
    latched. *)
Theorem C10_inventory_counts_once :
  (forall (deck_count0 : Z) (penetration_limit : Q) (s0 : ShuffleDetector.t)
          (session_cards : gset N) (calls : list call),
      length (cards_seen (m_inventory s0)) = 52%nat ->
      1 <= deck_count0 ->
      deck_count0 * 52 < 2 ^ 32 ->
      let p := do_calls calls
                 (initialize deck_count0 penetration_limit s0,
                  session_cards) in
      let inv := m_inventory (fst p) in
      Forall (fun c => c <= 1) (cards_seen inv)
      /\ total_cards_seen inv <= 52
      /\ isImpossible inv = false
      /\ (getLastIndicator s0 <> ShuffleIndicator.CardDepletion ->
          getLastIndicator (fst p) <> ShuffleIndicator.CardDepletion))
  /\ (let p := run [mkFrame (map mkDetection (ids_upto 5)) 0 0]
                   (initialize 82595525 (3 # 4) (ShuffleDetector.new 0), ∅) in
      let inv := m_inventory (fst p) in
      1 <= deck_count inv < 2 ^ 32
      /\ uint32 (deck_count inv * 52) = 4
      /\ Forall (fun c => c <= 1) (cards_seen inv)
      /\ total_cards_seen inv = 5
      /\ isImpossible inv = true
      /\ getLastIndicator (fst p) = ShuffleIndicator.CardDepletion).
Proof.
  split.
  - intros deck_count0 penetration_limit s0 session_cards calls
           Hlen Hdeck Hfit.
    apply inventory_counts_once; [exact Hlen | exact Hdeck|].
    unfold uint32. rewrite Z.mod_small by lia. lia.
  - vm_compute. repeat split; try reflexivity; try discriminate.
    repeat constructor; discriminate.
Qed.

Lemma C10_inventory_counts_once_witness :
  let p := do_calls
             [Update (mkFrame (map mkDetection [3; 3; 51; 7]%N) 0 0);
              Reset 5;
              Update (mkFrame (map mkDetection [3; 20]%N) 9 9)]
             (initialize 6 (3 # 4) (ShuffleDetector.new 0), ∅) in
  total_cards_seen (m_inventory (fst p)) <= 52
  /\ isImpossible (m_inventory (fst p)) = false.
Proof.
  intros p.
  destruct C10_inventory_counts_once as [Hholds _].
  destruct (Hholds 6 (3 # 4) (ShuffleDetector.new 0) ∅
              [Update (mkFrame (map mkDetection [3; 3; 51; 7]%N) 0 0);
               Reset 5;
               Update (mkFrame (map mkDetection [3; 20]%N) 9 9)])
    as (_ & Htotal & Himp & _).
  - reflexivity.
  - lia.
  - lia.
  - split; [exact Htotal | exact Himp].
Defined.
End DetectorProperties.

(** ** Rounding: sign and positivity *)
Section Rounding.
Import Machine.

Lemma round_half_even_floor (n d : Z) :
  0 < d -> n / d <= round_half_even n d <= n / d + 1.
Proof.
  intros Hd. unfold round_half_even.
  destruct (2 * (n mod d) <? d); [lia|].
  destruct (d <? 2 * (n mod d)); [lia|].
  destruct (Z.even (n / d)); lia.
Qed.

Lemma round_half_even_pos (n d : Z) :
  0 < d -> d <= n -> 1 <= round_half_even n d.
Proof.
  intros Hd Hn.
  pose proof (round_half_even_floor n d Hd) as [Hlo _].
  assert (1 <= n / d) by (apply Z.div_le_lower_bound; lia).
  lia.
Qed.

Lemma round_half_even_nonneg (n d : Z) :
  0 < d -> 0 <= n -> 0 <= round_half_even n d.
Proof.
  intros Hd Hn.
  pose proof (round_half_even_floor n d Hd) as [Hlo _].
  pose proof (Z.div_pos n d Hn Hd). lia.
Qed.

(** [binade p q] is at most the binary logarithm of [p / q]. *)
Lemma binade_lower (p q : Z) :
  0 < p -> 0 < q ->
  (0 <= binade p q -> q * 2 ^ binade p q <= p)
  /\ (binade p q < 0 -> q <= p * 2 ^ (- binade p q)).
Proof.
  intros Hp Hq. unfold binade.
  pose proof (Z.log2_spec p Hp) as [Hpl Hpu].
  pose proof (Z.log2_spec q Hq) as [Hql Hqu].
  pose proof (Z.log2_nonneg p) as Hlp.
  pose proof (Z.log2_nonneg q) as Hlq.
  set (lp := Z.log2 p) in *. set (lq := Z.log2 q) in *.
  rewrite Z.pow_succ_r in Hpu, Hqu by assumption.
  destruct (0 <=? lp - lq) eqn:E0.
  - apply Z.leb_le in E0.
    destruct (p <? q * 2 ^ (lp - lq)) eqn:Eb.
    + (* one below *)
      split; intros He.
      * assert (Hsplit : 2 ^ lp = 2 * 2 ^ lq * 2 ^ (lp - lq - 1)).
        { rewrite <- (Z.pow_succ_r 2 lq) by exact Hlq.
          rewrite <- Z.pow_add_r; [f_equal; lia | lia | exact He]. }
        assert (0 < 2 ^ (lp - lq - 1)) by (apply Z.pow_pos_nonneg; lia).
        assert (q * 2 ^ (lp - lq - 1) <= 2 * 2 ^ lq * 2 ^ (lp - lq - 1))
          by (apply Z.mul_le_mono_nonneg_r; lia).
        lia.
      * assert (Heq : 2 ^ lp = 2 ^ lq) by (f_equal; lia).
        replace (- (lp - lq - 1)) with 1 by lia.
        change (2 ^ 1) with 2. lia.
    + apply Z.ltb_ge in Eb. split; intros He; [exact Eb | lia].
  - apply Z.leb_gt in E0.
    destruct (p * 2 ^ (- (lp - lq)) <? q) eqn:Eb.
    + split; intros He; [lia|].
      replace (- (lp - lq - 1)) with (lq + 1 - lp) by lia.
      assert (Hsplit : 2 * 2 ^ lq = 2 ^ lp * 2 ^ (lq + 1 - lp)).
      { rewrite <- (Z.pow_succ_r 2 lq) by exact Hlq.
        rewrite <- Z.pow_add_r; [f_equal; lia | lia | lia]. }
      assert (0 < 2 ^ (lq + 1 - lp)) by (apply Z.pow_pos_nonneg; lia).
      assert (2 ^ lp * 2 ^ (lq + 1 - lp) <= p * 2 ^ (lq + 1 - lp))
        by (apply Z.mul_le_mono_nonneg_r; lia).
      lia.
    + apply Z.ltb_ge in Eb. split; intros He; [lia | exact Eb].
Qed.

(** Rounding does not change the sign. *)
Lemma round_float_sign (prec emin : Z) (x : Q) :
  (0 <= Qnum x -> 0 <= Qnum (round_float prec emin x))
  /\ (Qnum x <= 0 -> Qnum (round_float prec emin x) <= 0).
Proof.
  unfold round_float.
  destruct (Z.abs (Qnum x) =? 0) eqn:E0; [simpl; lia|].
  apply Z.eqb_neq in E0.
  set (p := Z.abs (Qnum x)) in *. set (q := Z.pos (Qden x)).
  set (e := Z.max (binade p q) emin). set (u := e - (prec - 1)).
  assert (Hq : 0 < q) by (subst q; lia).
  assert (Hp : 0 <= p) by (subst p; lia).
  assert (Hm : 0 <= (if 0 <=? u then round_half_even p (q * 2 ^ u)
                     else round_half_even (p * 2 ^ (- u)) q)).
  { destruct (0 <=? u) eqn:Eu.
    - apply Z.leb_le in Eu. apply round_half_even_nonneg; [|lia].
      assert (0 < 2 ^ u) by (apply Z.pow_pos_nonneg; lia). nia.
    - apply Z.leb_gt in Eu. apply round_half_even_nonneg; [lia|].
      assert (0 < 2 ^ (- u)) by (apply Z.pow_pos_nonneg; lia). nia. }
  set (m := if 0 <=? u then _ else _) in *.
  assert (Hmag : 0 <= Qnum (if 0 <=? u then inject_Z (m * 2 ^ u)
                            else m # Z.to_pos (2 ^ (- u)))).
  { destruct (0 <=? u) eqn:Eu; simpl; [|lia].
    apply Z.leb_le in Eu.
    assert (0 < 2 ^ u) by (apply Z.pow_pos_nonneg; lia). nia. }
  destruct (Qnum x <? 0) eqn:Es.
  - apply Z.ltb_lt in Es. split; [lia|].
    intros _. simpl. lia.
  - apply Z.ltb_ge in Es. split; [intros _; exact Hmag | lia].
Qed.

(** A positive value of at least [2^emin] rounds to a positive value. *)
Lemma round_float_pos (prec emin : Z) (x : Q) :
  1 <= prec -> emin <= 0 ->
  0 < Qnum x ->
  Z.pos (Qden x) <= Qnum x * 2 ^ (- emin) ->
  0 < Qnum (round_float prec emin x).
Proof.
  intros Hprec Hemin Hx Hnorm. unfold round_float.
  rewrite (Z.abs_eq (Qnum x)) by lia.
  destruct (Qnum x =? 0) eqn:E0; [apply Z.eqb_eq in E0; lia|].
  set (p := Qnum x) in *. set (q := Z.pos (Qden x)) in *.
  assert (Hq : 0 < q) by (subst q; lia).
  destruct (binade_lower p q Hx Hq) as [Hbl Hbn].
  set (b := binade p q) in *.
  set (e := Z.max b emin). set (u := e - (prec - 1)).
  (* [2^e <= p / q] *)
  assert (He : (0 <= e -> q * 2 ^ e <= p) /\ (e < 0 -> q <= p * 2 ^ (- e))).
  { subst e. destruct (Z.max_spec b emin) as [[Hlt ->] | [Hge ->]].
    - split; intros H; [assert (emin = 0) by lia; subst emin|].
      + simpl in *. lia.
      + exact Hnorm.
    - split; assumption. }
  destruct He as [Hel Hen].
  assert (Hue : u <= e) by (subst u; lia).
  assert (Hm : 1 <= (if 0 <=? u then round_half_even p (q * 2 ^ u)
                     else round_half_even (p * 2 ^ (- u)) q)).
  { destruct (0 <=? u) eqn:Eu.
    - apply Z.leb_le in Eu.
      assert (0 < 2 ^ u) by (apply Z.pow_pos_nonneg; lia).
      apply round_half_even_pos; [nia|].
      assert (2 ^ u <= 2 ^ e) by (apply Z.pow_le_mono_r; lia).
      specialize (Hel ltac:(lia)). nia.
    - apply Z.leb_gt in Eu.
      assert (0 < 2 ^ (- u)) by (apply Z.pow_pos_nonneg; lia).
      apply round_half_even_pos; [lia|].
      destruct (Z_lt_le_dec e 0) as [Hneg | Hpos].
      + specialize (Hen Hneg).
        assert (2 ^ (- e) <= 2 ^ (- u)) by (apply Z.pow_le_mono_r; lia).
        nia.
      + specialize (Hel Hpos).
        assert (0 < 2 ^ e) by (apply Z.pow_pos_nonneg; lia). nia. }
  set (m := if 0 <=? u then _ else _) in *.
  replace (p <? 0) with false by (symmetry; apply Z.ltb_ge; lia).
  destruct (0 <=? u) eqn:Eu; simpl; [|lia].
  apply Z.leb_le in Eu.
  assert (0 < 2 ^ u) by (apply Z.pow_pos_nonneg; lia). nia.
Qed.

(** The conversion of a positive integer to [float] is at least 1. *)
Lemma float_of_int_ge_1 (n : Z) : 1 <= n -> (1 <= float_of_int n)%Q.
Proof.
  intros Hn. unfold float_of_int, float32, round_float.
  change (Qnum (inject_Z n)) with n.
  change (Z.pos (Qden (inject_Z n))) with 1.
  rewrite (Z.abs_eq n) by lia.
  destruct (n =? 0) eqn:E0; [apply Z.eqb_eq in E0; lia|].
  replace (n <? 0) with false by (symmetry; apply Z.ltb_ge; lia).
  destruct (binade_lower n 1 ltac:(lia) ltac:(lia)) as [Hbl Hbn].
  set (b := binade n 1) in *.
  set (e := Z.max b (-126)). set (u := e - (24 - 1)).
  destruct (0 <=? u) eqn:Eu.
  - apply Z.leb_le in Eu.
    assert (e = b) by (subst e u; lia).
    assert (0 < 2 ^ u) by (apply Z.pow_pos_nonneg; lia).
    assert (2 ^ u <= 2 ^ b) by (apply Z.pow_le_mono_r; lia).
    specialize (Hbl ltac:(lia)).
    pose proof (round_half_even_pos n (1 * 2 ^ u) ltac:(lia) ltac:(lia)).
    unfold Qle. simpl. nia.
  - apply Z.leb_gt in Eu.
    assert (Hpow : 0 < 2 ^ (- u)) by (apply Z.pow_pos_nonneg; lia).
    assert (Hexact : round_half_even (n * 2 ^ (- u)) 1 = n * 2 ^ (- u)).
    { unfold round_half_even. rewrite Z.mod_1_r, Z.div_1_r. reflexivity. }
    rewrite Hexact. unfold Qle. simpl.
    rewrite Z2Pos.id by exact Hpow. nia.
Qed.
Lemma uint8_small' (x : Z) : 0 <= x < 2 ^ 8 -> uint8 x = x.
Proof. intros Hx. unfold uint8. apply Z.mod_small. lia. Qed.
End Rounding.

(** ** The Count Engine: cards played, cards remaining, true count *)
Section CounterMore.
Import Machine Types CardCounter Props MoreProps.

Lemma uint32_add_idemp (a b : Z) : uint32 (uint32 a + b) = uint32 (a + b).
Proof. unfold uint32. apply Zplus_mod_idemp_l. Qed.

Lemma addCards_cardsPlayed (cards : list Card) :
  forall c : CardCounter.t,
    uint32 (m_cardsPlayed c) = m_cardsPlayed c ->
    m_cardsPlayed (addCards cards c)
    = uint32 (m_cardsPlayed c + Z.of_nat (length cards))
    /\ m_deckCount (addCards cards c) = m_deckCount c.
Proof.
  induction cards as [|card cards IH]; intros c Hc.
  - split; [|reflexivity]. unfold addCards. simpl.
    now rewrite Z.add_0_r.
  - unfold addCards. simpl fold_left. fold (addCards cards (addCard card c)).
    destruct (IH (addCard card c)) as [Hp Hd].
    { cbn [addCard m_cardsPlayed]. unfold uint32.
      apply Z.mod_mod. lia. }
    rewrite Hp, Hd. split; [|reflexivity].
    cbn [addCard m_cardsPlayed]. rewrite uint32_add_idemp.
    f_equal. simpl length. lia.
Qed.

(** X1.  After a reset, a shoe of [deckCount] decks that fits 32 bits, and
    [n] cards fed to [addCard]: [n] cards are played and the cards
    remaining are the shoe less [n], or none once the shoe is used up. *)
Theorem cards_remaining_after (c : CardCounter.t) (cards : list Card) :
  0 <= m_deckCount c * 52 < 2 ^ 32 ->
  Z.of_nat (length cards) < 2 ^ 32 ->
  let c' := addCards cards (reset c) in
  m_cardsPlayed c' = Z.of_nat (length cards)
  /\ m_deckCount c' = m_deckCount c
  /\ CardCounterFull.getCardsRemaining c'
     = Z.max 0 (m_deckCount c * 52 - Z.of_nat (length cards)).
Proof.
  intros Hshoe Hlen c'.
  destruct (addCards_cardsPlayed cards (reset c)) as [Hp Hd];
    [reflexivity|].
  fold c' in Hp, Hd.
  assert (Hplayed : m_cardsPlayed c' = Z.of_nat (length cards)).
  { rewrite Hp. cbn [reset m_cardsPlayed]. apply uint32_small. lia. }
  split; [exact Hplayed|]. split; [exact Hd|].
  unfold CardCounterFull.getCardsRemaining.
  rewrite Hplayed, Hd. cbn [reset m_deckCount].
  rewrite (uint32_small (m_deckCount c * 52)) by exact Hshoe.
  destruct (Z.of_nat (length cards) <? m_deckCount c * 52) eqn:E.
  - apply Z.ltb_lt in E. rewrite uint32_small by lia. lia.
  - apply Z.ltb_ge in E. lia.
Qed.

Lemma cards_remaining_after_witness :
  CardCounterFull.getCardsRemaining
    (addCards [mkCard Ace Hearts; mkCard Nine Clubs] (reset CardCounter.new))
  = 310.
Proof.
  destruct (cards_remaining_after CardCounter.new
              [mkCard Ace Hearts; mkCard Nine Clubs]) as (_ & _ & H).
  - simpl. lia.
  - simpl. lia.
  - exact H.
Defined.

Lemma sum_hilo_app (l l' : list Card) :
  sum_hilo (l ++ l') = sum_hilo l + sum_hilo l'.
Proof.
  induction l as [|c l IH]; [reflexivity|].
  simpl app. rewrite !sum_hilo_cons, IH. lia.
Qed.

Lemma sum_hilo_decks (d : nat) : sum_hilo (concat (replicate d deck)) = 0.
Proof.
  assert (Hdeck : sum_hilo deck = 0) by (vm_compute; reflexivity).
  induction d as [|d IH]; [reflexivity|].
  change (concat (replicate (S d) deck))
    with (deck ++ concat (replicate d deck)).
  rewrite sum_hilo_app, IH, Hdeck. reflexivity.
Qed.

(** X2.  Hi-Lo is balanced: after a reset, a shoe of [d] complete decks fed
    to [addCard] in any order leaves the running count at 0. *)
Theorem full_shoe_counts_zero (c : CardCounter.t) (d : nat)
    (cards : list Card) :
  Permutation (concat (replicate d deck)) cards ->
  Z.of_nat d * 52 < 2 ^ 31 ->
  getRunningCount (addCards cards (reset c)) = 0.
Proof.
  intros Hperm Hd. unfold getRunningCount.
  rewrite runningCount_after_reset.
  rewrite <- (sum_hilo_perm _ _ Hperm), sum_hilo_decks. reflexivity.
Qed.

Lemma full_shoe_counts_zero_witness :
  getRunningCount (addCards (rev deck) (reset CardCounter.new)) = 0.
Proof.
  apply (full_shoe_counts_zero CardCounter.new 1 (rev deck)).
  - change (concat (replicate 1 deck)) with (deck ++ []).
    rewrite app_nil_r. apply Permutation_rev.
  - simpl. lia.
Defined.

Lemma rank_int_of_int (v : Z) : 1 <= v <= 13 -> rank_int (rank_of_int v) = v.
Proof.
  intros Hv.
  assert (Hc : v = 1 \/ v = 2 \/ v = 3 \/ v = 4 \/ v = 5 \/ v = 6 \/ v = 7
               \/ v = 8 \/ v = 9 \/ v = 10 \/ v = 11 \/ v = 12 \/ v = 13)
    by lia.
  repeat (destruct Hc as [-> | Hc]; [reflexivity|]). subst v. reflexivity.
Qed.

Lemma card_of_id_fields (id : N) :
  let card := card_of_id id in
  1 <= rank_int (rank card) <= 13
  /\ suit card = Z.of_N id / 13
  /\ 13 * suit card + (rank_int (rank card) - 1) = Z.of_N id
  /\ ((id < 52)%N -> 0 <= suit card <= 3).
Proof.
  cbn zeta. unfold card_of_id. cbn [rank suit].
  pose proof (Z.mod_pos_bound (Z.of_N id) 13 ltac:(lia)) as Hm.
  rewrite rank_int_of_int by lia.
  split; [lia|]. split; [reflexivity|]. split.
  - pose proof (Z.div_mod (Z.of_N id) 13 ltac:(lia)). lia.
  - intros Hid. split.
    + apply Z.div_pos; lia.
    + apply Z.lt_succ_r, Z.div_lt_upper_bound; lia.
Qed.

(** X3.  The identity of a card and its rank and suit determine each other:
    [card_of_id] gives a rank in 1..13 and the suit [id / 13], and
    [13 * suit + rank - 1] is the identity again. *)
Theorem card_of_id_round_trip (id : N) :
  let card := card_of_id id in
  1 <= rank_int (rank card) <= 13
  /\ suit card = Z.of_N id / 13
  /\ 13 * suit card + (rank_int (rank card) - 1) = Z.of_N id
  /\ ((id < 52)%N -> 0 <= suit card <= 3).
Proof. apply card_of_id_fields. Qed.

Lemma card_of_id_round_trip_witness :
  0 <= suit (card_of_id 51) <= 3.
Proof.
  destruct (card_of_id_round_trip 51) as (_ & _ & _ & H).
  apply H. reflexivity.
Defined.

Lemma card_of_id_injective (id id' : N) :
  card_of_id id = card_of_id id' -> id = id'.
Proof.
  intros H.
  destruct (card_of_id_fields id) as (_ & _ & H1 & _).
  destruct (card_of_id_fields id') as (_ & _ & H2 & _).
  rewrite H in H1. lia.
Qed.

(** X4.  [addCard] files a card of a valid identity [id] under the index
    [id + 1] of [m_cardsSeen]: slot 0 is never written, and the king of
    spades (identity 51, index 52) is not recorded at all. *)
Theorem addCard_cardsSeen_index (id : N) (c : CardCounter.t) :
  (id < 52)%N ->
  m_cardsSeen (addCard (card_of_id id) c)
  = if (id <? 51)%N
    then alter (fun n => uint8 (n + 1)) (S (N.to_nat id)) (m_cardsSeen c)
    else m_cardsSeen c.
Proof.
  intros Hid. unfold addCard. cbn [m_cardsSeen].
  destruct (card_of_id_fields id) as (Hr & Hs & Hrt & Hsuit).
  specialize (Hsuit Hid).
  set (card := card_of_id id) in *.
  assert (Hidx : uint8 (rank_int (rank card) + uint8 (suit card) * 13)
                 = Z.of_N id + 1).
  { rewrite (uint8_small' (suit card)) by lia.
    rewrite uint8_small' by lia. lia. }
  rewrite Hidx.
  destruct (id <? 51)%N eqn:E.
  - apply N.ltb_lt in E.
    replace (Z.of_N id + 1 <? 52) with true by (symmetry; apply Z.ltb_lt; lia).
    f_equal. lia.
  - apply N.ltb_ge in E.
    replace (Z.of_N id + 1 <? 52) with false by (symmetry; apply Z.ltb_ge; lia).
    reflexivity.
Qed.

Lemma addCard_cardsSeen_index_witness :
  m_cardsSeen (addCard (card_of_id 51) CardCounter.new)
  = m_cardsSeen CardCounter.new.
Proof.
  exact (addCard_cardsSeen_index 51 CardCounter.new ltac:(reflexivity)).
Defined.

(** X5.  True-count safety.  After [addCard] the stored true count is 0 when
    no cards remain; otherwise [decksRemaining], by which the running
    count is divided, is positive, and the true count has the sign of
    the running count (it is 0 when the running count is). *)
Theorem true_count_safe (card : Card) (c : CardCounterFull.t) :
  let c' := CardCounterFull.addCard card c in
  let n := CardCounterFull.counts c' in
  (CardCounterFull.getCardsRemaining n = 0 ->
   CardCounterFull.getTrueCount c' = 0%Q)
  /\ (CardCounterFull.getCardsRemaining n <> 0 ->
      (0 < CardCounterFull.decksRemaining n)%Q
      /\ (0 <= m_runningCount n ->
          (0 <= CardCounterFull.getTrueCount c')%Q)
      /\ (m_runningCount n <= 0 ->
          (CardCounterFull.getTrueCount c' <= 0)%Q)).
Proof.
  cbn zeta.
  unfold CardCounterFull.getTrueCount, CardCounterFull.addCard.
  cbn [CardCounterFull.m_trueCount CardCounterFull.counts].
  set (n := addCard card (CardCounterFull.counts c)).
  unfold CardCounterFull.updateTrueCount.
  split.
  - intros ->. reflexivity.
  - intros Hrem.
    rewrite (proj2 (Z.eqb_neq _ _) Hrem).
    assert (Hpos : 1 <= CardCounterFull.getCardsRemaining n).
    { assert (0 <= CardCounterFull.getCardsRemaining n); [|lia].
      unfold CardCounterFull.getCardsRemaining, uint32.
      destruct (_ <? _); [|lia].
      apply Z.mod_pos_bound. lia. }
    pose proof (float_of_int_ge_1 _ Hpos) as Hf.
    assert (Hd : 0 < Qnum (CardCounterFull.decksRemaining n)).
    { unfold CardCounterFull.decksRemaining, float_div, float32.
      set (y := float_of_int (CardCounterFull.getCardsRemaining n)) in *.
      unfold Qle in Hf. simpl in Hf.
      apply round_float_pos; try lia.
      - simpl. lia.
      - simpl. change (2 ^ 126) with 85070591730234615865843651857942052864.
        lia. }
    split; [unfold Qlt; simpl; lia|].
    set (d := CardCounterFull.decksRemaining n) in *.
    pose proof (proj1 (round_float_sign 24 (-126)
                         (inject_Z (m_runningCount n)))) as Hfl.
    pose proof (proj2 (round_float_sign 24 (-126)
                         (inject_Z (m_runningCount n)))) as Hfu.
    cbn [Qnum inject_Z] in Hfl, Hfu.
    fold (float32 (inject_Z (m_runningCount n))) in Hfl, Hfu.
    fold (float_of_int (m_runningCount n)) in Hfl, Hfu.
    set (r := float_of_int (m_runningCount n)) in *.
    assert (Hq : Qnum (r / d) = Qnum r * Z.pos (Qden d)).
    { destruct d as [[|dn|dn] dd]; simpl in Hd; try lia. reflexivity. }
    unfold float_div, float32.
    split; intros Hrc.
    + unfold Qle. simpl. rewrite Z.mul_1_r.
      apply (proj1 (round_float_sign 24 (-126) (r / d))).
      rewrite Hq. specialize (Hfl Hrc). nia.
    + unfold Qle. simpl. rewrite Z.mul_1_r.
      apply (proj2 (round_float_sign 24 (-126) (r / d))).
      rewrite Hq. specialize (Hfu Hrc). nia.
Qed.

Lemma true_count_safe_witness :
  (0 < CardCounterFull.decksRemaining
         (CardCounterFull.counts
            (CardCounterFull.addCard (mkCard Five Hearts)
               CardCounterFull.new)))%Q.
Proof.
  destruct (true_count_safe (mkCard Five Hearts) CardCounterFull.new)
    as [_ H].
  destruct H as [H _]; [vm_compute; discriminate | exact H].
Defined.
End CounterMore.

(** ** The Shuffle Detector: what a call leaves alone *)
Section DetectorFrame.
Import Machine Types CardInventory ShuffleDetector Props MoreProps.

#[local] Ltac frame_step :=
  cbn [negb andb orb fst snd m_inventory m_lastCardDetection m_lastResetTime
       m_shuffleDetected m_lastIndicator m_previousFrameCardCount
       m_previousFrameCards m_recentCards m_deckCount m_penetrationLimit
       m_inactivityThresholdSec m_minCardsBeforeReset
       m_consecutiveEmptyFrames set_detection set_consecutiveEmptyFrames
       set_inventory set_recentCards set_lastCardDetection set_previousFrame].

Lemma checks_frame (now' : Z) (s : ShuffleDetector.t) :
  let s' :=
    checkImpossibleSequence
      (checkCardDisappearance
         (checkInactivity now' (checkPenetration (checkCardDepletion s)))) in
  same_setup s s'
  /\ m_recentCards s' = m_recentCards s
  /\ m_consecutiveEmptyFrames s'
     = (if EMPTY_FRAMES_THRESHOLD <=? m_consecutiveEmptyFrames s then 0
        else m_consecutiveEmptyFrames s).
Proof.
  cbn zeta.
  unfold same_setup, checkImpossibleSequence, checkCardDisappearance,
    checkInactivity, checkPenetration, checkCardDepletion,
    triggerShuffleDetection, getTimeSinceLastCard.
  destruct s as [inv lcd lrt sd li pfc pf recent dc pl ith mc cef].
  frame_step; destruct (isImpossible inv); destruct sd; frame_step;
    destruct (total_cards_seen inv <? uint32 mc) eqn:E; frame_step;
    destruct (hasReachedPenetrationLimit pl inv); frame_step;
    rewrite ?E; frame_step;
    destruct (ith <=? (now' - lcd) ÷ ticks_per_second); frame_step;
    destruct (EMPTY_FRAMES_THRESHOLD <=? cef); frame_step;
    destruct (uint32 mc <=? total_cards_seen inv); frame_step;
    repeat split; reflexivity.
Qed.

Lemma scan_detection_frame (p : process) (det : Detection) :
  let s := fst p in
  let s' := fst (scan_detection p det) in
  same_setup s s'
  /\ m_consecutiveEmptyFrames s' = m_consecutiveEmptyFrames s
  /\ snd p ⊆ snd (scan_detection p det)
  /\ card_id det ∈ snd (scan_detection p det).
Proof.
  destruct p as [s sess]. cbn [fst snd].
  unfold same_setup, scan_detection, checkDuplicateCard,
    triggerShuffleDetection.
  destruct s as [inv lcd lrt sd li pfc pf recent dc pl ith mc cef].
  frame_step.
  destruct (length recent <? 10)%nat;
    [|destruct (existsb (N.eqb (card_id det)) (removelast recent));
      [destruct sd|]];
    frame_step;
    (destruct (bool_decide (card_id det ∈ sess)) eqn:E; frame_step;
     [apply bool_decide_eq_true in E | apply bool_decide_eq_false in E];
     repeat split; try reflexivity; try exact E; set_solver).
Qed.

Lemma scan_frame_frame (now : Z) (dets : list Detection) (p : process) :
  let s := fst p in
  let s' := fst (scan_frame now dets p) in
  m_lastCardDetection s'
  = (if dets is [] then m_lastCardDetection s else now)
  /\ m_consecutiveEmptyFrames s'
     = (if dets is [] then uint32 (m_consecutiveEmptyFrames s + 1) else 0)
  /\ m_penetrationLimit s' = m_penetrationLimit s
  /\ m_inactivityThresholdSec s' = m_inactivityThresholdSec s
  /\ m_minCardsBeforeReset s' = m_minCardsBeforeReset s
  /\ m_deckCount s' = m_deckCount s
  /\ snd p ⊆ snd (scan_frame now dets p)
  /\ (forall det, In det dets -> card_id det ∈ snd (scan_frame now dets p)).
Proof.
  cbn zeta. unfold scan_frame.
  set (q0 := (note_frame now dets (fst p), snd p)).
  assert (H0 :
            m_lastCardDetection (fst q0)
            = (if dets is [] then m_lastCardDetection (fst p) else now)
            /\ m_consecutiveEmptyFrames (fst q0)
               = (if dets is []
                  then uint32 (m_consecutiveEmptyFrames (fst p) + 1) else 0)
            /\ m_penetrationLimit (fst q0) = m_penetrationLimit (fst p)
            /\ m_inactivityThresholdSec (fst q0)
               = m_inactivityThresholdSec (fst p)
            /\ m_minCardsBeforeReset (fst q0) = m_minCardsBeforeReset (fst p)
            /\ m_deckCount (fst q0) = m_deckCount (fst p)
            /\ snd p ⊆ snd q0).
  { subst q0. destruct dets; repeat split; reflexivity. }
  destruct H0 as (<- & <- & <- & <- & <- & <- & Hsub).
  assert (Hgen :
            forall q : process,
              same_setup (fst q) (fst (fold_left scan_detection dets q))
              /\ m_consecutiveEmptyFrames (fst (fold_left scan_detection dets q))
                 = m_consecutiveEmptyFrames (fst q)
              /\ snd q ⊆ snd (fold_left scan_detection dets q)
              /\ (forall det, In det dets ->
                              card_id det ∈ snd (fold_left scan_detection dets q))).
  { clear. induction dets as [|det dets IH]; intros q; simpl fold_left.
    - unfold same_setup. repeat split; try reflexivity.
      intros det [].
    - destruct (scan_detection_frame q det) as (Hs & Hc & Hsub & Hin).
      destruct (IH (scan_detection q det)) as (Hs' & Hc' & Hsub' & Hin').
      cbn zeta in *. unfold same_setup in *.
      destruct Hs as (? & ? & ? & ? & ? & ?).
      destruct Hs' as (? & ? & ? & ? & ? & ?).
      repeat split; try congruence.
      + etransitivity; eassumption.
      + intros d [<- | Hd]; [apply Hsub', Hin | apply Hin', Hd]. }
  destruct (Hgen q0) as ((? & ? & ? & ? & ? & ?) & ? & Hsub' & Hin').
  repeat split; assumption.
Qed.

(** The clock, configuration and empty-frame counter after [update]. *)
Lemma update_frame (now now' : Z) (dets : list Detection) (p : process) :
  let s := fst p in
  let s' := fst (update now now' dets p) in
  m_lastCardDetection s'
  = (if dets is [] then m_lastCardDetection s else now)
  /\ m_consecutiveEmptyFrames s'
     = (if dets is []
        then (if EMPTY_FRAMES_THRESHOLD
                   <=? uint32 (m_consecutiveEmptyFrames s + 1)
              then 0 else uint32 (m_consecutiveEmptyFrames s + 1))
        else 0)
  /\ m_penetrationLimit s' = m_penetrationLimit s
  /\ m_inactivityThresholdSec s' = m_inactivityThresholdSec s
  /\ m_minCardsBeforeReset s' = m_minCardsBeforeReset s
  /\ m_deckCount s' = m_deckCount s
  /\ snd p ⊆ snd (update now now' dets p)
  /\ (forall det, In det dets -> card_id det ∈ snd (update now now' dets p)).
Proof.
  cbn zeta. unfold update.
  destruct (scan_frame_frame now dets p)
    as (Hl & Hc & Hp & Hi & Hm & Hd & Hsub & Hin).
  destruct (scan_frame now dets p) as [s2 sess2]. cbn [fst snd] in *.
  destruct (checks_frame now' s2) as ((L & _ & D & P & I & M) & _ & C).
  cbn zeta in *. frame_step.
  rewrite L, C, P, I, M, D, Hl, Hc, Hp, Hi, Hm, Hd.
  repeat split; try assumption.
  destruct dets; reflexivity.
Qed.

(** The empty-frame counter stays below the threshold. *)
Theorem empty_frame_counter_bounded (now now' : Z) (dets : list Detection)
    (p : process) :
  0 <= m_consecutiveEmptyFrames (fst (update now now' dets p))
       < EMPTY_FRAMES_THRESHOLD.
Proof.
  destruct (update_frame now now' dets p) as (_ & -> & _).
  destruct dets; [|unfold EMPTY_FRAMES_THRESHOLD; lia].
  destruct (EMPTY_FRAMES_THRESHOLD <=? _) eqn:E.
  - unfold EMPTY_FRAMES_THRESHOLD. lia.
  - apply Z.leb_gt in E. split; [|exact E].
    unfold uint32. apply Z.mod_pos_bound. lia.
Qed.
End DetectorFrame.

(** ** The Shuffle Detector: inventory, latch, history *)
Section DetectorMore.
Import Machine Types CardInventory ShuffleDetector Props MoreProps.



(** The history is the last [MAX_RECENT_CARDS] identities, in the order
    of arrival. *)
Lemma push_recent_keep_last (l : list N) (id : N) :
  push_recent (keep_last (Z.to_nat MAX_RECENT_CARDS) l) id
  = keep_last (Z.to_nat MAX_RECENT_CARDS) (l ++ [id]).
Proof.
  assert (Hmax : 0 <= MAX_RECENT_CARDS) by (unfold MAX_RECENT_CARDS; lia).
  unfold push_recent, keep_last.
  set (M := Z.to_nat MAX_RECENT_CARDS).
  replace MAX_RECENT_CARDS with (Z.of_nat M) by (subst M; lia).
  clearbody M. clear Hmax.
  rewrite !length_app, length_drop. simpl length.
  destruct (Nat.le_gt_cases M (length l)) as [Hge | Hlt].
  - replace (Z.of_nat M <? Z.of_nat (length l - (length l - M) + 1)) with true
      by (symmetry; apply Z.ltb_lt; lia).
    replace (length l + 1 - M)%nat with (S (length l - M)) by lia.
    rewrite <- drop_app_le by lia.
    generalize (l ++ [id]). intros l'.
    generalize (length l - M)%nat. clear. intros k.
    revert l'. induction k as [|k IH]; intros [|x l']; simpl;
      try reflexivity.
    apply (IH l').
  - replace (Z.of_nat M <? Z.of_nat (length l - (length l - M) + 1))
      with false by (symmetry; apply Z.ltb_ge; lia).
    replace (length l - M)%nat with 0%nat by lia.
    replace (length l + 1 - M)%nat with 0%nat by lia.
    reflexivity.
Qed.

Lemma scan_frame_recent (now : Z) (dets : list Detection) (p : process) :
  m_recentCards (fst (scan_frame now dets p))
  = fold_left push_recent (map card_id dets) (m_recentCards (fst p)).
Proof.
  unfold scan_frame.
  assert (H0 : m_recentCards (fst (note_frame now dets (fst p), snd p))
               = m_recentCards (fst p)) by (destruct dets; reflexivity).
  rewrite <- H0. clear H0.
  generalize (note_frame now dets (fst p), snd p) as q.
  induction dets as [|det dets IH]; intros q; simpl; [reflexivity|].
  rewrite IH.
  destruct (scan_detection_flags q det) as (-> & _). reflexivity.
Qed.

Lemma fold_push_recent (ids : list N) :
  forall l : list N,
    fold_left push_recent ids (keep_last (Z.to_nat MAX_RECENT_CARDS) l)
    = keep_last (Z.to_nat MAX_RECENT_CARDS) (l ++ ids).
Proof.
  induction ids as [|id ids IH]; intros l; simpl.
  - now rewrite app_nil_r.
  - rewrite push_recent_keep_last, IH, <- app_assoc. reflexivity.
Qed.

(** X8.  The recent history is a sliding window: a history within the
    capacity [MAX_RECENT_CARDS] is, after [update], the last
    [MAX_RECENT_CARDS] entries of the old history followed by the
    identities of the frame in the order of detection, and is within
    the capacity again.  Nothing but the capacity of the window depends
    on the value of the constant. *)
Theorem recent_history_is_sliding_window (now now' : Z)
    (dets : list Detection) (p : process) :
  Z.of_nat (length (m_recentCards (fst p))) <= MAX_RECENT_CARDS ->
  let recent' := m_recentCards (fst (update now now' dets p)) in
  recent' = keep_last (Z.to_nat MAX_RECENT_CARDS)
              (m_recentCards (fst p) ++ map card_id dets)
  /\ Z.of_nat (length recent') <= MAX_RECENT_CARDS.
Proof.
  intros Hlen. cbn zeta.
  assert (Heq : m_recentCards (fst (update now now' dets p))
                = keep_last (Z.to_nat MAX_RECENT_CARDS)
                    (m_recentCards (fst p) ++ map card_id dets)).
  { unfold update.
    pose proof (scan_frame_recent now dets p) as Hs.
    destruct (scan_frame now dets p) as [s2 sess2]. cbn [fst] in *.
    destruct (checks_frame now' s2) as (_ & Hr & _). cbn zeta in Hr.
    cbn [fst m_recentCards set_previousFrame].
    rewrite Hr, Hs, <- fold_push_recent.
    f_equal. unfold keep_last.
    replace (length (m_recentCards (fst p)) - Z.to_nat MAX_RECENT_CARDS)%nat
      with 0%nat by lia.
    reflexivity. }
  split; [exact Heq|].
  rewrite Heq. unfold keep_last. rewrite length_drop.
  assert (Hmax : 0 <= MAX_RECENT_CARDS) by (unfold MAX_RECENT_CARDS; lia).
  lia.
Qed.

Lemma recent_history_is_sliding_window_witness :
  m_recentCards
    (fst (update 0 0 [mkDetection 4; mkDetection 9] (ShuffleDetector.new 0, ∅)))
  = [4; 9]%N.
Proof.
  destruct (recent_history_is_sliding_window 0 0
              [mkDetection 4; mkDetection 9] (ShuffleDetector.new 0, ∅))
    as [H _].
  - vm_compute. discriminate.
  - exact H.
Defined.

(** The inventory changes only through identities below 52 that the
    static set does not hold yet. *)
Lemma scan_detection_inventory_kept (p : process) (det : Detection) :
  card_id det ∈ snd p \/ (52 <= card_id det)%N ->
  m_inventory (fst (scan_detection p det)) = m_inventory (fst p).
Proof.
  destruct p as [s sess]. cbn [fst snd]. intros H.
  unfold scan_detection.
  destruct (bool_decide (card_id det ∈ sess)) eqn:E;
    cbn [fst m_inventory set_recentCards set_inventory];
    rewrite checkDuplicateCard_inventory; [reflexivity|].
  apply bool_decide_eq_false in E.
  destruct H as [H | H]; [contradiction|].
  unfold addCard. now rewrite (proj2 (N.leb_le _ _) H).
Qed.

Lemma scan_detection_session_kept (p : process) (det : Detection) :
  card_id det ∈ snd p -> snd (scan_detection p det) = snd p.
Proof.
  destruct p as [s sess]. cbn [snd]. intros H.
  unfold scan_detection.
  now rewrite (bool_decide_eq_true_2 _ H).
Qed.

Lemma update_inventory_kept (now now' : Z) (dets : list Detection)
    (p : process) :
  Forall (fun det => card_id det ∈ snd p \/ (52 <= card_id det)%N) dets ->
  m_inventory (fst (update now now' dets p)) = m_inventory (fst p).
Proof.
  intros Hall. unfold update.
  assert (Hs : m_inventory (fst (scan_frame now dets p))
               = m_inventory (fst p)).
  { unfold scan_frame.
    assert (H0 : m_inventory (fst (note_frame now dets (fst p), snd p))
                 = m_inventory (fst p)) by (destruct dets; reflexivity).
    rewrite <- H0.
    assert (Hsub : snd p ⊆ snd (note_frame now dets (fst p), snd p))
      by reflexivity.
    revert Hsub. clear H0.
    generalize (note_frame now dets (fst p), snd p) as q.
    induction Hall as [|det dets Hdet _ IH]; intros q Hsub; simpl fold_left.
    - reflexivity.
    - rewrite IH.
      + apply scan_detection_inventory_kept.
        destruct Hdet as [Hdet | Hdet]; [left; apply Hsub, Hdet | now right].
      + etransitivity; [exact Hsub|].
        apply (scan_detection_frame q det). }
  destruct (scan_frame now dets p) as [s2 sess2]. cbn [fst] in *.
  cbn [m_inventory set_previousFrame]. now rewrite checks_inventory.
Qed.

Lemma update_session_kept (now now' : Z) (dets : list Detection)
    (p : process) :
  Forall (fun det => card_id det ∈ snd p) dets ->
  snd (update now now' dets p) = snd p.
Proof.
  intros Hall. unfold update.
  assert (Hs : snd (scan_frame now dets p) = snd p).
  { unfold scan_frame.
    assert (H0 : snd (note_frame now dets (fst p), snd p) = snd p)
      by reflexivity.
    revert H0.
    generalize (note_frame now dets (fst p), snd p) as q.
    induction Hall as [|det dets Hdet _ IH]; intros q Hq; simpl fold_left.
    - exact Hq.
    - apply IH. rewrite scan_detection_session_kept; [exact Hq|].
      now rewrite Hq. }
  destruct (scan_frame now dets p) as [s2 sess2]. exact Hs.
Qed.

(** X9.  Identities outside [0, 52) never reach the inventory, though they
    enter the static set (and the history). *)
Theorem invalid_identities_skip_inventory (now now' : Z)
    (dets : list Detection) (p : process) :
  Forall (fun det => (52 <= card_id det)%N) dets ->
  m_inventory (fst (update now now' dets p)) = m_inventory (fst p)
  /\ (forall det, In det dets -> card_id det ∈ snd (update now now' dets p)).
Proof.
  intros Hall. split.
  - apply update_inventory_kept.
    eapply Forall_impl; [exact Hall|]. intros det H. now right.
  - apply (update_frame now now' dets p).
Qed.

Lemma invalid_identities_skip_inventory_witness :
  m_inventory
    (fst (update 0 0 [mkDetection 52; mkDetection 200]
            (ShuffleDetector.new 0, ∅)))
  = CardInventory.new.
Proof.
  destruct (invalid_identities_skip_inventory 0 0
              [mkDetection 52; mkDetection 200] (ShuffleDetector.new 0, ∅))
    as [H _].
  - repeat constructor; discriminate.
  - exact H.
Defined.

(** X10.  [reset] does not reach the static set: after it, frames that show
    only identities seen earlier in the process leave the inventory
    empty and the penetration at 0. *)
Theorem seen_identities_never_count_again (now : Z) (frames : list frame)
    (p : process) :
  Forall (fun f => Forall (fun det => card_id det ∈ snd p) (detections f))
         frames ->
  let p' := run frames (ShuffleDetector.reset now (fst p), snd p) in
  m_inventory (fst p') = CardInventory.reset (m_inventory (fst p))
  /\ total_cards_seen (m_inventory (fst p')) = 0
  /\ getPenetration (m_inventory (fst p')) = 0%Q
  /\ snd p' = snd p.
Proof.
  intros Hall. cbn zeta.
  assert (Hgen :
            forall q : process,
              snd q = snd p ->
              m_inventory (fst (run frames q)) = m_inventory (fst q)
              /\ snd (run frames q) = snd p).
  { induction Hall as [|f frames Hf _ IH]; intros q Hq; simpl.
    - now split.
    - assert (Hstep : m_inventory (fst (step q f)) = m_inventory (fst q)
                      /\ snd (step q f) = snd p).
      { unfold step. split.
        - apply update_inventory_kept.
          eapply Forall_impl; [exact Hf|]. intros det H. left. now rewrite Hq.
        - rewrite <- Hq. apply update_session_kept. now rewrite Hq. }
      destruct Hstep as [Hi Hs].
      destruct (IH (step q f) Hs) as [IHi IHs].
      split; [congruence | exact IHs]. }
  destruct (Hgen (ShuffleDetector.reset now (fst p), snd p) eq_refl)
    as [Hi Hs].
  rewrite Hi. cbn [fst m_inventory ShuffleDetector.reset].
  split; [reflexivity|]. split; [reflexivity|]. split; [|exact Hs].
  unfold getPenetration, CardInventory.reset.
  cbn [total_cards_seen deck_count].
  destruct (uint32 (deck_count (m_inventory (fst p)) * 52) =? 0);
    reflexivity.
Qed.

Lemma seen_identities_never_count_again_witness :
  total_cards_seen
    (m_inventory
       (fst (run [mkFrame [mkDetection 3] 7 7; mkFrame [mkDetection 3] 8 8]
               (ShuffleDetector.reset 5 (ShuffleDetector.new 0), {[ 3%N ]}))))
  = 0.
Proof.
  destruct (seen_identities_never_count_again 5
              [mkFrame [mkDetection 3] 7 7; mkFrame [mkDetection 3] 8 8]
              (ShuffleDetector.new 0, {[ 3%N ]})) as (_ & H & _).
  - repeat constructor; cbn [detections card_id snd]; set_solver.
  - exact H.
Defined.
End DetectorMore.

(** ** The Shuffle Detector: disappearance of all cards *)
Section Disappearance.
Import Machine Types CardInventory ShuffleDetector Props MoreProps.

(** One call of [update] latches [AllCardsGone] only on a frame
    without detections that is at least the 60th such frame in a row. *)
Lemma update_all_cards_gone (now now' : Z) (dets : list Detection)
    (p : process) :
  0 <= m_consecutiveEmptyFrames (fst p) ->
  m_lastIndicator (fst (update now now' dets p))
  = ShuffleIndicator.AllCardsGone ->
  m_lastIndicator (fst p) = ShuffleIndicator.AllCardsGone
  \/ (dets = [] /\ 59 <= m_consecutiveEmptyFrames (fst p)).
Proof.
  intros Hc.
  destruct (update_flags now now' dets p) as [_ ->].
  destruct (m_shuffleDetected (fst p)); [now left|].
  unfold checks.
  destruct (scan_frame_frame now dets p) as (_ & Hcnt & _).
  cbn zeta in Hcnt.
  unfold first_holding.
  destruct (frame_fires _ _); [discriminate|].
  destruct (depletion_holds _); [discriminate|].
  destruct (penetration_holds _); [discriminate|].
  destruct (long_pause_holds _ _); [discriminate|].
  destruct (all_cards_gone_holds _) eqn:Eg; [|now left].
  intros _. right.
  unfold all_cards_gone_holds in Eg. rewrite Hcnt in Eg.
  apply andb_true_iff in Eg as [Eg _]. apply Z.leb_le in Eg.
  unfold EMPTY_FRAMES_THRESHOLD in Eg.
  destruct dets; [|lia]. split; [reflexivity|].
  unfold uint32 in Eg.
  destruct (Z_lt_le_dec (m_consecutiveEmptyFrames (fst p) + 1) (2 ^ 32))
    as [Hlt | Hge]; [|lia].
  rewrite Z.mod_small in Eg by lia. lia.
Qed.

(** A frame that shows a card never latches [AllCardsGone]. *)
Theorem card_in_frame_blocks_all_cards_gone (now now' : Z)
    (dets : list Detection) (p : process) :
  dets <> [] ->
  0 <= m_consecutiveEmptyFrames (fst p) ->
  m_lastIndicator (fst p) <> ShuffleIndicator.AllCardsGone ->
  getLastIndicator (fst (update now now' dets p))
  <> ShuffleIndicator.AllCardsGone.
Proof.
  intros Hne Hc Hi Hgone.
  destruct (update_all_cards_gone now now' dets p Hc Hgone) as [H | [H _]];
    contradiction.
Qed.

Lemma card_in_frame_blocks_all_cards_gone_witness :
  getLastIndicator
    (fst (update 0 0 [mkDetection 7] (ShuffleDetector.new 0, ∅)))
  <> ShuffleIndicator.AllCardsGone.
Proof.
  apply (card_in_frame_blocks_all_cards_gone 0 0 [mkDetection 7]
           (ShuffleDetector.new 0, ∅)).
  - discriminate.
  - simpl. lia.
  - discriminate.
Defined.

(** X11.  From a detector whose counter of empty frames is 0 (as the
    constructor and [reset] leave it), fewer than 60 calls of [update]
    never latch [AllCardsGone], whatever the frames show. *)
Theorem all_cards_gone_needs_60_frames (frames : list frame) (p : process) :
  m_consecutiveEmptyFrames (fst p) = 0 ->
  m_lastIndicator (fst p) <> ShuffleIndicator.AllCardsGone ->
  (length frames < 60)%nat ->
  getLastIndicator (fst (run frames p)) <> ShuffleIndicator.AllCardsGone.
Proof.
  intros Hc Hi Hlen.
  assert (Hgen :
            forall (frames : list frame) (p : process) (k : nat),
              0 <= m_consecutiveEmptyFrames (fst p) <= Z.of_nat k ->
              m_lastIndicator (fst p) <> ShuffleIndicator.AllCardsGone ->
              (k + length frames < 60)%nat ->
              m_lastIndicator (fst (run frames p))
              <> ShuffleIndicator.AllCardsGone).
  { clear. induction frames as [|f frames IH]; intros p k Hc Hi Hlen.
    - exact Hi.
    - simpl run. simpl length in Hlen.
      apply (IH (step p f) (S k)); [| |lia].
      + unfold step.
        destruct (update_frame (clock_entry f) (clock_check f)
                    (detections f) p) as (_ & -> & _).
        destruct (detections f); [|lia].
        assert (Hu : uint32 (m_consecutiveEmptyFrames (fst p) + 1)
                     = m_consecutiveEmptyFrames (fst p) + 1)
          by (apply Z.mod_small; lia).
        rewrite Hu.
        destruct (EMPTY_FRAMES_THRESHOLD <=? _); lia.
      + intros Hgone. unfold step in Hgone.
        destruct (update_all_cards_gone _ _ _ p (proj1 Hc) Hgone)
          as [H | [_ H]]; [contradiction | lia]. }
  apply (Hgen frames p 0%nat); [rewrite Hc; simpl; lia | exact Hi | lia].
Qed.

Lemma all_cards_gone_needs_60_frames_witness :
  getLastIndicator
    (fst (run (empty_frames (replicate 59 (0, 0)))
              (ShuffleDetector.new 0, ∅)))
  <> ShuffleIndicator.AllCardsGone.
Proof.
  apply (all_cards_gone_needs_60_frames
           (empty_frames (replicate 59 (0, 0))) (ShuffleDetector.new 0, ∅)).
  - reflexivity.
  - discriminate.
  - vm_compute. lia.
Defined.

(** X12.  The 60th empty frame in a row latches [AllCardsGone] when enough
    cards have been seen and no earlier check of the call fires; the
    counter restarts at 0. *)
Theorem all_cards_gone_at_60th_empty_frame (now now' : Z) (p : process) :
  m_shuffleDetected (fst p) = false ->
  m_consecutiveEmptyFrames (fst p) = 59 ->
  enough_cards (fst p) = true ->
  depletion_holds (fst p) = false ->
  penetration_holds (fst p) = false ->
  long_pause_holds now' (fst p) = false ->
  let s' := fst (update now now' [] p) in
  isShuffleDetected s' = true
  /\ getLastIndicator s' = ShuffleIndicator.AllCardsGone
  /\ m_consecutiveEmptyFrames s' = 0.
Proof.
  intros Hd Hc He Hdep Hpen Hpause. cbn zeta.
  destruct (update_flags now now' [] p) as [Hf Hi].
  destruct (update_frame now now' [] p) as (_ & Hcnt & _).
  cbn zeta in *.
  unfold isShuffleDetected, getLastIndicator.
  rewrite Hf, Hi, Hcnt, Hd, Hc. clear Hf Hi Hcnt.
  unfold checks, scan_frame.
  cbn [fold_left note_frame fst frame_fires].
  assert (Hdep' : depletion_holds
                    (set_consecutiveEmptyFrames
                       (uint32 (m_consecutiveEmptyFrames (fst p) + 1))
                       (fst p)) = false) by exact Hdep.
  assert (Hpen' : penetration_holds
                    (set_consecutiveEmptyFrames
                       (uint32 (m_consecutiveEmptyFrames (fst p) + 1))
                       (fst p)) = false) by exact Hpen.
  assert (Hpause' : long_pause_holds now'
                      (set_consecutiveEmptyFrames
                         (uint32 (m_consecutiveEmptyFrames (fst p) + 1))
                         (fst p)) = false) by exact Hpause.
  assert (Hgone : all_cards_gone_holds
                    (set_consecutiveEmptyFrames
                       (uint32 (m_consecutiveEmptyFrames (fst p) + 1))
                       (fst p)) = true).
  { unfold all_cards_gone_holds.
    change (enough_cards (set_consecutiveEmptyFrames _ (fst p)))
      with (enough_cards (fst p)).
    rewrite He. cbn [m_consecutiveEmptyFrames set_consecutiveEmptyFrames].
    rewrite Hc. reflexivity. }
  rewrite Hdep', Hpen', Hpause', Hgone.
  repeat split; reflexivity.
Qed.

Lemma all_cards_gone_at_60th_empty_frame_witness :
  getLastIndicator
    (fst (update 0 0 []
            (run (single_card_frames (ids_upto 26)
                  ++ empty_frames (replicate 59 (0, 0)))
                 (ShuffleDetector.new 0, ∅))))
  = ShuffleIndicator.AllCardsGone.
Proof.
  destruct (all_cards_gone_at_60th_empty_frame 0 0
              (run (single_card_frames (ids_upto 26)
                    ++ empty_frames (replicate 59 (0, 0)))
                   (ShuffleDetector.new 0, ∅))) as (_ & H & _);
    [vm_compute; reflexivity .. | exact H].
Defined.
End Disappearance.

(** ** The Game State Tracker: phases and dealing *)
Section TrackerMore.
Import Machine Types GameStateTracker Props MoreProps.

Lemma tracker_single_hand (calls : list tracker_call) (now : Z) :
  let s := fold_left do_tracker_call calls (GameStateTracker.new now) in
  length (m_playerHands s) = 1%nat
  /\ m_currentHandIndex s = 0
  /\ hasMoreHands s = false.
Proof.
  cbn zeta.
  assert (Hinv : length (m_playerHands
                           (fold_left do_tracker_call calls
                              (GameStateTracker.new now))) = 1%nat
                 /\ m_currentHandIndex
                      (fold_left do_tracker_call calls
                         (GameStateTracker.new now)) = 0).
  { assert (Hnew : length (m_playerHands (GameStateTracker.new now)) = 1%nat
                   /\ m_currentHandIndex (GameStateTracker.new now) = 0)
      by (split; reflexivity).
    revert Hnew. generalize (GameStateTracker.new now) as s.
    induction calls as [|c calls IH]; intros s Hs; simpl fold_left.
    - exact Hs.
    - apply IH. clear IH. destruct Hs as [Hlen Hidx].
      destruct c as [t dets| |t| | | |]; simpl do_tracker_call;
        try (split; reflexivity).
      + unfold updateDetectedCards.
        destruct (m_phase s); try (split; assumption).
        destruct (stable_cards _) as [|c0 [|c1 [|c2 rest]]];
          try (split; assumption).
        cbn [m_playerHands analyzeHands detectPairs m_phase
             m_currentHandIndex m_dealerUpcard m_detectedCardIds
             m_lastUpdate m_lastDecision m_cardStability m_decisionMade].
        rewrite length_alter, length_map, length_alter. now split.
      + unfold completeCurrentHand.
        cbn [m_playerHands m_currentHandIndex].
        destruct (_ <? _); [rewrite length_alter|]; now split.
      + unfold advanceToNextHand, hasMoreHands. rewrite Hlen, Hidx.
        simpl. now split.
      + unfold markHandComplete. simpl. now split. }
  destruct Hinv as [Hlen Hidx].
  repeat split; try assumption.
  unfold hasMoreHands. rewrite Hlen, Hidx. reflexivity.
Qed.

(** X13.  The tracker always holds exactly one hand, at index 0: no call
    appends a hand, so there is never a next hand to advance to,
    [advanceToNextHand] always ends the hand and the current hand
    always exists. *)
Theorem tracker_keeps_one_hand (calls : list tracker_call) (now : Z) :
  let s := fold_left do_tracker_call calls (GameStateTracker.new now) in
  length (m_playerHands s) = 1%nat
  /\ m_currentHandIndex s = 0
  /\ hasMoreHands s = false
  /\ advanceToNextHand s = markHandComplete s
  /\ getCurrentHand s = head (m_playerHands s)
  /\ getCurrentHand s <> None.
Proof.
  cbn zeta.
  destruct (tracker_single_hand calls now) as (Hlen & Hidx & Hmore).
  cbn zeta in *.
  repeat split; try assumption.
  - unfold advanceToNextHand. now rewrite Hmore.
  - unfold getCurrentHand. rewrite Hidx, Hlen.
    destruct (m_playerHands _) as [|h [|h' l]]; try discriminate.
    reflexivity.
  - unfold getCurrentHand. rewrite Hidx, Hlen.
    destruct (m_playerHands _) as [|h [|h' l]]; discriminate.
Qed.

Lemma bump_track_stable (current : list N) (st : list (N * Z)) (id : N) :
  In id (stable_cards (track_new current (bump_stability current st))) ->
  In id current.
Proof.
  unfold stable_cards. rewrite in_map_iff.
  intros ((id', n) & Heq & Hin). cbn [fst] in Heq. subst id'.
  apply filter_In in Hin as [Hin Hn]. cbn [snd] in Hn.
  apply Z.leb_le in Hn. unfold STABILITY_FRAMES in Hn.
  assert (Hgen :
            forall (ids : list N) (acc : list (N * Z)),
              In (id, n)
                 (fold_left
                    (fun acc card_id =>
                       if existsb (fun e : N * Z => N.eqb (fst e) card_id) acc
                       then acc else acc ++ [(card_id, 1)]) ids acc) ->
              In (id, n) acc \/ n = 1).
  { clear. induction ids as [|i ids IH]; intros acc H; simpl in H.
    - now left.
    - apply IH in H as [H | H]; [|now right].
      destruct (existsb _ acc); [now left|].
      apply in_app_iff in H as [H | [H | []]]; [now left|].
      right. congruence. }
  apply Hgen in Hin as [Hin | Hone]; [|lia].
  unfold bump_stability in Hin. apply in_map_iff in Hin as (e & He & _).
  destruct (existsb (N.eqb (fst e)) current) eqn:Ee.
  - apply existsb_exists in Ee as (x & Hx & Hxe).
    apply N.eqb_eq in Hxe. injection He as <- _. now rewrite Hxe.
  - injection He as _ <-. lia.
Qed.

Lemma updateDetectedCards_stability (now : Z) (dets : list Detection)
    (s : GameStateTracker.t) :
  m_cardStability (updateDetectedCards now dets s)
  = track_new (map card_id dets)
      (bump_stability (map card_id dets) (m_cardStability s)).
Proof.
  unfold updateDetectedCards.
  destruct (m_phase s); try reflexivity.
  destruct (stable_cards _) as [|c0 [|c1 [|c2 rest]]]; reflexivity.
Qed.

(** X14.  Only cards shown in the current frame are stable: an identity
    that reaches the stability threshold after [updateDetectedCards]
    is among the frame's detections, since a missed frame puts the
    counter of an identity back to 0. *)
Theorem stable_cards_are_in_frame (now : Z) (dets : list Detection)
    (s : GameStateTracker.t) (id : N) :
  In id (stable_cards (m_cardStability (updateDetectedCards now dets s))) ->
  In id (map card_id dets).
Proof.
  rewrite updateDetectedCards_stability. apply bump_track_stable.
Qed.

Lemma stable_cards_are_in_frame_witness :
  In 5%N (map card_id [mkDetection 5; mkDetection 6; mkDetection 7]).
Proof.
  apply (stable_cards_are_in_frame 2 [mkDetection 5; mkDetection 6; mkDetection 7]
           (track_frames
              [(0, [mkDetection 5; mkDetection 6; mkDetection 7]);
               (1, [mkDetection 5; mkDetection 6; mkDetection 7])]
              (GameStateTracker.new 0))).
  vm_compute. left. reflexivity.
Defined.

Lemma track_frames_frozen (frames : list (Z * list Detection))
    (s : GameStateTracker.t) :
  m_phase s <> WaitingForCards ->
  let s' := track_frames frames s in
  m_phase s' = m_phase s
  /\ m_playerHands s' = m_playerHands s
  /\ m_dealerUpcard s' = m_dealerUpcard s
  /\ m_decisionMade s' = m_decisionMade s
  /\ m_lastDecision s' = m_lastDecision s.
Proof.
  cbn zeta. unfold track_frames. revert s.
  induction frames as [|f frames IH]; intros s Hph; simpl fold_left.
  - repeat split.
  - assert (Hstep :
              m_phase (updateDetectedCards (fst f) (snd f) s) = m_phase s
              /\ m_playerHands (updateDetectedCards (fst f) (snd f) s)
                 = m_playerHands s
              /\ m_dealerUpcard (updateDetectedCards (fst f) (snd f) s)
                 = m_dealerUpcard s
              /\ m_decisionMade (updateDetectedCards (fst f) (snd f) s)
                 = m_decisionMade s
              /\ m_lastDecision (updateDetectedCards (fst f) (snd f) s)
                 = m_lastDecision s).
    { unfold updateDetectedCards.
      destruct (m_phase s) eqn:E; try contradiction; repeat split;
        cbn [m_phase]; auto. }
    destruct Hstep as (H1 & H2 & H3 & H4 & H5).
    destruct (IH (updateDetectedCards (fst f) (snd f) s)) as
      (I1 & I2 & I3 & I4 & I5); [now rewrite H1|].
    repeat split; congruence.
Qed.

(** X15.  Frames deal cards only in the phase [WaitingForCards]: in every
    other phase a run of frames leaves the phase, the hands, the dealer
    upcard and the decision bookkeeping as they are; a card drawn
    after the deal is never added to the hand. *)
Theorem frames_deal_only_while_waiting (frames : list (Z * list Detection))
    (s : GameStateTracker.t) :
  m_phase s <> WaitingForCards ->
  let s' := track_frames frames s in
  m_phase s' = m_phase s
  /\ m_playerHands s' = m_playerHands s
  /\ m_dealerUpcard s' = m_dealerUpcard s
  /\ m_decisionMade s' = m_decisionMade s
  /\ m_lastDecision s' = m_lastDecision s.
Proof. apply track_frames_frozen. Qed.

Lemma frames_deal_only_while_waiting_witness :
  m_playerHands
    (track_frames
       [(0, [mkDetection 1; mkDetection 2; mkDetection 3]);
        (1, [mkDetection 1; mkDetection 2; mkDetection 3]);
        (2, [mkDetection 1; mkDetection 2; mkDetection 3])]
       (resetForNewShoe (GameStateTracker.new 0)))
  = [emptyHand].
Proof.
  destruct (frames_deal_only_while_waiting
              [(0, [mkDetection 1; mkDetection 2; mkDetection 3]);
               (1, [mkDetection 1; mkDetection 2; mkDetection 3]);
               (2, [mkDetection 1; mkDetection 2; mkDetection 3])]
              (resetForNewShoe (GameStateTracker.new 0)))
    as (_ & H & _).
  - discriminate.
  - exact H.
Defined.

(** X16.  One decision per hand: once [completeCurrentHand] has run outside
    the phase [WaitingForCards], no run of frames makes the hand due
    for a decision again. *)
Theorem one_decision_per_hand (now now' : Z)
    (frames : list (Z * list Detection)) (s : GameStateTracker.t) :
  m_phase s <> WaitingForCards ->
  shouldProcessDecision now'
    (track_frames frames (completeCurrentHand now s)) = false.
Proof.
  intros Hph.
  destruct (track_frames_frozen frames (completeCurrentHand now s))
    as (H1 & _ & _ & H4 & _); [exact Hph|].
  unfold shouldProcessDecision. rewrite H4.
  cbn [m_decisionMade completeCurrentHand].
  destruct (negb _); [reflexivity|]. destruct (negb _); reflexivity.
Qed.

Lemma one_decision_per_hand_witness :
  shouldProcessDecision 10000000000
    (track_frames
       [(6, [mkDetection 1; mkDetection 2; mkDetection 3; mkDetection 9])]
       (completeCurrentHand 5
          (track_frames
             [(0, [mkDetection 1; mkDetection 2; mkDetection 3]);
              (1, [mkDetection 1; mkDetection 2; mkDetection 3]);
              (2, [mkDetection 1; mkDetection 2; mkDetection 3])]
             (GameStateTracker.new 0))))
  = false.
Proof.
  apply (one_decision_per_hand 5 10000000000
           [(6, [mkDetection 1; mkDetection 2; mkDetection 3; mkDetection 9])]
           (track_frames
              [(0, [mkDetection 1; mkDetection 2; mkDetection 3]);
               (1, [mkDetection 1; mkDetection 2; mkDetection 3]);
               (2, [mkDetection 1; mkDetection 2; mkDetection 3])]
              (GameStateTracker.new 0))).
  vm_compute. discriminate.
Defined.
End TrackerMore.

(** ** The Game State Tracker: the deal *)
Section Dealing.
Import Machine Types GameStateTracker Props MoreProps.

Lemma calculateHandTotal_cards (h : PlayerHand) :
  cards (calculateHandTotal h) = cards h.
Proof.
  unfold calculateHandTotal. destruct (cards h) eqn:E; [exact E|].
  destruct (sum_cards _). destruct (soften _ _). reflexivity.
Qed.

Lemma map_cards_alter (f : PlayerHand -> PlayerHand) (i : nat)
    (l : list PlayerHand) :
  (forall h, cards (f h) = cards h) ->
  map cards (alter f i l) = map cards l.
Proof.
  intros Hf. revert i. induction l as [|h l IH]; intros [|i]; simpl;
    try reflexivity.
  - now rewrite Hf.
  - f_equal. apply IH.
Qed.

Lemma analyzeHands_cards (s : GameStateTracker.t) :
  map cards (m_playerHands (analyzeHands s)) = map cards (m_playerHands s).
Proof.
  unfold analyzeHands, detectPairs. cbn [m_playerHands m_currentHandIndex].
  rewrite map_cards_alter.
  - rewrite map_map. apply map_ext. apply calculateHandTotal_cards.
  - intros h. transitivity (cards (set_pair false h)); [|reflexivity].
    destruct (cards h) as [|c0 [|c1 [|c2 l]]]; reflexivity.
Qed.

(** A frame with fewer than three stable cards deals nothing. *)
Lemma updateDetectedCards_no_deal (now : Z) (dets : list Detection)
    (s : GameStateTracker.t) :
  (length (stable_cards (m_cardStability (updateDetectedCards now dets s)))
   < 3)%nat ->
  m_phase (updateDetectedCards now dets s) = m_phase s
  /\ m_playerHands (updateDetectedCards now dets s) = m_playerHands s
  /\ m_dealerUpcard (updateDetectedCards now dets s) = m_dealerUpcard s.
Proof.
  rewrite updateDetectedCards_stability.
  unfold updateDetectedCards. cbn zeta.
  destruct (stable_cards _) as [|c0 [|c1 [|c2 rest]]]; simpl length;
    intros Hlen; try lia; destruct (m_phase s); repeat split.
Qed.

(** A frame with three stable cards or more, in the phase
    [WaitingForCards], deals the first two to the player and the third
    to the dealer. *)
Lemma updateDetectedCards_deal (now : Z) (dets : list Detection)
    (s : GameStateTracker.t) (h : PlayerHand) (c0 c1 c2 : N) (rest : list N) :
  m_phase s = WaitingForCards ->
  m_playerHands s = [h] ->
  stable_cards (m_cardStability (updateDetectedCards now dets s))
  = c0 :: c1 :: c2 :: rest ->
  m_phase (updateDetectedCards now dets s) = PlayerTurn
  /\ map cards (m_playerHands (updateDetectedCards now dets s))
     = [[card_of_id c0; card_of_id c1]]
  /\ m_dealerUpcard (updateDetectedCards now dets s) = Some (card_of_id c2)
  /\ m_decisionMade (updateDetectedCards now dets s) = false.
Proof.
  rewrite updateDetectedCards_stability.
  intros Hph Hh Hst.
  unfold updateDetectedCards. cbn zeta. rewrite Hph, Hst.
  cbn [m_phase m_playerHands m_dealerUpcard m_decisionMade].
  rewrite analyzeHands_cards. cbn [m_playerHands]. rewrite Hh.
  repeat split.
Qed.

Lemma stability_step (a b c : N) (n : Z) :
  a <> b -> a <> c -> b <> c ->
  track_new [a; b; c] (bump_stability [a; b; c] [(a, n); (b, n); (c, n)])
  = [(a, int32 (n + 1)); (b, int32 (n + 1)); (c, int32 (n + 1))].
Proof.
  intros Hab Hac Hbc.
  assert (Eba : (b =? a)%N = false) by (apply N.eqb_neq; congruence).
  assert (Eca : (c =? a)%N = false) by (apply N.eqb_neq; congruence).
  assert (Ecb : (c =? b)%N = false) by (apply N.eqb_neq; congruence).
  assert (Eab : (a =? b)%N = false) by now apply N.eqb_neq.
  assert (Eac : (a =? c)%N = false) by now apply N.eqb_neq.
  assert (Ebc : (b =? c)%N = false) by now apply N.eqb_neq.
  unfold bump_stability, track_new.
  repeat (progress (cbn [map fold_left existsb fst snd orb app];
                    rewrite ?N.eqb_refl, ?Eab, ?Eac, ?Ebc, ?Eba, ?Eca, ?Ecb)).
  reflexivity.
Qed.

Lemma stability_first (a b c : N) :
  a <> b -> a <> c -> b <> c ->
  track_new [a; b; c] (bump_stability [a; b; c] [])
  = [(a, 1); (b, 1); (c, 1)].
Proof.
  intros Hab Hac Hbc.
  assert (Eab : (a =? b)%N = false) by now apply N.eqb_neq.
  assert (Eac : (a =? c)%N = false) by now apply N.eqb_neq.
  assert (Ebc : (b =? c)%N = false) by now apply N.eqb_neq.
  unfold bump_stability, track_new.
  repeat (progress (cbn [map fold_left existsb fst snd orb app];
                    rewrite ?N.eqb_refl, ?Eab, ?Eac, ?Ebc)).
  reflexivity.
Qed.

(** X17.  Three distinct identities shown together in three frames in a row
    are dealt on the third frame, not before: the first two in the
    order of detection form the player hand and the third is the dealer
    upcard. *)
Theorem three_stable_frames_deal (now t1 t2 t3 : Z) (a b c : N) :
  a <> b -> a <> c -> b <> c ->
  let dets := [mkDetection a; mkDetection b; mkDetection c] in
  let s2 := track_frames [(t1, dets); (t2, dets)] (GameStateTracker.new now) in
  let s3 := updateDetectedCards t3 dets s2 in
  getCurrentPhase s2 = WaitingForCards
  /\ map cards (m_playerHands s2) = [[]]
  /\ getCurrentPhase s3 = PlayerTurn
  /\ map cards (m_playerHands s3) = [[card_of_id a; card_of_id b]]
  /\ getDealerUpcard s3 = Some (card_of_id c)
  /\ areInitialCardsDetected s3 = true.
Proof.
  intros Hab Hac Hbc. cbn zeta.
  unfold track_frames. cbn [fold_left fst snd].
  set (dets := [mkDetection a; mkDetection b; mkDetection c]).
  set (s0 := GameStateTracker.new now).
  set (s1 := updateDetectedCards t1 dets s0).
  set (s2 := updateDetectedCards t2 dets s1).
  assert (St1 : m_cardStability s1 = [(a, 1); (b, 1); (c, 1)]).
  { subst s1. rewrite updateDetectedCards_stability.
    now apply stability_first. }
  assert (St2 : m_cardStability s2 = [(a, 2); (b, 2); (c, 2)]).
  { subst s2. rewrite updateDetectedCards_stability, St1.
    now apply (stability_step a b c 1). }
  assert (St3 : m_cardStability (updateDetectedCards t3 dets s2)
                = [(a, 3); (b, 3); (c, 3)]).
  { rewrite updateDetectedCards_stability, St2.
    now apply (stability_step a b c 2). }
  destruct (updateDetectedCards_no_deal t1 dets s0) as (P1 & H1 & D1).
  { fold s1. rewrite St1. simpl. lia. }
  destruct (updateDetectedCards_no_deal t2 dets s1) as (P2 & H2 & D2).
  { fold s2. rewrite St2. simpl. lia. }
  fold s1 in P1, H1, D1. fold s2 in P2, H2, D2.
  assert (Ph2 : m_phase s2 = WaitingForCards) by (rewrite P2, P1; reflexivity).
  assert (Hh2 : m_playerHands s2 = [emptyHand])
    by (rewrite H2, H1; reflexivity).
  destruct (updateDetectedCards_deal t3 dets s2 emptyHand a b c [] Ph2 Hh2)
    as (P3 & H3 & D3 & _).
  { rewrite St3. reflexivity. }
  unfold getCurrentPhase, getDealerUpcard.
  split; [exact Ph2|]. split; [now rewrite Hh2|].
  split; [exact P3|]. split; [exact H3|]. split; [exact D3|].
  unfold areInitialCardsDetected. rewrite D3.
  destruct (m_playerHands (updateDetectedCards t3 dets s2)) as [|h [|h' l]];
    try discriminate H3.
  injection H3 as ->. reflexivity.
Qed.

Lemma three_stable_frames_deal_witness :
  getDealerUpcard
    (updateDetectedCards 2
       [mkDetection 9; mkDetection 22; mkDetection 0]
       (track_frames
          [(0, [mkDetection 9; mkDetection 22; mkDetection 0]);
           (1, [mkDetection 9; mkDetection 22; mkDetection 0])]
          (GameStateTracker.new 0)))
  = Some (mkCard Ace Hearts).
Proof.
  destruct (three_stable_frames_deal 0 0 1 2 9 22 0)
    as (_ & _ & _ & _ & H & _); try discriminate.
  exact H.
Defined.
End Dealing.

(** ** Basic strategy: shape of the answers *)
Section StrategyMore.
Import Types BasicStrategy Props MoreProps.

(** X18.  The dealer's face cards.  [dealerValue] maps only the ace to 11 and
    passes every other rank through as its enumerator: a Jack (11) is
    looked up in the ace column, and a Queen (12) or King (13) falls
    outside the table and gets Stand, whatever the player holds. *)
Theorem getAction_face_upcards (s : BasicStrategy.t) (playerTotal : Z)
    (isSoft canDouble canSplit : bool) :
  getAction s playerTotal Jack isSoft canDouble canSplit
  = getAction s playerTotal Ace isSoft canDouble canSplit
  /\ getAction s playerTotal Queen isSoft canDouble canSplit = Stand
  /\ getAction s playerTotal King isSoft canDouble canSplit = Stand.
Proof.
  unfold getAction, dealerValue. cbn [rank_int Z.eqb Pos.eqb].
  repeat split;
    destruct ((playerTotal <? 4) || (21 <? playerTotal)); reflexivity.
Qed.

Lemma table_get_plays (tbl : table) (i j : Z) :
  forallb (forallb plays) tbl = true -> plays (table_get tbl i j) = true.
Proof.
  intros H. unfold table_get.
  destruct (tbl !! Z.to_nat i) as [row|] eqn:Er; [|reflexivity].
  destruct (row !! Z.to_nat j) as [a|] eqn:Ea; [|reflexivity].
  rewrite forallb_forall in H.
  apply list_elem_of_lookup_2, list_elem_of_In in Er.
  apply list_elem_of_lookup_2, list_elem_of_In in Ea.
  specialize (H row Er). rewrite forallb_forall in H. now apply H.
Qed.

Lemma built_tables_play (rules : string) (s0 : BasicStrategy.t) :
  forallb (forallb plays) (m_hardTotals (initialize rules s0)) = true
  /\ forallb (forallb plays) (m_softTotals (initialize rules s0)) = true.
Proof. split; vm_compute; reflexivity. Qed.

Lemma getAction_built (rules : string) (s0 : BasicStrategy.t)
    (playerTotal : Z) (dealerUpcard : CardRank)
    (isSoft canDouble canSplit : bool) :
  let a := getAction (initialize rules s0) playerTotal dealerUpcard
             isSoft canDouble canSplit in
  a <> Surrender /\ (a = Split -> canSplit = true).
Proof.
  cbn zeta.
  destruct (built_tables_play rules s0) as [Hh Hs].
  pose proof (table_get_plays _ playerTotal (dealerValue dealerUpcard) Hh)
    as Ph.
  pose proof (table_get_plays _ playerTotal (dealerValue dealerUpcard) Hs)
    as Ps.
  unfold getAction.
  destruct ((playerTotal <? 4) || (21 <? playerTotal));
    [split; discriminate|].
  destruct ((dealerValue dealerUpcard <? 2) || (11 <? dealerValue dealerUpcard));
    [split; discriminate|].
  destruct canSplit.
  - destruct (action_eqb _ Split); [split; [discriminate | reflexivity]|].
    destruct isSoft.
    + destruct (table_get (m_softTotals _) _ _); try discriminate Ps;
        destruct canDouble; cbn; split; discriminate.
    + destruct (table_get (m_hardTotals _) _ _); try discriminate Ph;
        destruct canDouble; cbn; split; discriminate.
  - destruct isSoft.
    + destruct (table_get (m_softTotals _) _ _); try discriminate Ps;
        destruct canDouble; cbn; split; discriminate.
    + destruct (table_get (m_hardTotals _) _ _); try discriminate Ph;
        destruct canDouble; cbn; split; discriminate.
Qed.

(** X19.  On the tables [buildStrategyTables] fills, [getAction] never
    answers Surrender, and never answers Split unless [canSplit] is
    set. *)
Theorem getAction_split_needs_pair (rules : string) (s0 : BasicStrategy.t)
    (playerTotal : Z) (dealerUpcard : CardRank)
    (isSoft canDouble canSplit : bool) :
  let a := getAction (initialize rules s0) playerTotal dealerUpcard
             isSoft canDouble canSplit in
  a <> Surrender
  /\ (canSplit = false -> a <> Split).
Proof.
  cbn zeta.
  destruct (getAction_built rules s0 playerTotal dealerUpcard isSoft
              canDouble canSplit) as [H1 H2].
  split; [exact H1|]. intros Hc Ha. apply H2 in Ha. congruence.
Qed.

Lemma getAction_split_needs_pair_witness :
  getAction (initialize "s17_das" BasicStrategy.new) 16 Six false true false
  = Stand.
Proof.
  destruct (getAction_split_needs_pair "s17_das" BasicStrategy.new 16 Six
              false true false) as [_ H].
  specialize (H eq_refl).
  destruct (getAction _ 16 Six false true false) eqn:E;
    try (vm_compute in E; discriminate E).
  reflexivity.
Defined.

Lemma at_least_cases (trueCount k : Q) (yes : Action) :
  at_least trueCount k yes = yes \/ at_least trueCount k yes = Hit.
Proof. unfold at_least. destruct (Qle_bool k trueCount); auto. Qed.

Lemma getDeviationAction_no_split_built (enabled : bool) (rules : string)
    (playerTotal : Z) (dealerUpcard : CardRank) (trueCount : Q) :
  getDeviationAction
    (BasicStrategy.mk build_hardTotals build_softTotals build_pairSplitting
                      enabled rules)
    playerTotal dealerUpcard trueCount
  <> Split.
Proof.
  pose proof (getAction_built EmptyString BasicStrategy.new playerTotal
                dealerUpcard false true false) as [_ Hsp].
  cbn zeta in Hsp.
  assert (Hfb : getAction
                  (BasicStrategy.mk build_hardTotals build_softTotals
                                    build_pairSplitting enabled rules)
                  playerTotal dealerUpcard false true false <> Split).
  { intros Ha.
    change (getAction (initialize EmptyString BasicStrategy.new) playerTotal
              dealerUpcard false true false = Split) in Ha.
    apply Hsp in Ha. discriminate. }
  unfold getDeviationAction.
  repeat match goal with
         | |- (if ?b then _ else _) <> _ => destruct b
         | |- at_least ?tc ?k ?y <> _ =>
             destruct (at_least_cases tc k y) as [-> | ->]; discriminate
         | |- Hit <> Split => discriminate
         end;
    exact Hfb.
Qed.

Lemma getDeviationAction_no_split (rules : string)
    (s0 : BasicStrategy.t) (playerTotal : Z) (dealerUpcard : CardRank)
    (trueCount : Q) :
  getDeviationAction (initialize rules s0) playerTotal dealerUpcard trueCount
  <> Split.
Proof. apply (getDeviationAction_no_split_built false EmptyString). Qed.

(** X20.  [getDeviationAction] never answers Split, whatever the rules, the
    hand and the true count: its index plays are Stand, Double,
    Surrender or Hit, and its fall-back asks [getAction] with
    [canSplit] false.  This holds for every object the program builds
    and, on the tables [buildStrategyTables] fills, for either value of
    [m_deviationsEnabled]. *)
Theorem getDeviationAction_never_splits (rules : string)
    (s0 : BasicStrategy.t) (playerTotal : Z) (dealerUpcard : CardRank)
    (trueCount : Q) :
  getDeviationAction (initialize rules s0) playerTotal dealerUpcard trueCount
  <> Split
  /\ (forall (enabled : bool) (rules' : string),
         getDeviationAction
           (BasicStrategy.mk build_hardTotals build_softTotals
                             build_pairSplitting enabled rules')
           playerTotal dealerUpcard trueCount
         <> Split).
Proof.
  split; [apply getDeviationAction_no_split|].
  intros enabled rules'. apply getDeviationAction_no_split_built.
Qed.

(** X21.  15 against an ace never gets Surrender on the tables
    [buildStrategyTables] fills, whatever [m_deviationsEnabled] and
    [m_rules] hold.  With the flag cleared, as on every object the
    program builds, [getDeviationAction] answers from the hard table,
    which holds no Surrender.  With the flag set, as it is declared,
    the Illustrious 18 test for 15 against an ace comes before the
    Fab 4 test for the same hand, which is therefore unreachable. *)
Theorem fifteen_vs_ace_never_surrenders (enabled : bool) (rules : string)
    (trueCount : Q) :
  getDeviationAction
    (BasicStrategy.mk build_hardTotals build_softTotals build_pairSplitting
                      enabled rules)
    15 Ace trueCount
  <> Surrender.
Proof.
  unfold getDeviationAction.
  cbn [m_deviationsEnabled dealerValue rank_int Z.eqb Pos.eqb andb].
  destruct enabled; cbn [negb].
  - destruct (rules_has "h17" _); [|discriminate].
    destruct (at_least_cases trueCount 1 Stand) as [-> | ->]; discriminate.
  - vm_compute. discriminate.
Qed.
End StrategyMore.

(** ** Betting: limits and the camouflage ladder *)
Section BettingMore.
Import Machine BettingStrategy Props MoreProps.

Lemma Qlt_bool_false (a b : Q) : Qlt_bool a b = false -> (b <= a)%Q.
Proof.
  unfold Qlt_bool. intros H. apply negb_false_iff in H.
  now apply Qle_bool_iff.
Qed.

Lemma Qlt_bool_true (a b : Q) : Qlt_bool a b = true -> (a < b)%Q.
Proof.
  unfold Qlt_bool. intros H. apply negb_true_iff in H.
  apply Qnot_le_lt. intros Hle. apply Qle_bool_iff in Hle. congruence.
Qed.

Lemma overflow_not_nan (max r : Q) : overflow max r <> NaN.
Proof.
  unfold overflow.
  destruct (negb (Qle_bool r max)); [discriminate|].
  destruct (negb (Qle_bool (- max) r)); discriminate.
Qed.

Lemma times_inf_nan (x : Q) (positive : bool) :
  times_inf x positive = NaN -> (x == 0)%Q.
Proof.
  unfold times_inf. destruct (Qeq_bool x 0) eqn:E.
  - intros _. now apply Qeq_bool_iff.
  - destruct (xorb _ _); discriminate.
Qed.

(** A NaN leaves [calculateKellyBet] only as the product of a zero and
    an infinity. *)
Lemma calculateKellyBet_nan (s : BettingStrategy.t) (x bankroll : Q) :
  calculateKellyBet s (fp32 x) bankroll = NaN ->
  (bankroll == 0)%Q \/ (m_kellyFraction s == 0)%Q.
Proof.
  unfold calculateKellyBet.
  destruct (fp32 x) as [e| | |] eqn:Ee;
    [| | |now elim (overflow_not_nan FLT_MAX (float32 x))];
    cbn [fp_div_pos fp_mul].
  - destruct (fp32 (e / BLACKJACK_VARIANCE)) as [f| | |] eqn:Ef;
      [| | |now elim (overflow_not_nan FLT_MAX
                        (float32 (e / BLACKJACK_VARIANCE)))];
      cbn [fp_mul].
    + destruct (fp32 (f * m_kellyFraction s)) as [g| | |] eqn:Eg;
        [| | |now elim (overflow_not_nan FLT_MAX
                          (float32 (f * m_kellyFraction s)))];
        cbn [fp_mul].
      * intros H. now elim (overflow_not_nan DBL_MAX (float64 (bankroll * g))).
      * intros H. left. now apply times_inf_nan in H.
      * intros H. left. now apply times_inf_nan in H.
    + destruct (times_inf (m_kellyFraction s) true) as [g| | |] eqn:Eg;
        cbn [fp_mul]; intros H.
      * now elim (overflow_not_nan DBL_MAX (float64 (bankroll * g))).
      * left. now apply times_inf_nan in H.
      * left. now apply times_inf_nan in H.
      * right. now apply times_inf_nan in Eg.
    + destruct (times_inf (m_kellyFraction s) false) as [g| | |] eqn:Eg;
        cbn [fp_mul]; intros H.
      * now elim (overflow_not_nan DBL_MAX (float64 (bankroll * g))).
      * left. now apply times_inf_nan in H.
      * left. now apply times_inf_nan in H.
      * right. now apply times_inf_nan in Eg.
  - destruct (times_inf (m_kellyFraction s) true) as [g| | |] eqn:Eg;
      cbn [fp_mul]; intros H.
    + now elim (overflow_not_nan DBL_MAX (float64 (bankroll * g))).
    + left. now apply times_inf_nan in H.
    + left. now apply times_inf_nan in H.
    + right. now apply times_inf_nan in Eg.
  - destruct (times_inf (m_kellyFraction s) false) as [g| | |] eqn:Eg;
      cbn [fp_mul]; intros H.
    + now elim (overflow_not_nan DBL_MAX (float64 (bankroll * g))).
    + left. now apply times_inf_nan in H.
    + left. now apply times_inf_nan in H.
    + right. now apply times_inf_nan in Eg.
Qed.

(** A NaN is reached: with a true count and a Kelly fraction of 2^100
    the [float] product of the Kelly percentage and the fraction
    overflows to an infinity, and a bankroll of 0 times an infinity is
    a NaN, which [std::clamp] returns. *)
Example calculateBet_nan :
  calculateBet (configure 10 500 (inject_Z (2 ^ 100)) BettingStrategy.new)
               (inject_Z (2 ^ 100)) 0
  = NaN.
Proof. vm_compute. reflexivity. Qed.

(** X22.  For a finite true count and bankroll and a minimum bet that
    does not exceed the maximum, [calculateBet] returns a finite bet
    between the two, also when an intermediate result overflows to an
    infinity, or it returns a NaN; a NaN only for a positive true
    count with a bankroll or a Kelly fraction of 0 (the product of a
    zero and an infinity), as in [calculateBet_nan]. *)
Theorem calculateBet_within_limits (s : BettingStrategy.t)
    (trueCount bankroll : Q) :
  (m_minBet s <= m_maxBet s)%Q ->
  match calculateBet s trueCount bankroll with
  | Finite bet => (m_minBet s <= bet)%Q /\ (bet <= m_maxBet s)%Q
  | NaN =>
      (0 < trueCount)%Q
      /\ ((bankroll == 0)%Q \/ (m_kellyFraction s == 0)%Q)
  | PInf | NInf => False
  end.
Proof.
  intros Hmm. unfold calculateBet.
  destruct (Qle_bool trueCount 0) eqn:Etc;
    [split; [apply Qle_refl | exact Hmm]|].
  assert (Hpos : (0 < trueCount)%Q).
  { apply Qnot_le_lt. intros Hle. apply Qle_bool_iff in Hle. congruence. }
  cbn zeta. cbn [fp_mul]. unfold fp_clamp.
  destruct (calculateKellyBet s _ bankroll) as [x| | |] eqn:Ev;
    cbn [fp_lt].
  - destruct (Qle_bool (m_minBet s) x) eqn:E1; cbn [negb];
      [|split; [apply Qle_refl | exact Hmm]].
    apply Qle_bool_iff in E1.
    destruct (Qle_bool x (m_maxBet s)) eqn:E2; cbn [negb].
    + apply Qle_bool_iff in E2. split; assumption.
    + split; [exact Hmm | apply Qle_refl].
  - split; [exact Hmm | apply Qle_refl].
  - split; [apply Qle_refl | exact Hmm].
  - split; [exact Hpos|]. now apply calculateKellyBet_nan in Ev.
Qed.

Lemma calculateBet_within_limits_witness :
  match calculateBet BettingStrategy.new 3 10000 with
  | Finite bet => (10 <= bet)%Q /\ (bet <= 500)%Q
  | _ => False
  end.
Proof.
  pose proof (calculateBet_within_limits BettingStrategy.new 3 10000) as H.
  destruct (calculateBet BettingStrategy.new 3 10000) as [bet| | |] eqn:E;
    try (vm_compute in E; discriminate E).
  apply H. vm_compute. discriminate.
Defined.

(** The camouflage bet never exceeds the table maximum. *)
Theorem getCamouflageBet_capped (s : BettingStrategy.t) (trueCount : Q) :
  (getCamouflageBet s trueCount <= m_maxBet s)%Q.
Proof.
  unfold getCamouflageBet. cbn zeta. unfold std_min.
  destruct (Qlt_bool (m_maxBet s) _) eqn:E.
  - apply Qle_refl.
  - now apply Qlt_bool_false in E.
Qed.

Lemma Qle_bool_inject_Z (a b : Z) :
  Qle_bool (inject_Z a) (inject_Z b) = (a <=? b).
Proof. unfold Qle_bool, inject_Z. simpl. now rewrite !Z.mul_1_r. Qed.

(** X23.  On whole true counts the ladder is the documented one: the entry
    of the spread is the true count cut to the range 0..4. *)
Theorem camouflage_units_whole (s : BettingStrategy.t) (n : Z) :
  camouflage_units s (inject_Z n)
  = spread s (Z.to_nat (Z.max 0 (Z.min n 4))).
Proof.
  unfold camouflage_units, Qlt_bool.
  change 0%Q with (inject_Z 0). change 1%Q with (inject_Z 1).
  change 2%Q with (inject_Z 2). change 3%Q with (inject_Z 3).
  change 4%Q with (inject_Z 4).
  rewrite !Qle_bool_inject_Z.
  destruct (n <=? 0) eqn:E0.
  { apply Z.leb_le in E0.
    replace (Z.max 0 (Z.min n 4)) with 0 by lia. reflexivity. }
  apply Z.leb_gt in E0.
  destruct (Z.eq_dec n 1) as [-> | N1]; [reflexivity|].
  destruct (Z.eq_dec n 2) as [-> | N2]; [reflexivity|].
  destruct (Z.eq_dec n 3) as [-> | N3]; [reflexivity|].
  replace (Z.max 0 (Z.min n 4)) with 4 by lia.
  replace (2 <=? n) with true by (symmetry; apply Z.leb_le; lia).
  replace (3 <=? n) with true by (symmetry; apply Z.leb_le; lia).
  replace (4 <=? n) with true by (symmetry; apply Z.leb_le; lia).
  replace (1 <=? n) with true by (symmetry; apply Z.leb_le; lia).
  reflexivity.
Qed.
End BettingMore.

(** ** The orchestrator's count *)
Section AdvisorCount.
Import Machine Types CardCounter RealtimeAdvisor Props MoreProps.

Lemma updateCardCount_seen (dets : list Detection) :
  forall p : process,
    Forall (fun det => card_id det ∈ snd p) dets ->
    updateCardCount dets p = p.
Proof.
  induction dets as [|det dets IH]; intros p Hall; simpl.
  - reflexivity.
  - inversion Hall as [|? ? Hdet Hrest]; subst.
    assert (Hc : count_detection p det = p).
    { destruct p as [a counted]. unfold count_detection.
      cbn [snd] in Hdet. rewrite (bool_decide_eq_true_2 _ Hdet).
      reflexivity. }
    unfold updateCardCount in *. rewrite Hc. now apply IH.
Qed.

(** X24.  Showing the same detections again changes nothing: the count, the
    tracker and the set of counted identities are as after the first
    pass. *)
Theorem updateCardCount_idempotent (dets : list Detection) (p : process) :
  updateCardCount dets (updateCardCount dets p) = updateCardCount dets p.
Proof.
  apply updateCardCount_seen. apply List.Forall_forall. intros [id] Hin.
  cbn [card_id]. now apply updateCardCount_counted.
Qed.

(** X25.  Identities not counted before, each shown once, move the running
    count by the sum of the Hi-Lo values of their cards, whatever the
    identities are: an identity of 52 or more is counted as the card of
    rank [id mod 13 + 1]. *)
Theorem updateCardCount_new_identities (ids : list N) (p : process) :
  NoDup ids ->
  (forall id, In id ids -> id ∉ snd p) ->
  int32 (getRunningCount p) = getRunningCount p ->
  getRunningCount (updateCardCount (map mkDetection ids) p)
  = int32 (getRunningCount p + sum_hilo (map card_of_id ids))
  /\ (forall id, In id ids ->
                 id ∈ snd (updateCardCount (map mkDetection ids) p)).
Proof.
  intros Hnd Hnew Hrc. split.
  - revert p Hnew Hrc.
    induction Hnd as [|id ids Hnotin Hnd IH]; intros p Hnew Hrc.
    + simpl. unfold sum_hilo. simpl. now rewrite Z.add_0_r.
    + simpl map. unfold updateCardCount. simpl fold_left.
      fold (updateCardCount (map mkDetection ids)
              (count_detection p (mkDetection id))).
      assert (Hid : id ∉ snd p) by (apply Hnew; now left).
      destruct p as [a counted]. cbn [snd] in Hid.
      unfold count_detection at 1. cbn [card_id].
      rewrite (bool_decide_eq_false_2 _ Hid).
      rewrite IH.
      * unfold getRunningCount, CardCounter.getRunningCount.
        cbn [fst RealtimeAdvisor.m_cardCounter].
        rewrite addCard_runningCount, sum_hilo_cons.
        cbn [rank card_of_id].
        rewrite int32_add_idemp. f_equal. cbn [rank]. lia.
      * intros id' Hin. cbn [snd]. intros Hel.
        apply elem_of_union in Hel as [Hel | Hel].
        -- apply elem_of_singleton in Hel. subst id'.
           apply Hnotin. apply list_elem_of_In. exact Hin.
        -- apply (Hnew id'); [now right | exact Hel].
      * unfold getRunningCount, CardCounter.getRunningCount.
        cbn [fst RealtimeAdvisor.m_cardCounter].
        rewrite addCard_runningCount. apply int32_idemp.
  - intros id Hin. apply updateCardCount_counted.
    apply in_map_iff. exists id. now split.
Qed.

Lemma updateCardCount_new_identities_witness :
  getRunningCount
    (updateCardCount (map mkDetection [1; 4; 64]%N)
       (RealtimeAdvisor.initialize 6 0, ∅))
  = 1.
Proof.
  destruct (updateCardCount_new_identities [1; 4; 64]%N
              (RealtimeAdvisor.initialize 6 0, ∅)) as [H _].
  - repeat constructor; rewrite ?elem_of_cons, ?elem_of_nil;
      intuition discriminate.
  - intros id _. apply not_elem_of_empty.
  - reflexivity.
  - exact H.
Defined.
End AdvisorCount.

(** ** Audio alerts *)
Section Alerts.
Import Types AudioAlertManager Advisor Props MoreProps.

Lemma tones_app (l l' : list sound) : tones (l ++ l') = (tones l + tones l')%nat.
Proof. unfold tones. now rewrite List.filter_app, length_app. Qed.

Lemma beeps_upto (s : AudioAlertManager.t) (count duration_ms pause_ms : Z)
    (m : nat) :
  silent s = false ->
  let l :=
    flat_map
      (fun i : nat =>
         playTone s 800 duration_ms
         ++ (if Z.of_nat i <? count - 1 then [Pause pause_ms] else []))
      (seq 0 m) in
  tones l = m
  /\ length l = (m + Nat.min m (Z.to_nat (count - 1)))%nat.
Proof.
  intros Hs. cbn zeta. induction m as [|m [IHt IHl]].
  - split; reflexivity.
  - rewrite seq_S, flat_map_app, tones_app, length_app, IHt, IHl.
    cbn [flat_map plus]. rewrite app_nil_r.
    unfold playTone. rewrite Hs.
    destruct (Z.of_nat m <? count - 1) eqn:E.
    + apply Z.ltb_lt in E. split; [cbn; lia|]. simpl length. lia.
    + apply Z.ltb_ge in E. split; [cbn; lia|]. simpl length. lia.
Qed.

(** X26.  [playBeeps] with a positive count sounds exactly [count] bells,
    with a pause between two bells and none after the last. *)
Theorem playBeeps_count (s : AudioAlertManager.t)
    (count duration_ms pause_ms : Z) :
  silent s = false ->
  0 < count ->
  tones (playBeeps s count duration_ms pause_ms) = Z.to_nat count
  /\ length (playBeeps s count duration_ms pause_ms)
     = Z.to_nat (2 * count - 1)
  /\ last (playBeeps s count duration_ms pause_ms) = Some (Tone 800 duration_ms).
Proof.
  intros Hs Hc. unfold playBeeps. rewrite Hs.
  destruct (beeps_upto s count duration_ms pause_ms (Z.to_nat count) Hs)
    as [Ht Hl].
  cbn zeta in *. split; [exact Ht|]. split; [rewrite Hl; lia|].
  replace (Z.to_nat count) with (S (Z.to_nat (count - 1))) by lia.
  rewrite seq_S, flat_map_app. cbn [flat_map plus]. rewrite app_nil_r.
  replace (Z.of_nat (Z.to_nat (count - 1)) <? count - 1) with false
    by (symmetry; apply Z.ltb_ge; lia).
  unfold playTone at 2. rewrite Hs, app_nil_r.
  apply last_snoc.
Qed.

Lemma playBeeps_count_witness :
  tones (playBeeps (fst (initialize AudioAlertManager.new)) 5 100 80) = 5%nat.
Proof.
  destruct (playBeeps_count (fst (initialize AudioAlertManager.new)) 5 100 80)
    as [H _].
  - reflexivity.
  - lia.
  - exact H.
Defined.

Lemma bells_of_action (s : AudioAlertManager.t) (c : BasicStrategy.Action) :
  tones (playAlert s (actionToAlertType c))
  = (if silent s then 0%nat else beeps_of c).
Proof.
  unfold playAlert, playBeeps, playTone.
  destruct (silent s); [reflexivity|]. destruct c; reflexivity.
Qed.

(** X27.  The number of bells tells the action: an audible manager sounds 0
    bells for Stand, 1 for Hit, 2 for Double, 3 for Split and 4 for
    Surrender, so two actions that sound alike are the same action; a
    manager that is disabled or not initialised sounds nothing. *)
Theorem bells_identify_action (s : AudioAlertManager.t)
    (a b : BasicStrategy.Action) :
  tones (playAlert s (actionToAlertType a))
  = (if silent s then 0%nat else beeps_of a)
  /\ (silent s = false ->
      tones (playAlert s (actionToAlertType a))
      = tones (playAlert s (actionToAlertType b)) ->
      a = b).
Proof.
  split; [apply bells_of_action|].
  intros Hs. rewrite !bells_of_action, Hs. destruct a, b; simpl; congruence.
Qed.

Lemma bells_identify_action_witness :
  tones (playAlert (fst (initialize AudioAlertManager.new))
           (actionToAlertType BasicStrategy.Split)) = 3%nat.
Proof.
  destruct (bells_identify_action (fst (initialize AudioAlertManager.new))
              BasicStrategy.Split BasicStrategy.Split) as [H _].
  exact H.
Defined.
End Alerts.

(** ** The orchestrator's decisions *)
Section Decisions.
Import Types GameStateTracker AudioAlertManager Advisor Props MoreProps.

(** X28.  A decision is made at most once per hand: when [makeDecision]
    logs a recommendation it records the action, marks the hand as
    decided so that [shouldProcessDecision] is false at every clock
    reading, and leaves the count alone; when the hand or the dealer
    card is missing it changes nothing and plays nothing. *)
Theorem makeDecision_settles_hand (now : Z) (a : Advisor.t) :
  match makeDecision now a with
  | (a', sounds, Some r) =>
      m_lastRecommendedAction a' = action r
      /\ Advisor.m_gameState a'
         = completeCurrentHand now (Advisor.m_gameState a)
      /\ (forall now', shouldProcessDecision now' (Advisor.m_gameState a')
                       = false)
      /\ Advisor.m_cardCounter a' = Advisor.m_cardCounter a
      /\ runningCount r
         = CardCounterFull.getRunningCount (Advisor.m_cardCounter a)
  | (a', sounds, None) =>
      a' = a /\ sounds = []
      /\ (getCurrentHand (Advisor.m_gameState a) = None
          \/ getDealerUpcard (Advisor.m_gameState a) = None)
  end.
Proof.
  unfold makeDecision.
  assert (Hdone : forall now' gs,
             shouldProcessDecision now' (completeCurrentHand now gs) = false).
  { intros now' gs. unfold shouldProcessDecision.
    cbn [m_decisionMade completeCurrentHand].
    destruct (negb _); [reflexivity|]. destruct (negb _); reflexivity. }
  destruct (getCurrentHand (Advisor.m_gameState a)) as [hand|];
    [|repeat split; now left].
  destruct (getDealerUpcard (Advisor.m_gameState a)) as [dealerCard|];
    [|repeat split; now right].
  destruct (rank_eqb (rank dealerCard) Ace && Qle_bool 3 _);
    cbn [with_decision m_lastRecommendedAction action Advisor.m_gameState
         Advisor.m_cardCounter runningCount];
    (split; [reflexivity|]); (split; [reflexivity|]);
    (split; [intros now'; apply Hdone|]); split; reflexivity.
Qed.

(** X29.  With deviations enabled (the declared default) the orchestrator
    never recommends Split, and so never sounds three bells for a
    decision: [getDeviationAction] is not told whether the hand is a
    pair. *)
Theorem makeDecision_never_splits (now : Z) (a : Advisor.t)
    (rules : string) (s0 : BasicStrategy.t) (r : recommendation) :
  deviations_enabled a = true ->
  m_basicStrategy a = BasicStrategy.initialize rules s0 ->
  snd (makeDecision now a) = Some r ->
  action r <> BasicStrategy.Split
  /\ tones (snd (fst (makeDecision now a))) <> 3%nat.
Proof.
  intros Hdev Hbs. unfold makeDecision.
  destruct (getCurrentHand (Advisor.m_gameState a)) as [hand|];
    [|discriminate].
  destruct (getDealerUpcard (Advisor.m_gameState a)) as [dealerCard|];
    [|discriminate].
  destruct (rank_eqb (rank dealerCard) Ace && Qle_bool 3 _).
  - cbn [fst snd]. intros [= <-]. cbn [action]. split; [discriminate|].
    unfold playAlert, playBeeps, playTone.
    destruct (silent _); cbn; discriminate.
  - rewrite Hdev, Hbs. cbn [fst snd]. intros [= <-]. cbn [action].
    pose proof (getDeviationAction_no_split rules s0
                  (total hand) (rank dealerCard)
                  (CardCounterFull.getTrueCount (Advisor.m_cardCounter a)))
      as Hns.
    split; [exact Hns|].
    rewrite bells_of_action.
    destruct (silent _); [discriminate|].
    destruct (BasicStrategy.getDeviationAction _ _ _ _); cbn;
      try discriminate. now elim Hns.
Qed.

(** X30.  [nextHand] always starts a fresh hand: a tracker reached from its
    constructor never has a further hand to advance to. *)
Theorem nextHand_starts_new_hand (calls : list tracker_call) (now : Z)
    (a : Advisor.t) :
  Advisor.m_gameState a
  = fold_left do_tracker_call calls (GameStateTracker.new now) ->
  Advisor.m_gameState (nextHand a) = startNewHand (Advisor.m_gameState a)
  /\ getCurrentPhase (Advisor.m_gameState (nextHand a)) = WaitingForCards
  /\ m_playerHands (Advisor.m_gameState (nextHand a)) = [emptyHand].
Proof.
  intros Hgs. unfold nextHand. cbn [Advisor.m_gameState].
  destruct (tracker_single_hand calls now) as (_ & _ & Hmore).
  rewrite Hgs, Hmore. repeat split.
Qed.

Lemma makeDecision_never_splits_witness :
  tones
    (snd (fst (makeDecision 5
                 (Advisor.mk CardCounterFull.new
                    (BasicStrategy.initialize "s17_das" BasicStrategy.new)
                    BettingStrategy.new
                    (track_frames
                       [(0, [mkDetection 7; mkDetection 20; mkDetection 5]);
                        (1, [mkDetection 7; mkDetection 20; mkDetection 5]);
                        (2, [mkDetection 7; mkDetection 20; mkDetection 5])]
                       (GameStateTracker.new 0))
                    (fst (AudioAlertManager.initialize AudioAlertManager.new))
                    true BasicStrategy.Hit))))
  <> 3%nat.
Proof.
  eapply (makeDecision_never_splits 5 _ "s17_das" BasicStrategy.new).
  - reflexivity.
  - reflexivity.
  - vm_compute. reflexivity.
Defined.

Lemma nextHand_starts_new_hand_witness :
  m_playerHands
    (Advisor.m_gameState
       (nextHand
          (Advisor.mk CardCounterFull.new BasicStrategy.new
             BettingStrategy.new
             (fold_left do_tracker_call
                [UpdateDetectedCards 1 [mkDetection 7]; CompleteCurrentHand 2]
                (GameStateTracker.new 0))
             AudioAlertManager.new true BasicStrategy.Hit)))
  = [emptyHand].
Proof.
  destruct (nextHand_starts_new_hand
              [UpdateDetectedCards 1 [mkDetection 7]; CompleteCurrentHand 2] 0
              (Advisor.mk CardCounterFull.new BasicStrategy.new
                 BettingStrategy.new
                 (fold_left do_tracker_call
                    [UpdateDetectedCards 1 [mkDetection 7];
                     CompleteCurrentHand 2]
                    (GameStateTracker.new 0))
                 AudioAlertManager.new true BasicStrategy.Hit))
    as (_ & _ & H).
  - reflexivity.
  - exact H.
Defined.
End Decisions.
